(** * Page-canvas document model of PnP-JS-Core (clientsidepages.ts)

    A shallow embedding of the markup scanner, the attribute codec, the
    control model, the tree reconciler and the page document, followed by
    the properties established about them.

    Conventions of the embedding.
    - A JavaScript string is a [string]: a sequence of code units.  The
      alphabet is restricted to the code units 0..255; every pattern of the
      source is ASCII, and case folding under the [i] flag never relates an
      ASCII letter to a code unit above 127.
    - A JavaScript number is a [Z]; array indices and search results keep the
      source's convention of [-1] for "not found".  Sums of positions, indices
      and counters are exact; the sum in [getNextOrder], whose operand is an
      order read from a page, is rounded as the source rounds it.
    - A call either returns, throws, leaves the modelled fragment of
      JavaScript ([Unmodelled]: a value whose run-time type differs from the
      TypeScript declaration, a non-integer number, a code unit above 255), or
      has not finished within the given number of loop iterations
      ([OutOfFuel]).
    - The page tree is a tree: a section, column or control is owned by one
      parent, and the back references [column.section] and [control.column]
      point to the owner, as [addSection], [addColumn], [addControl] and the
      two merge routines establish.  Reads through a back reference are
      therefore reads of the owner. *)

From Stdlib Require Import Bool Arith ZArith NArith Lia List Ascii String.
From Stdlib Require Import Decimal DecimalFacts DecimalN DecimalString.
Import ListNotations.
Local Open Scope string_scope.
Local Open Scope Z_scope.

#[local] Set Warnings "-register-all".

(* ===================================================================== *)
(** * Outcomes of a call *)
(* ===================================================================== *)

Inductive error : Type :=
| TypeError                 (* dereference of null or undefined *)
| SyntaxError               (* thrown by JSON.parse *)
| Error (message : string). (* new Error(message) *)

Inductive outcome (A : Type) : Type :=
| Ok (a : A)
| Throw (e : error)
| Unmodelled
| OutOfFuel.

Arguments Ok {A} a.
Arguments Throw {A} e.
Arguments Unmodelled {A}.
Arguments OutOfFuel {A}.

Definition bind {A B : Type} (m : outcome A) (f : A -> outcome B) : outcome B :=
  match m with
  | Ok a => f a
  | Throw e => Throw e
  | Unmodelled => Unmodelled
  | OutOfFuel => OutOfFuel
  end.

Notation "x <- m ;; k" := (bind m (fun x => k))
  (at level 61, m at next level, right associativity).
Notation "' p <- m ;; k" := (bind m (fun x => let p := x in k))
  (at level 61, p pattern, m at next level, right associativity).

(* ===================================================================== *)
(** * Characters and the String methods the source calls *)
(* ===================================================================== *)

Definition code (c : ascii) : N := N_of_ascii c.

Definition in_range (lo hi : N) (c : ascii) : bool :=
  ((lo <=? code c) && (code c <=? hi))%N.

Definition is_digit (c : ascii) : bool := in_range 48 57 c.
Definition is_upper (c : ascii) : bool := in_range 65 90 c.
Definition is_lower (c : ascii) : bool := in_range 97 122 c.

(** [\w]: letters, digits and the underscore. *)
Definition is_word (c : ascii) : bool :=
  is_digit c || is_upper c || is_lower c || (c =? "_")%char.

(** Canonicalisation under the [i] flag, on the modelled alphabet. *)
Definition fold_case (c : ascii) : ascii :=
  if is_lower c then ascii_of_N (code c - 32) else c.

Definition char_eq (ic : bool) (a b : ascii) : bool :=
  if ic then (fold_case a =? fold_case b)%char else (a =? b)%char.

(** WhiteSpace and LineTerminator code units below 256, as [trim] sees them. *)
Definition is_space (c : ascii) : bool :=
  in_range 9 13 c || (code c =? 32)%N || (code c =? 160)%N.

Fixpoint skipn_str (n : nat) (s : string) : string :=
  match n, s with
  | O, _ => s
  | S _, EmptyString => EmptyString
  | S n', String _ s' => skipn_str n' s'
  end.

Fixpoint firstn_str (n : nat) (s : string) : string :=
  match n, s with
  | O, _ => EmptyString
  | S _, EmptyString => EmptyString
  | S n', String c s' => String c (firstn_str n' s')
  end.

Definition len (s : string) : Z := Z.of_nat (String.length s).

(** [s.substring(a, b)]: both ends clamped to [0, length], swapped when
    [a > b]. *)
Definition clamp (s : string) (i : Z) : nat :=
  Z.to_nat (Z.min (Z.max i 0) (len s)).

Definition substring (s : string) (a b : Z) : string :=
  let a' := clamp s a in
  let b' := clamp s b in
  let lo := Nat.min a' b' in
  let hi := Nat.max a' b' in
  firstn_str (hi - lo) (skipn_str lo s).

(** [s.substring(a)]. *)
Definition substring_from (s : string) (a : Z) : string :=
  skipn_str (clamp s a) s.

Fixpoint trim_start (s : string) : string :=
  match s with
  | EmptyString => EmptyString
  | String c s' => if is_space c then trim_start s' else s
  end.

(** The string without its trailing white space. *)
Fixpoint trim_end (s : string) : string :=
  match s with
  | EmptyString => EmptyString
  | String c s' =>
      match trim_end s' with
      | EmptyString => if is_space c then EmptyString else String c EmptyString
      | t => String c t
      end
  end.

Definition trim (s : string) : string := trim_end (trim_start s).

(** [s.startsWith(p)], case sensitive. *)
Fixpoint startsWith (s p : string) {struct p} : bool :=
  match p, s with
  | EmptyString, _ => true
  | String _ _, EmptyString => false
  | String a p', String b s' => (a =? b)%char && startsWith s' p'
  end.

(** Whether [p] occurs in [s]. *)
Fixpoint includes (s p : string) : bool :=
  startsWith s p ||
  match s with
  | EmptyString => false
  | String _ s' => includes s' p
  end.

(** [s.replace(/p/g, r)] for a literal, non-empty pattern [p]: the matches
    are taken leftmost first and do not overlap.  [skip] counts the code
    units of the current match that are still to be dropped. *)
Fixpoint replace_from (p r : string) (skip : nat) (s : string) : string :=
  match s with
  | EmptyString => EmptyString
  | String c s' =>
      match skip with
      | S k => replace_from p r k s'
      | O =>
          if startsWith s p
          then r ++ replace_from p r (String.length p - 1) s'
          else String c (replace_from p r O s')
      end
  end.

Definition replace_all (p r s : string) : string := replace_from p r O s.

(** [s.replace(/[\t\r\n]/g, "")]. *)
Fixpoint strip_tab_cr_lf (s : string) : string :=
  match s with
  | EmptyString => EmptyString
  | String c s' =>
      if (code c =? 9)%N || (code c =? 13)%N || (code c =? 10)%N
      then strip_tab_cr_lf s'
      else String c (strip_tab_cr_lf s')
  end.

(** [parts.join("")]. *)
Definition join (parts : list string) : string :=
  fold_right append EmptyString parts.

(* ===================================================================== *)
(** * Regular expressions of the source *)
(* ===================================================================== *)

(** The regular expressions of the source are sequences of literals, [\b],
    starred character classes (greedy or lazy, capturing or not) and [$];
    they have at most one capturing group, which wraps a star.  The matcher
    below is the backtracking matcher of the language on this fragment. *)

Inductive cclass : Type :=
| AnyChar                (* .     : anything but a line terminator *)
| NotChar (c : ascii)    (* [^c]  *)
| DigitChar.             (* \d    *)

Inductive node : Type :=
| Lit (s : string)
| WordBoundary
| Star (cc : cclass) (lazy capture : bool)
| EndOfInput.

Record regex : Type := RegExp {
  re_nodes : list node;
  re_ignoreCase : bool;   (* the [i] flag *)
  re_atStart : bool       (* a leading [^] *)
}.

Definition in_class (cc : cclass) (c : ascii) : bool :=
  match cc with
  | AnyChar => negb ((code c =? 10)%N || (code c =? 13)%N)
  | NotChar x => negb (c =? x)%char
  | DigitChar => is_digit c
  end.

(** Strips the literal [l] from the front of [s]; returns the rest and the
    last code unit consumed. *)
Fixpoint strip_lit (ic : bool) (l : string) (prev : option ascii) (s : string)
  : option (option ascii * string) :=
  match l with
  | EmptyString => Some (prev, s)
  | String a l' =>
      match s with
      | EmptyString => None
      | String b s' => if char_eq ic a b then strip_lit ic l' (Some b) s' else None
      end
  end.

Definition word_before (prev : option ascii) : bool :=
  match prev with Some c => is_word c | None => false end.

Definition word_after (s : string) : bool :=
  match s with String c _ => is_word c | EmptyString => false end.

(** A match: the number of code units consumed and the text of the
    capturing group (empty when the expression has no group). *)
Definition found : Type := (nat * string)%type.

Definition advance (n : nat) (r : option found) : option found :=
  match r with
  | Some (m, cap) => Some ((n + m)%nat, cap)
  | None => None
  end.

Definition capture_start (capture : bool) (r : option found) : option found :=
  match r with
  | Some (m, cap) => Some (m, if capture then EmptyString else cap)
  | None => None
  end.

Definition capture_more (capture : bool) (c : ascii) (r : option found) : option found :=
  match r with
  | Some (m, cap) => Some (S m, if capture then String c cap else cap)
  | None => None
  end.

Definition or_else (a b : option found) : option found :=
  match a with Some _ => a | None => b end.

Fixpoint match_nodes (ic : bool) (ns : list node) (prev : option ascii) (s : string)
  {struct ns} : option found :=
  match ns with
  | [] => Some (O, EmptyString)
  | Lit l :: ns' =>
      match strip_lit ic l prev s with
      | Some (prev', s') => advance (String.length l) (match_nodes ic ns' prev' s')
      | None => None
      end
  | WordBoundary :: ns' =>
      if xorb (word_before prev) (word_after s)
      then match_nodes ic ns' prev s else None
  | EndOfInput :: ns' =>
      match s with
      | EmptyString => match_nodes ic ns' prev s
      | String _ _ => None
      end
  | Star cc lazy capture :: ns' =>
      (fix star (prev : option ascii) (s : string) {struct s} : option found :=
         let stop := capture_start capture (match_nodes ic ns' prev s) in
         match s with
         | EmptyString => stop
         | String c s' =>
             if in_class cc c
             then
               let more := capture_more capture c (star (Some c) s') in
               if lazy then or_else stop more else or_else more stop
             else stop
         end) prev s
  end.

(** [re.exec(s)]: the leftmost position at which the expression matches,
    with the length of the match and the captured text. *)
Fixpoint exec_from (re : regex) (prev : option ascii) (pos : nat) (s : string)
  : option (nat * found) :=
  match match_nodes (re_ignoreCase re) (re_nodes re) prev s with
  | Some m => Some (pos, m)
  | None =>
      if re_atStart re then None
      else
        match s with
        | EmptyString => None
        | String c s' => exec_from re (Some c) (S pos) s'
        end
  end.

Definition exec (re : regex) (s : string) : option (nat * found) :=
  exec_from re None O s.

(** [s.search(re)]. *)
Definition search (re : regex) (s : string) : Z :=
  match exec re s with
  | Some (pos, _) => Z.of_nat pos
  | None => -1
  end.

(** [s.replace(re, "")] without the [g] flag: the first match is removed. *)
Definition remove_first (re : regex) (s : string) : string :=
  match exec re s with
  | Some (pos, (n, _)) => firstn_str pos s ++ skipn_str (pos + n) s
  | None => s
  end.

(** The double quote, as a code unit and as a string. *)
Definition dquote : ascii := "034"%char.
Definition DQ : string := String dquote EmptyString.

(** The regular expressions of the source, in order of appearance; in the
    comments Q stands for the double quote character. *)

(** [new RegExp(`${attrName}=Q([^Q]*?)Q`, 'i')], for an attribute name
    without regular-expression metacharacters. *)
Definition re_attr (attrName : string) : regex :=
  RegExp [Lit (attrName ++ "=" ++ DQ); Star (NotChar dquote) true true; Lit DQ]
         true false.

(** [/<div[^>]*>/i] *)
Definition re_div_open : regex :=
  RegExp [Lit "<div"; Star (NotChar ">") false false; Lit ">"] true false.

(** [/<\/div>/i] *)
Definition re_div_close : regex :=
  RegExp [Lit "</div>"] true false.

(** [/<div\b[^>]*data-sp-canvascontrol[^>]*?>/i] *)
Definition re_canvascontrol : regex :=
  RegExp [Lit "<div"; WordBoundary; Star (NotChar ">") false false;
          Lit "data-sp-canvascontrol"; Star (NotChar ">") true false; Lit ">"]
         true false.

(** [/controlType&quot;&#58;(\d*?),/i] *)
Definition re_controlType : regex :=
  RegExp [Lit "controlType&quot;&#58;"; Star DigitChar true true; Lit ","]
         true false.

(** [/<div[^>]*data-sp-rte[^>]*>(.*?)<\/div>/i] *)
Definition re_rte : regex :=
  RegExp [Lit "<div"; Star (NotChar ">") false false; Lit "data-sp-rte";
          Star (NotChar ">") false false; Lit ">"; Star AnyChar true true;
          Lit "</div>"]
         true false.

(** [/<div\b[^>]*data-sp-htmlproperties[^>]*?>/i] *)
Definition re_htmlproperties : regex :=
  RegExp [Lit "<div"; WordBoundary; Star (NotChar ">") false false;
          Lit "data-sp-htmlproperties"; Star (NotChar ">") true false; Lit ">"]
         true false.

(** [/^<div\b[^>]*data-sp-htmlproperties[^>]*?>/i] *)
Definition re_htmlproperties_head : regex :=
  RegExp (re_nodes re_htmlproperties) true true.

(** [/<\/div>$/i] *)
Definition re_div_close_tail : regex :=
  RegExp [Lit "</div>"; EndOfInput] true false.

(* ===================================================================== *)
(** * JSON values, JSON.stringify and JSON.parse *)
(* ===================================================================== *)

(** The values [JSON.parse] returns.  Numbers are the integers; an object is
    the list of its own properties in enumeration order. *)
Inductive json : Type :=
| JNull
| JBool (b : bool)
| JNum (n : Z)
| JStr (s : string)
| JArr (items : list json)
| JObj (members : list (string * json)).

(** ** Decimal numerals *)

Definition string_of_N (n : N) : string :=
  DecimalString.NilZero.string_of_uint (N.to_uint n).

Definition string_of_Z (z : Z) : string :=
  match z with
  | Zneg p => "-" ++ string_of_N (Npos p)
  | _ => string_of_N (Z.to_N z)
  end.

(** The longest prefix of decimal digits, and the rest. *)
Fixpoint span_digits (s : string) : string * string :=
  match s with
  | EmptyString => (EmptyString, EmptyString)
  | String c s' =>
      if is_digit c
      then let (ds, rest) := span_digits s' in (String c ds, rest)
      else (EmptyString, s)
  end.

(** The value of a string of decimal digits. *)
Definition N_of_digits (ds : string) : N :=
  match DecimalString.NilZero.uint_of_string ds with
  | Some u => N.of_uint u
  | None => 0%N
  end.

(** ** JSON.stringify *)

Definition hex_digit (n : N) : ascii :=
  if (n <? 10)%N then ascii_of_N (48 + n) else ascii_of_N (87 + n).

Definition backslash : ascii := "\"%char.

(** QuoteJSONString, one code unit at a time. *)
Definition quote_char (c : ascii) : string :=
  if (c =? dquote)%char then String backslash DQ
  else if (c =? backslash)%char then "\\"
  else if (code c =? 8)%N then "\b"
  else if (code c =? 12)%N then "\f"
  else if (code c =? 10)%N then "\n"
  else if (code c =? 13)%N then "\r"
  else if (code c =? 9)%N then "\t"
  else if (code c <? 32)%N
       then "\u00" ++ String (hex_digit (code c / 16))
                        (String (hex_digit (code c mod 16)) EmptyString)
  else String c EmptyString.

Fixpoint quote_body (s : string) : string :=
  match s with
  | EmptyString => EmptyString
  | String c s' => quote_char c ++ quote_body s'
  end.

Definition quote (s : string) : string := DQ ++ quote_body s ++ DQ.

Fixpoint sep_by (sep : string) (parts : list string) : string :=
  match parts with
  | [] => EmptyString
  | [p] => p
  | p :: ps => p ++ sep ++ sep_by sep ps
  end.

Fixpoint JSON_stringify (v : json) : string :=
  match v with
  | JNull => "null"
  | JBool true => "true"
  | JBool false => "false"
  | JNum n => string_of_Z n
  | JStr s => quote s
  | JArr items => "[" ++ sep_by "," (map JSON_stringify items) ++ "]"
  | JObj members =>
      "{" ++ sep_by ","
               (map (fun m => quote (fst m) ++ ":" ++ JSON_stringify (snd m))
                    members)
          ++ "}"
  end.

(** ** JSON.parse *)

Definition is_json_space (c : ascii) : bool :=
  (code c =? 32)%N || (code c =? 9)%N || (code c =? 10)%N || (code c =? 13)%N.

Fixpoint skip_ws (s : string) : string :=
  match s with
  | EmptyString => EmptyString
  | String c s' => if is_json_space c then skip_ws s' else s
  end.

Definition hex_value (c : ascii) : option N :=
  if is_digit c then Some (code c - 48)%N
  else if in_range 97 102 c then Some (code c - 87)%N
  else if in_range 65 70 c then Some (code c - 55)%N
  else None.

Definition unescape_char (e : ascii) : option ascii :=
  if (e =? dquote)%char then Some dquote
  else if (e =? backslash)%char then Some backslash
  else if (e =? "/")%char then Some "/"%char
  else if (e =? "b")%char then Some (ascii_of_N 8)
  else if (e =? "f")%char then Some (ascii_of_N 12)
  else if (e =? "n")%char then Some (ascii_of_N 10)
  else if (e =? "r")%char then Some (ascii_of_N 13)
  else if (e =? "t")%char then Some (ascii_of_N 9)
  else None.

Definition cons_char (c : ascii) (r : outcome (string * string))
  : outcome (string * string) :=
  '(t, rest) <- r ;; Ok (String c t, rest).

(** The characters of a string literal after its opening quote, up to the
    closing quote; returns the denoted string and what follows the literal. *)
Fixpoint parse_chars (s : string) : outcome (string * string) :=
  match s with
  | EmptyString => Throw SyntaxError
  | String c s' =>
      if (c =? dquote)%char then Ok (EmptyString, s')
      else if (c =? backslash)%char then
        match s' with
        | EmptyString => Throw SyntaxError
        | String e s'' =>
            if (e =? "u")%char then
              match s'' with
              | String h1 (String h2 (String h3 (String h4 s5))) =>
                  match hex_value h1, hex_value h2, hex_value h3, hex_value h4 with
                  | Some a, Some b, Some c', Some d =>
                      let n := (4096 * a + 256 * b + 16 * c' + d)%N in
                      if (n <? 256)%N
                      then cons_char (ascii_of_N n) (parse_chars s5)
                      else Unmodelled
                  | _, _, _, _ => Throw SyntaxError
                  end
              | _ => Throw SyntaxError
              end
            else
              match unescape_char e with
              | Some ch => cons_char ch (parse_chars s'')
              | None => Throw SyntaxError
              end
        end
      else if (code c <? 32)%N then Throw SyntaxError
      else cons_char c (parse_chars s')
  end.

(** The largest magnitude up to which every integer is a number value. *)
Definition max_safe : N := 9007199254740992.

(** A number token at the front of [s]; fractions and exponents denote
    numbers that need not be integers and are left out of the model. *)
Definition parse_number (s : string) : outcome (json * string) :=
  let (neg, s1) :=
    match s with
    | String c s' => if (c =? "-")%char then (true, s') else (false, s)
    | EmptyString => (false, s)
    end in
  let (ds, rest) := span_digits s1 in
  match ds with
  | EmptyString => Throw SyntaxError
  | String d ds' =>
      if (d =? "0")%char && negb (ds' =? "")%string then Throw SyntaxError
      else
        let fractional :=
          match rest with
          | String c _ => (c =? ".")%char || (c =? "e")%char || (c =? "E")%char
          | EmptyString => false
          end in
        if fractional || (max_safe <? N_of_digits ds)%N then Unmodelled
        else
          let n := Z.of_N (N_of_digits ds) in
          Ok (JNum (if neg then - n else n), rest)
  end.

(** Whether a property key is an array index: a canonical numeral below
    2^32 - 1.  Such keys are enumerated first, in ascending order. *)
Definition array_index (k : string) : option N :=
  match k with
  | EmptyString => None
  | String d ds =>
      let (digits, rest) := span_digits k in
      if negb (rest =? "")%string then None
      else if (d =? "0")%char && negb (ds =? "")%string then None
      else if (N_of_digits k <? 4294967295)%N then Some (N_of_digits k)
      else None
  end.

Definition key_before (k k' : string) : bool :=
  match array_index k, array_index k' with
  | Some i, Some j => (i <? j)%N
  | Some _, None => true
  | None, _ => false
  end.

(** CreateDataProperty on the list of own properties. *)
Fixpoint obj_set (k : string) (v : json) (ms : list (string * json))
  : list (string * json) :=
  match ms with
  | [] => [(k, v)]
  | (k', v') :: ms' =>
      if (k' =? k)%string then (k, v) :: ms'
      else if key_before k k' then (k, v) :: ms
      else (k', v') :: obj_set k v ms'
  end.

Definition expect_string (s : string) : outcome (string * string) :=
  match skip_ws s with
  | String c s' => if (c =? dquote)%char then parse_chars s' else Throw SyntaxError
  | EmptyString => Throw SyntaxError
  end.

Definition literal (word : string) (v : json) (s : string) : outcome (json * string) :=
  if startsWith s word then Ok (v, skipn_str (String.length word) s)
  else Throw SyntaxError.

(** The next code unit that is not white space, and what follows it. *)
Definition next_token (s : string) : option (ascii * string) :=
  match skip_ws s with
  | EmptyString => None
  | String c s' => Some (c, s')
  end.

(** A value at the front of [s], after optional white space.  [fuel] bounds
    the number of values, elements and members visited. *)
Fixpoint parse_value (fuel : nat) (s : string) {struct fuel} : outcome (json * string) :=
  match fuel with
  | O => OutOfFuel
  | S f =>
      match next_token s with
      | None => Throw SyntaxError
      | Some (c, s') =>
          if (c =? "{")%char then
            match next_token s' with
            | Some (c', s'') =>
                if (c' =? "}")%char then Ok (JObj [], s'') else parse_members f s' []
            | None => parse_members f s' []
            end
          else if (c =? "[")%char then
            match next_token s' with
            | Some (c', s'') =>
                if (c' =? "]")%char then Ok (JArr [], s'') else parse_elements f s' []
            | None => parse_elements f s' []
            end
          else if (c =? dquote)%char then
            '(t, rest) <- parse_chars s' ;; Ok (JStr t, rest)
          else if (c =? "t")%char then literal "true" (JBool true) (String c s')
          else if (c =? "f")%char then literal "false" (JBool false) (String c s')
          else if (c =? "n")%char then literal "null" JNull (String c s')
          else if (c =? "-")%char || is_digit c then parse_number (String c s')
          else Throw SyntaxError
      end
  end

with parse_elements (fuel : nat) (s : string) (acc : list json) {struct fuel}
  : outcome (json * string) :=
  match fuel with
  | O => OutOfFuel
  | S f =>
      '(v, s1) <- parse_value f s ;;
      match next_token s1 with
      | Some (c, s2) =>
          if (c =? ",")%char then parse_elements f s2 (acc ++ [v])
          else if (c =? "]")%char then Ok (JArr (acc ++ [v]), s2)
          else Throw SyntaxError
      | None => Throw SyntaxError
      end
  end

with parse_members (fuel : nat) (s : string) (acc : list (string * json)) {struct fuel}
  : outcome (json * string) :=
  match fuel with
  | O => OutOfFuel
  | S f =>
      '(k, s1) <- expect_string s ;;
      match next_token s1 with
      | Some (colon, s2) =>
          if (colon =? ":")%char then
            '(v, s3) <- parse_value f s2 ;;
            match next_token s3 with
            | Some (c, s4) =>
                if (c =? ",")%char then parse_members f s4 (obj_set k v acc)
                else if (c =? "}")%char then Ok (JObj (obj_set k v acc), s4)
                else Throw SyntaxError
            | None => Throw SyntaxError
            end
          else Throw SyntaxError
      | None => Throw SyntaxError
      end
  end.

(** [JSON.parse(s)].  Every recursive call of the parser consumes a code
    unit, so the length of the text bounds the fuel it needs. *)
Definition JSON_parse (s : string) : outcome json :=
  '(v, rest) <- parse_value (S (String.length s)) s ;;
  match next_token rest with
  | None => Ok v
  | Some _ => Throw SyntaxError
  end.

(** ** Reading properties of parsed values *)

(** A value or [undefined]. *)
Definition jsval : Type := option json.

Fixpoint lookup (k : string) (ms : list (string * json)) : jsval :=
  match ms with
  | [] => None
  | (k', v) :: ms' => if (k' =? k)%string then Some v else lookup k ms'
  end.

(** [v.k] for the property names the source reads ([position], [zoneIndex],
    [title], ...), none of which is defined by a prototype: reading from
    [null] or [undefined] throws, reading from an object looks the key up,
    reading from any other value gives [undefined]. *)
Definition member (k : string) (v : jsval) : outcome jsval :=
  match v with
  | None => Throw TypeError
  | Some JNull => Throw TypeError
  | Some (JObj ms) => Ok (lookup k ms)
  | Some _ => Ok None
  end.

(** Stores into fields the TypeScript source declares as [number],
    [string], or either of them when the property is optional. *)
Definition as_number (v : jsval) : outcome Z :=
  match v with Some (JNum n) => Ok n | _ => Unmodelled end.

Definition as_string (v : jsval) : outcome string :=
  match v with Some (JStr s) => Ok s | _ => Unmodelled end.

Definition as_opt_number (v : jsval) : outcome (option Z) :=
  match v with
  | None => Ok None
  | Some (JNum n) => Ok (Some n)
  | Some _ => Unmodelled
  end.

Definition as_opt_string (v : jsval) : outcome (option string) :=
  match v with
  | None => Ok None
  | Some (JStr s) => Ok (Some s)
  | Some _ => Unmodelled
  end.

(** An object literal handed to [JSON.stringify]: the properties whose value
    is [undefined] are not serialized. *)
Fixpoint object_literal (ms : list (string * jsval)) : json :=
  match ms with
  | [] => JObj []
  | (k, Some v) :: ms' =>
      match object_literal ms' with
      | JObj r => JObj ((k, v) :: r)
      | other => other
      end
  | (_, None) :: ms' => object_literal ms'
  end.

Definition num (n : Z) : jsval := Some (JNum n).
Definition opt_num (n : option Z) : jsval := option_map JNum n.
Definition str (s : string) : jsval := Some (JStr s).
Definition opt_str (s : option string) : jsval := option_map JStr s.

(* ===================================================================== *)
(** * Free functions of the module *)
(* ===================================================================== *)

(** The number value nearest to the integer [z].  Every integer up to
    [max_safe] in magnitude is a number value; beyond it a number value has
    53 significant bits, and an integer half way between two of them goes
    to the one whose significand is even.  (Magnitudes from 2^1024 on, which
    go to Infinity, are not met: the argument is the sum of a number value
    and 1.) *)
Definition nearest_number (z : Z) : Z :=
  let a := Z.abs z in
  if a <=? Z.of_N max_safe then z
  else
    let e := Z.log2 a - 52 in
    let q := Z.shiftr a e in
    let r := a - Z.shiftl q e in
    let half := Z.shiftl 1 (e - 1) in
    let up := (half <? r) || ((half =? r) && Z.odd q) in
    Z.sgn z * Z.shiftl (if up then q + 1 else q) e.

(** [a + b] on number values: the exact sum, rounded. *)
Definition number_add (a b : Z) : Z := nearest_number (a + b).

(** [getNextOrder], on the [order] values of the collection. *)
Definition getNextOrder (orders : list Z) : Z :=
  match orders with
  | [] => 1
  | o :: os => number_add (fold_left Z.max os o) 1
  end.

(** [regexIndexOf.call(this, regex, startpos)]. *)
Definition regexIndexOf (this : string) (re : regex) (startpos : Z) : Z :=
  let indexOf := search re (substring_from this startpos) in
  if 0 <=? indexOf then indexOf + startpos else indexOf.

(** [getAttrValueFromString]: [exec] returns [null] when nothing matches and
    [match.length] is then read from [null]. *)
Definition getAttrValueFromString (html attrName : string) : outcome string :=
  match exec (re_attr attrName) html with
  | None => Throw TypeError
  | Some (_, (_, value)) => Ok value
  end.

(** ** getBoundedDivMarkup *)

Definition depth_message : string := "getBoundedDivMarkup exceeded depth parameters.".

(** One turn of the inner [while (true)] loop. *)
Inductive scan_step : Type :=
| Continue (openCounter searchIndex : Z)
| Closed (nextCloseDiv : Z)
| TooDeep.

(** The first half of a turn: both searches and the update of the counter
    and of the search index.  Returns the new counter, the new search index
    and [nextCloseDiv]. *)
Definition next_tag (cleanedHtml : string) (openCounter searchIndex : Z) : Z * Z * Z :=
  let nextDivOpen := regexIndexOf cleanedHtml re_div_open searchIndex in
  let nextCloseDiv := regexIndexOf cleanedHtml re_div_close searchIndex in
  let nextDivOpen := if nextDivOpen <? 0 then len cleanedHtml + 1 else nextDivOpen in
  if nextDivOpen <? nextCloseDiv then (openCounter + 1, nextDivOpen + 1, nextCloseDiv)
  else if nextCloseDiv <? nextDivOpen then (openCounter - 1, nextCloseDiv + 1, nextCloseDiv)
  else (openCounter, searchIndex, nextCloseDiv).

(** The second half: the two tests on the counter. *)
Definition close_step (cleanedHtml : string) (openCounter searchIndex : Z) : scan_step :=
  let '(openCounter, searchIndex, nextCloseDiv) :=
    next_tag cleanedHtml openCounter searchIndex in
  if openCounter =? 0 then Closed nextCloseDiv
  else if (1000 <? openCounter) || (openCounter <? 0) then TooDeep
  else Continue openCounter searchIndex.

(** The inner loop: the position of the closing tag that balances the
    opening one. *)
Fixpoint find_close (fuel : nat) (cleanedHtml : string) (openCounter searchIndex : Z)
  : outcome Z :=
  match fuel with
  | O => OutOfFuel
  | S f =>
      match close_step cleanedHtml openCounter searchIndex with
      | Continue openCounter' searchIndex' =>
          find_close f cleanedHtml openCounter' searchIndex'
      | Closed nextCloseDiv => Ok nextCloseDiv
      | TooDeep => Throw (Error depth_message)
      end
  end.

Section Scanner.

(** The collector may read and update state of its caller (the page being
    built) and may throw. *)
Variables St T : Type.
Variable boundaryStartPattern : regex.
Variable collector : string -> St -> outcome (T * St).

(** The outer [while (startIndex > -1)] loop. *)
Fixpoint scan_blocks (fuel : nat) (cleanedHtml : string) (startIndex : Z)
         (blocks : list T) (st : St) : outcome (list T * St) :=
  if -1 <? startIndex then
    match fuel with
    | O => OutOfFuel
    | S f =>
        nextCloseDiv <- find_close fuel cleanedHtml 1 (startIndex + 1) ;;
        let markup := trim (substring cleanedHtml startIndex (nextCloseDiv + 6)) in
        '(block, st') <- collector markup st ;;
        scan_blocks f cleanedHtml
                    (regexIndexOf cleanedHtml boundaryStartPattern nextCloseDiv)
                    (blocks ++ [block]) st'
    end
  else Ok (blocks, st).

(** [html] is [None] when the argument is [undefined] or [null]. *)
Definition getBoundedDivMarkup (fuel : nat) (html : option string) (st : St)
  : outcome (list T * St) :=
  match html with
  | None => Ok ([], st)
  | Some html =>
      let cleanedHtml := strip_tab_cr_lf html in
      let startIndex := regexIndexOf cleanedHtml boundaryStartPattern 0 in
      if startIndex <? 0 then Ok ([], st)
      else scan_blocks fuel cleanedHtml startIndex [] st
  end.

End Scanner.

Arguments scan_blocks {St T}.
Arguments getBoundedDivMarkup {St T}.

(** ** reindex *)

(** [reindex] is one function for sections, columns and controls; it goes
    down into [columns] or [controls] when the element has that property. *)
Class Orderable (A : Type) : Type := {
  set_order : Z -> A -> A;
  reindex_children : A -> A
}.

Fixpoint reindex_from {A : Type} `{Orderable A} (i : Z) (collection : list A) : list A :=
  match collection with
  | [] => []
  | x :: xs => reindex_children (set_order (i + 1) x) :: reindex_from (i + 1) xs
  end.

Definition reindex {A : Type} `{Orderable A} (collection : list A) : list A :=
  reindex_from 0 collection.

(* ===================================================================== *)
(** * The attribute codec (static methods of ClientSidePage) *)
(* ===================================================================== *)

Definition jsonToEscapedString (json : json) : string :=
  replace_all "}" "&#125;"
    (replace_all "{" "&#123;"
       (replace_all ":" "&#58;"
          (replace_all DQ "&quot;" (JSON_stringify json)))).

Definition escapedStringToJson (escapedString : string) : outcome json :=
  JSON_parse
    (replace_all "&#125;" "}"
       (replace_all "&#123;" "{"
          (replace_all "&#58;" ":"
             (replace_all "&quot;" DQ escapedString)))).

(* ===================================================================== *)
(** * The control model *)
(* ===================================================================== *)

(** The fields of the abstract class [CanvasControl].  The back reference
    [column] is the owner in the tree.  [id] and [controlType] are
    [undefined] after a parse of metadata that does not carry them;
    [controlData] is [null] until a parse. *)
Record CanvasControl : Type := {
  controlType : option Z;
  dataVersion : string;
  order : Z;
  id : option string;
  controlData : jsval
}.

Definition with_order (o : Z) (b : CanvasControl) : CanvasControl :=
  {| controlType := controlType b; dataVersion := dataVersion b; order := o;
     id := id b; controlData := controlData b |}.

(** The fields [ClientSideWebpart] adds.  [serverProcessedContent] is [None]
    when it is [null]. *)
Record WebpartFields : Type := {
  title : string;
  description : string;
  propertieJson : jsval;
  webPartId : string;
  htmlProperties : string;
  serverProcessedContent : jsval
}.

(** The controls a column holds. *)
Inductive Control : Type :=
| ClientSideText (base : CanvasControl) (_text : string)
| ClientSideWebpart (base : CanvasControl) (part : WebpartFields).

Definition base_of (c : Control) : CanvasControl :=
  match c with
  | ClientSideText b _ => b
  | ClientSideWebpart b _ => b
  end.

Definition with_base (b : CanvasControl) (c : Control) : Control :=
  match c with
  | ClientSideText _ t => ClientSideText b t
  | ClientSideWebpart _ p => ClientSideWebpart b p
  end.

Record CanvasColumn : Type := {
  column_base : CanvasControl;   (* [order] of the column is [order column_base] *)
  factor : Z;
  controls : list Control
}.

Record CanvasSection : Type := {
  section_order : Z;
  columns : list CanvasColumn
}.

Record ClientSidePage : Type := {
  sections : list CanvasSection;
  commentsDisabled : bool
}.

Definition column_order (c : CanvasColumn) : Z := order (column_base c).

Definition with_controls (cs : list Control) (c : CanvasColumn) : CanvasColumn :=
  {| column_base := column_base c; factor := factor c; controls := cs |}.

Definition with_columns (cs : list CanvasColumn) (s : CanvasSection) : CanvasSection :=
  {| section_order := section_order s; columns := cs |}.

(** The three kinds of element [reindex] meets. *)
#[export] Instance Orderable_Control : Orderable Control := {
  set_order o c := with_base (with_order o (base_of c)) c;
  reindex_children c := c
}.

#[export] Instance Orderable_CanvasColumn : Orderable CanvasColumn := {
  set_order o c :=
    {| column_base := with_order o (column_base c); factor := factor c;
       controls := controls c |};
  reindex_children c := with_controls (reindex (controls c)) c
}.

#[export] Instance Orderable_CanvasSection : Orderable CanvasSection := {
  set_order o s := {| section_order := o; columns := columns s |};
  reindex_children s := with_columns (reindex (columns s)) s
}.

(** ** Constructors *)

(** [new CanvasControl(controlType, dataVersion)]; [guid] is the value
    [Util.getGUID()] returns. *)
Definition new_CanvasControl (ct : Z) (dv : string) (guid : string) : CanvasControl :=
  {| controlType := Some ct; dataVersion := dv; order := 1; id := Some guid;
     controlData := None |}.

(** [new CanvasColumn(section, order, factor = 12, controls = [], dataVersion = '1.0')] *)
Definition new_CanvasColumn (guid : string) (o : Z) (f : Z) : CanvasColumn :=
  {| column_base := with_order o (new_CanvasControl 0 "1.0" guid);
     factor := f; controls := [] |}.

(** The setter of [ClientSideText.text]. *)
Definition set_text (text : string) : string :=
  if negb (startsWith text "<p>") then "<p>" ++ text ++ "</p>" else text.

(** [new ClientSideText(text = '')] *)
Definition new_ClientSideText (guid : string) (text : string) : Control :=
  ClientSideText (new_CanvasControl 4 "1.0" guid) (set_text text).

(** [new ClientSideWebpart(title)], the other parameters at their defaults. *)
Definition new_ClientSideWebpart (guid : string) (t : string) : Control :=
  ClientSideWebpart (new_CanvasControl 3 "1.0" guid)
    {| title := t; description := ""; propertieJson := Some (JObj []);
       webPartId := ""; htmlProperties := ""; serverProcessedContent := None |}.

(** ** Rendering *)

(** What a control reads through [this.column] and [this.column.section]. *)
Record Owner : Type := {
  owner_factor : Z;          (* this.column.factor *)
  owner_sectionIndex : Z;    (* this.column.order *)
  owner_zoneIndex : Z        (* this.column.section.order *)
}.

(** [CanvasColumn.getControlData] *)
Definition CanvasColumn_getControlData (zone : Z) (c : CanvasColumn) : json :=
  object_literal
    [("displayMode", num 2);
     ("position", Some (object_literal
        [("sectionFactor", num (factor c));
         ("sectionIndex", num (column_order c));
         ("zoneIndex", num zone)]))].

(** [ClientSideText.getControlData] *)
Definition ClientSideText_getControlData (o : Owner) (b : CanvasControl) : json :=
  object_literal
    [("controlType", opt_num (controlType b));
     ("editorType", str "CKEditor");
     ("id", opt_str (id b));
     ("position", Some (object_literal
        [("controlIndex", num (order b));
         ("sectionFactor", num (owner_factor o));
         ("sectionIndex", num (owner_sectionIndex o));
         ("zoneIndex", num (owner_zoneIndex o))]))].

(** [ClientSideWebpart.getControlData] *)
Definition ClientSideWebpart_getControlData (o : Owner) (b : CanvasControl)
           (p : WebpartFields) : json :=
  object_literal
    [("controlType", opt_num (controlType b));
     ("id", opt_str (id b));
     ("position", Some (object_literal
        [("controlIndex", num (order b));
         ("sectionFactor", num (owner_factor o));
         ("sectionIndex", num (owner_sectionIndex o));
         ("zoneIndex", num (owner_zoneIndex o))]));
     ("webPartId", str (webPartId p))].

(** The opening tag every canvas control starts with; [jsonData] is the
    escaped control data. *)
Definition control_open (dv jsonData : string) (close : string) : string :=
  "<div data-sp-canvascontrol=" ++ DQ ++ DQ ++
  " data-sp-canvasdataversion=" ++ DQ ++ dv ++ DQ ++
  " data-sp-controldata=" ++ DQ ++ jsonData ++ DQ ++ close.

(** A method that updates its receiver and may throw: the receiver as the
    call leaves it, and the outcome. *)
Definition effect (A R : Type) : Type := (A * outcome R)%type.

(** [ClientSideText.toHtml(index)] *)
Definition ClientSideText_toHtml (index : Z) (o : Owner) (b : CanvasControl)
           (text : string) : effect Control string :=
  let b := with_order index b in
  let jsonData := jsonToEscapedString (ClientSideText_getControlData o b) in
  (ClientSideText b text,
   Ok (join [control_open (dataVersion b) jsonData ">";
             "<div data-sp-rte=" ++ DQ ++ DQ ++ ">";
             text;
             "</div>";
             "</div>"])).

(** An entry of the server processed content, as a template literal
    ([`${prop.Name}`]) and as an element of the joined array. *)
Definition entry_text (in_template : bool) (k : string) (prop : json) : outcome string :=
  v <- member k (Some prop) ;;
  match v with
  | Some (JStr s) => Ok s
  | None => Ok (if in_template then "undefined" else "")
  | Some _ => Unmodelled
  end.

Fixpoint render_entries (f : json -> outcome string) (entries : list json)
  : outcome string :=
  match entries with
  | [] => Ok ""
  | e :: es => a <- f e ;; b <- render_entries f es ;; Ok (a ++ b)
  end.

(** One of the three arrays of the server processed content: absent, or an
    array of entries. *)
Definition render_field (k : string) (f : json -> outcome string) (content : json)
  : outcome string :=
  field <- member k (Some content) ;;
  match field with
  | None => Ok ""
  | Some (JArr entries) => render_entries f entries
  | Some _ => Unmodelled
  end.

(** [ClientSideWebpart.renderHtmlProperties] *)
Definition renderHtmlProperties (p : WebpartFields) : outcome string :=
  match serverProcessedContent p with
  | None => Ok (htmlProperties p)
  | Some JNull => Ok (htmlProperties p)
  | Some content =>
      texts <- render_field "searchablePlainTexts"
                 (fun prop =>
                    n <- entry_text true "Name" prop ;;
                    v <- entry_text false "Value" prop ;;
                    Ok ("<div data-sp-prop-name=" ++ DQ ++ n ++ DQ ++
                        " data-sp-searchableplaintext=" ++ DQ ++ "true" ++ DQ ++ ">" ++
                        v ++ "</div>"))
                 content ;;
      images <- render_field "imageSources"
                 (fun prop =>
                    n <- entry_text true "Name" prop ;;
                    v <- entry_text true "Value" prop ;;
                    Ok ("<img data-sp-prop-name=" ++ DQ ++ n ++ DQ ++
                        " src=" ++ DQ ++ v ++ DQ ++ " />"))
                 content ;;
      links <- render_field "links"
                 (fun prop =>
                    n <- entry_text true "Name" prop ;;
                    v <- entry_text true "Value" prop ;;
                    Ok ("<a data-sp-prop-name=" ++ DQ ++ n ++ DQ ++
                        " href=" ++ DQ ++ v ++ DQ ++ "></a>"))
                 content ;;
      Ok (texts ++ images ++ links)
  end.

(** [ClientSideWebpart.toHtml(index)] *)
Definition ClientSideWebpart_toHtml (index : Z) (o : Owner) (b : CanvasControl)
           (p : WebpartFields) : effect Control string :=
  let b := with_order index b in
  let data := object_literal
    [("dataVersion", str (dataVersion b));
     ("description", str (description p));
     ("id", str (webPartId p));
     ("instanceId", opt_str (id b));
     ("properties", propertieJson p);
     ("title", str (title p))] in
  let jsonData := jsonToEscapedString (ClientSideWebpart_getControlData o b p) in
  (ClientSideWebpart b p,
   props <- renderHtmlProperties p ;;
   Ok (join [control_open (dataVersion b) jsonData ">";
             "<div data-sp-webpart=" ++ DQ ++ DQ ++
             " data-sp-canvasdataversion=" ++ DQ ++ dataVersion b ++ DQ ++
             " data-sp-webpartdata=" ++ DQ ++ jsonToEscapedString data ++ DQ ++ ">";
             "<div data-sp-componentid>";
             webPartId p;
             "</div>";
             "<div data-sp-htmlproperties=" ++ DQ ++ DQ ++ ">";
             props;
             "</div>";
             "</div>";
             "</div>"])).

(** [control.toHtml(index)], dispatched on the class of the control. *)
Definition Control_toHtml (o : Owner) (index : Z) (c : Control) : effect Control string :=
  match c with
  | ClientSideText b t => ClientSideText_toHtml index o b t
  | ClientSideWebpart b p => ClientSideWebpart_toHtml index o b p
  end.

(** The loops [for (i = 0; i < xs.length; i++) html.push(xs[i].toHtml(i + 1))]
    followed by [html.join('')]: the elements are rendered in order, from
    index [i]; an element that throws ends the loop and leaves the later ones
    as they were. *)
Fixpoint render_each {A : Type} (f : Z -> A -> effect A string) (i : Z) (xs : list A)
  : effect (list A) string :=
  match xs with
  | [] => ([], Ok "")
  | x :: xs' =>
      let (x', r) := f (i + 1) x in
      match r with
      | Ok h =>
          let (xs'', r') := render_each f (i + 1) xs' in
          (x' :: xs'', hs <- r' ;; Ok (h ++ hs))
      | failed => (x' :: xs', failed)
      end
  end.

(** [CanvasColumn.toHtml()], in the section of order [zone]. *)
Definition CanvasColumn_toHtml (zone : Z) (c : CanvasColumn) : effect CanvasColumn string :=
  match controls c with
  | [] =>
      (c, Ok (control_open (dataVersion (column_base c))
                (jsonToEscapedString (CanvasColumn_getControlData zone c))
                "></div>"))
  | cs =>
      let o := {| owner_factor := factor c; owner_sectionIndex := column_order c;
                  owner_zoneIndex := zone |} in
      let (cs', r) := render_each (Control_toHtml o) 0 cs in
      (with_controls cs' c, r)
  end.

(** [CanvasSection.toHtml()] *)
Definition CanvasSection_toHtml (s : CanvasSection) : effect CanvasSection string :=
  let (cs, r) := render_each (fun _ => CanvasColumn_toHtml (section_order s)) 0 (columns s) in
  (with_columns cs s, r).

(** [ClientSidePage.toHtml()] *)
Definition toHtml (page : ClientSidePage) : effect ClientSidePage string :=
  let reindexed := reindex (sections page) in
  let (ss, r) := render_each (fun _ => CanvasSection_toHtml) 0 reindexed in
  ({| sections := ss; commentsDisabled := commentsDisabled page |},
   h <- r ;; Ok ("<div>" ++ h ++ "</div>")).

(** ** Parsing a control from its markup *)

(** [CanvasControl.fromHtml] *)
Definition CanvasControl_fromHtml (html : string) (b : CanvasControl)
  : outcome CanvasControl :=
  attr <- getAttrValueFromString html "data-sp-controldata" ;;
  data <- escapedStringToJson attr ;;
  dv <- getAttrValueFromString html "data-sp-canvasdataversion" ;;
  ct <- member "controlType" (Some data) ;;
  ct <- as_opt_number ct ;;
  i <- member "id" (Some data) ;;
  i <- as_opt_string i ;;
  Ok {| controlType := ct; dataVersion := dv; order := order b; id := i;
        controlData := Some data |}.

(** [this.controlData.position.k] *)
Definition position_field (k : string) (b : CanvasControl) : outcome jsval :=
  p <- member "position" (controlData b) ;;
  member k p.

(** [CanvasColumn.fromHtml] *)
Definition CanvasColumn_fromHtml (html : string) (c : CanvasColumn)
  : outcome CanvasColumn :=
  b <- CanvasControl_fromHtml html (column_base c) ;;
  attr <- getAttrValueFromString html "data-sp-controldata" ;;
  data <- escapedStringToJson attr ;;
  let b := {| controlType := controlType b; dataVersion := dataVersion b;
              order := order b; id := id b; controlData := Some data |} in
  f <- position_field "sectionFactor" b ;;
  f <- as_number f ;;
  o <- position_field "sectionIndex" b ;;
  o <- as_number o ;;
  Ok {| column_base := with_order o b; factor := f; controls := controls c |}.

(** [ClientSideText.fromHtml]: [exec] returns [null] when there is no
    content holder and [match.length] is then read from [null]. *)
Definition ClientSideText_fromHtml (html : string) (b : CanvasControl)
  : outcome Control :=
  b <- CanvasControl_fromHtml html b ;;
  match exec re_rte html with
  | None => Throw TypeError
  | Some (_, (_, inner)) => Ok (ClientSideText b (set_text inner))
  end.

(** The collector of [ClientSideWebpart.fromHtml]: the block without its
    opening tag and its final closing tag. *)
Definition htmlproperties_body (markup : string) : string :=
  remove_first re_div_close_tail (remove_first re_htmlproperties_head markup).

(** [ClientSideWebpart.fromHtml] *)
Definition ClientSideWebpart_fromHtml (fuel : nat) (html : string)
           (b : CanvasControl) (p : WebpartFields) : outcome Control :=
  b <- CanvasControl_fromHtml html b ;;
  attr <- getAttrValueFromString html "data-sp-webpartdata" ;;
  webPartData <- escapedStringToJson attr ;;
  t <- member "title" (Some webPartData) ;;
  t <- as_string t ;;
  d <- member "description" (Some webPartData) ;;
  d <- as_string d ;;
  wid <- member "id" (Some webPartData) ;;
  wid <- as_string wid ;;
  props <- member "properties" (Some webPartData) ;;
  spc <- member "serverProcessedContent" (Some webPartData) ;;
  let spc := match spc with Some _ => spc | None => serverProcessedContent p end in
  '(htmlProps, _) <- getBoundedDivMarkup re_htmlproperties
                       (fun markup (st : unit) => Ok (htmlproperties_body markup, st))
                       fuel (Some html) tt ;;
  Ok (ClientSideWebpart b
        {| title := t; description := d; propertieJson := props; webPartId := wid;
           htmlProperties := hd "" htmlProps; serverProcessedContent := spc |}).

(* ===================================================================== *)
(** * The tree reconciler and the page document *)
(* ===================================================================== *)

(** [xs.filter(p)[0]] is updated in place: the first element that satisfies
    [p] is replaced by its image under [f]. *)
Fixpoint update_first {A : Type} (p : A -> bool) (f : A -> A) (xs : list A) : list A :=
  match xs with
  | [] => []
  | x :: xs' => if p x then f x :: xs' else x :: update_first p f xs'
  end.

(** [CanvasColumn.addControl] *)
Definition CanvasColumn_addControl (control : Control) (c : CanvasColumn) : CanvasColumn :=
  with_controls (controls c ++ [control]) c.

(** The identifier a constructor draws from [Util.getGUID()] when the parse
    creates a node; no operation of the parse or of the rendering reads it. *)
Definition fresh_guid : string := "".

(** [mergeControlToTree] *)
Definition mergeControlToTree (control : Control) (sections : list CanvasSection)
  : outcome (list CanvasSection) :=
  zoneIndex <- position_field "zoneIndex" (base_of control) ;;
  zoneIndex <- as_number zoneIndex ;;
  sectionIndex <- position_field "sectionIndex" (base_of control) ;;
  sectionIndex <- as_number sectionIndex ;;
  let into_section (section : CanvasSection) : CanvasSection :=
    let is_column (c : CanvasColumn) := column_order c =? sectionIndex in
    if existsb is_column (columns section)
    then with_columns
           (update_first is_column (CanvasColumn_addControl control) (columns section))
           section
    else with_columns
           (columns section ++
            [CanvasColumn_addControl control (new_CanvasColumn fresh_guid sectionIndex 12)])
           section in
  let is_section (s : CanvasSection) := section_order s =? zoneIndex in
  if existsb is_section sections
  then Ok (update_first is_section into_section sections)
  else Ok (sections ++ [into_section {| section_order := zoneIndex; columns := [] |}])%list.

(** [mergeColumnToTree] *)
Definition mergeColumnToTree (column : CanvasColumn) (sections : list CanvasSection)
  : outcome (list CanvasSection) :=
  zoneIndex <- position_field "zoneIndex" (column_base column) ;;
  zoneIndex <- as_number zoneIndex ;;
  let into_section (section : CanvasSection) : CanvasSection :=
    with_columns (columns section ++ [column]) section in
  let is_section (s : CanvasSection) := section_order s =? zoneIndex in
  if existsb is_section sections
  then Ok (update_first is_section into_section sections)
  else Ok (sections ++ [into_section {| section_order := zoneIndex; columns := [] |}])%list.

(** [parseInt(digits, 10)] on the text of [(\d*?)]: [None] is NaN.  The
    exact value stands for the number value nearest to it, which the caller
    only compares with 0, 3 and 4. *)
Definition parseInt (digits : string) : option Z :=
  match digits with
  | EmptyString => None
  | String _ _ => Some (Z.of_N (N_of_digits digits))
  end.

(** The discriminant [fromHtml] reads from a fragment: 0 when the fragment
    names no control type. *)
Definition fragment_controlType (markup : string) : option Z :=
  match exec re_controlType markup with
  | None => Some 0
  | Some (_, (_, digits)) => parseInt digits
  end.

(** The state the collector of [fromHtml] works on: the running counter and
    the sections of the page. *)
Definition parse_state : Type := (Z * list CanvasSection)%type.

(** The collector of [ClientSidePage.fromHtml]; it returns [undefined]. *)
Definition collect_control (fuel : nat) (markup : string) (st : parse_state)
  : outcome (unit * parse_state) :=
  let '(counter, sections) := st in
  match fragment_controlType markup with
  | Some 0 =>
      control <- CanvasColumn_fromHtml markup (new_CanvasColumn fresh_guid 0 12) ;;
      sections <- mergeColumnToTree control sections ;;
      Ok (tt, (counter, sections))
  | Some 3 =>
      let counter := counter + 1 in
      let fresh := new_ClientSideWebpart fresh_guid "" in
      control <- match fresh with
                 | ClientSideWebpart b p =>
                     ClientSideWebpart_fromHtml fuel markup (with_order counter b) p
                 | ClientSideText b _ => Unmodelled
                 end ;;
      sections <- mergeControlToTree control sections ;;
      Ok (tt, (counter, sections))
  | Some 4 =>
      let counter := counter + 1 in
      control <- ClientSideText_fromHtml markup
                   (with_order counter (new_CanvasControl 4 "1.0" fresh_guid)) ;;
      sections <- mergeControlToTree control sections ;;
      Ok (tt, (counter, sections))
  | _ => Ok (tt, st)
  end.

(** [ClientSidePage.fromHtml(html)].  When the parse throws, the sections
    merged so far stay in the page; the model does not describe that
    state. *)
Definition fromHtml (fuel : nat) (html : option string) (page : ClientSidePage)
  : outcome ClientSidePage :=
  '(_, (_, sections)) <- getBoundedDivMarkup re_canvascontrol (collect_control fuel)
                           fuel html (0, []) ;;
  Ok {| sections := sections; commentsDisabled := commentsDisabled page |}.

(** ** Building a tree *)

(** [ClientSidePage.addSection] *)
Definition addSection (page : ClientSidePage) : ClientSidePage :=
  {| sections := sections page ++
       [{| section_order := getNextOrder (map section_order (sections page));
           columns := [] |}];
     commentsDisabled := commentsDisabled page |}.

(** [CanvasSection.addColumn(factor)] *)
Definition CanvasSection_addColumn (guid : string) (f : Z) (s : CanvasSection)
  : CanvasSection :=
  with_columns
    (columns s ++ [new_CanvasColumn guid (getNextOrder (map column_order (columns s))) f])
    s.

(** [CanvasSection.addControl(control)], through [defaultColumn]. *)
Definition CanvasSection_addControl (guid : string) (control : Control) (s : CanvasSection)
  : CanvasSection :=
  let s := match columns s with
           | [] => CanvasSection_addColumn guid 12 s
           | _ :: _ => s
           end in
  match columns s with
  | [] => s
  | c :: cs => with_columns (CanvasColumn_addControl control c :: cs) s
  end.

(* ===================================================================== *)
(** * Notions used to state the properties *)
(* ===================================================================== *)

Fixpoint endsWith (s p : string) : bool :=
  (s =? p)%string ||
  match s with
  | EmptyString => false
  | String _ s' => endsWith s' p
  end.

(** A text of the form [<p>...</p>]. *)
Definition paragraph_wrapped (s : string) : bool :=
  startsWith s "<p>" && endsWith (skipn_str 3 s) "</p>".

(** The text a text control holds. *)
Definition text_of (c : Control) : option string :=
  match c with
  | ClientSideText _ t => Some t
  | ClientSideWebpart _ _ => None
  end.

(** [p] is a prefix of [s] up to the case of ASCII letters. *)
Fixpoint starts_ic (s p : string) {struct p} : bool :=
  match p, s with
  | EmptyString, _ => true
  | String _ _, EmptyString => false
  | String a p', String b s' => char_eq true a b && starts_ic s' p'
  end.

(** [p] occurs in [s] up to the case of ASCII letters. *)
Fixpoint includes_ic (s p : string) : bool :=
  starts_ic s p ||
  match s with
  | EmptyString => false
  | String _ s' => includes_ic s' p
  end.

(** The markup carries the attribute with a quoted value: somewhere the
    name, in any letter case, is followed by [=], a double quote and, later,
    another double quote. *)
Fixpoint has_attr (html attrName : string) : bool :=
  (starts_ic html (attrName ++ "=" ++ DQ) &&
   includes (skipn_str (String.length attrName + 2) html) DQ) ||
  match html with
  | EmptyString => false
  | String _ html' => has_attr html' attrName
  end.

(** The [order] values of a list are 1, 2, 3, ... *)
Fixpoint numbered_from {A : Type} (get : A -> Z) (i : Z) (xs : list A) : Prop :=
  match xs with
  | [] => True
  | x :: xs' => get x = i + 1 /\ numbered_from get (i + 1) xs'
  end.

Definition column_reindexed (c : CanvasColumn) : Prop :=
  numbered_from (fun k => order (base_of k)) 0 (controls c).

Definition section_reindexed (s : CanvasSection) : Prop :=
  numbered_from column_order 0 (columns s) /\ Forall column_reindexed (columns s).

(** Every [order] of the tree is the 1-based position of its element. *)
Definition page_reindexed (page : ClientSidePage) : Prop :=
  numbered_from section_order 0 (sections page) /\
  Forall section_reindexed (sections page).

(** The state of the inner loop of the scanner after [n] turns that neither
    closed the block nor threw. *)
Fixpoint after_turns (n : nat) (cleanedHtml : string) (openCounter searchIndex : Z)
  : option (Z * Z) :=
  match n with
  | O => Some (openCounter, searchIndex)
  | S n' =>
      match close_step cleanedHtml openCounter searchIndex with
      | Continue c s => after_turns n' cleanedHtml c s
      | _ => None
      end
  end.

(** The counter a turn of the inner loop leaves is out of bounds. *)
Definition out_of_bounds (cleanedHtml : string) (state : Z * Z) : Prop :=
  let '(counter, _, _) := next_tag cleanedHtml (fst state) (snd state) in
  1000 < counter \/ counter < 0.

(** The discriminants [fromHtml] has a case for. *)
Definition known_controlType (markup : string) : bool :=
  match fragment_controlType markup with
  | Some 0 | Some 3 | Some 4 => true
  | _ => false
  end.

(** The scanner of [fromHtml] with a collector that returns the fragment. *)
Definition fragments (fuel : nat) (html : option string) : outcome (list string) :=
  '(blocks, _) <- getBoundedDivMarkup re_canvascontrol
                    (fun markup (st : unit) => Ok (markup, st)) fuel html tt ;;
  Ok blocks.

(** The collector of [fromHtml] applied to a list of fragments in turn. *)
Fixpoint collect_all (fuel : nat) (markups : list string) (st : parse_state)
  : outcome parse_state :=
  match markups with
  | [] => Ok st
  | m :: ms => '(_, st') <- collect_control fuel m st ;; collect_all fuel ms st'
  end.

(** The controls of a section, column after column. *)
Definition section_controls (s : CanvasSection) : list Control :=
  flat_map controls (columns s).






(** The placeholder element of an empty column. *)
Definition column_placeholder (dv : string) (f sectionIndex zoneIndex : Z) : string :=
  control_open dv
    (jsonToEscapedString
       (JObj [("displayMode", JNum 2);
              ("position", JObj [("sectionFactor", JNum f);
                                 ("sectionIndex", JNum sectionIndex);
                                 ("zoneIndex", JNum zoneIndex)])]))
    "></div>".

(** Every code unit replaced by a string. *)
Fixpoint subst_chars (f : ascii -> string) (s : string) : string :=
  match s with
  | EmptyString => EmptyString
  | String c s' => f c ++ subst_chars f s'
  end.

(** The escapes of the codec that are still in place after the first [k]
    replacements of [escapedStringToJson]. *)
Definition escape_from (k : nat) (c : ascii) : string :=
  if (k <=? 0)%nat && (c =? dquote)%char then "&quot;"
  else if (k <=? 1)%nat && (c =? ":")%char then "&#58;"
  else if (k <=? 2)%nat && (c =? "{")%char then "&#123;"
  else if (k <=? 3)%nat && (c =? "}")%char then "&#125;"
  else String c EmptyString.

(** The text contains none of the four escapes of the codec. *)
Definition escape_free (s : string) : bool :=
  negb (includes s "&quot;") && negb (includes s "&#58;") &&
  negb (includes s "&#123;") && negb (includes s "&#125;").

(** Both halves of the codec on the JSON text. *)
Definition escape_text (s : string) : string :=
  replace_all "}" "&#125;"
    (replace_all "{" "&#123;" (replace_all ":" "&#58;" (replace_all DQ "&quot;" s))).

Definition unescape_text (s : string) : string :=
  replace_all "&#125;" "}"
    (replace_all "&#123;" "{" (replace_all "&#58;" ":" (replace_all "&quot;" DQ s))).

(** The values the model takes for the values of the language that
    [JSON.stringify] serializes: the numbers are integers of magnitude at
    most 2^53, and the keys of an object are distinct and in enumeration
    order (array indices first, ascending). *)
Fixpoint keys_wf (ks : list string) : bool :=
  match ks with
  | [] => true
  | k :: ks' =>
      forallb (fun k' => negb (k =? k')%string && negb (key_before k' k)) ks' &&
      keys_wf ks'
  end.

Fixpoint json_wf (v : json) : bool :=
  match v with
  | JNum n => (Z.abs n <=? Z.of_N max_safe)
  | JArr items => forallb json_wf items
  | JObj members =>
      keys_wf (map fst members) && forallb (fun m => json_wf (snd m)) members
  | _ => true
  end.

(** All code units of the alphabet. *)
Definition all_ascii : list ascii := map ascii_of_nat (seq 0 256).

(** Only [x] itself is replaced by a string that starts with [x], and it is
    replaced by itself. *)
Definition inert (f : ascii -> string) (x d : ascii) : bool :=
  match f d with
  | EmptyString => false
  | String y r => negb (y =? x)%char || ((d =? x)%char && (r =? "")%string)
  end.

(** The code units a JSON text starts with. *)
Definition value_start (c : ascii) : bool :=
  (c =? "n")%char || (c =? "t")%char || (c =? "f")%char || (c =? "-")%char ||
  is_digit c || (c =? dquote)%char || (c =? "[")%char || (c =? "{")%char.

(** What follows a value inside a JSON text: nothing, or a comma or a
    closing bracket. *)
Definition follow_ok (rest : string) : bool :=
  match rest with
  | EmptyString => true
  | String c _ => (c =? ",")%char || (c =? "]")%char || (c =? "}")%char
  end.

(** The serialized members of an object. *)
Definition member_text (m : string * json) : string :=
  quote (fst m) ++ ":" ++ JSON_stringify (snd m).

(** What the parser is to deliver on the text of a value, whatever follows
    the value and however much fuel is left beyond the length of the text. *)
Definition parses_back (v : json) : Prop :=
  json_wf v = true ->
  forall fuel rest,
    (String.length (JSON_stringify v) <= fuel)%nat ->
    follow_ok rest = true ->
    parse_value fuel (JSON_stringify v ++ rest) = Ok (v, rest).

(* ===================================================================== *)
(** * Sample inputs *)
(* ===================================================================== *)

(** A text control as a parse discovers it, with its decoded position. *)
Definition discovered (guid : string) (zone index : Z) : Control :=
  ClientSideText
    {| controlType := Some 4; dataVersion := "1.0"; order := 0; id := Some guid;
       controlData := Some (JObj [("position",
                       JObj [("sectionIndex", JNum index); ("zoneIndex", JNum zone)])]) |}
    "<p>text</p>".


(** A column marker, and the same fragment without its control data. *)
Definition marker_fragment : string :=
  "<div data-sp-canvascontrol=" ++ DQ ++ DQ ++
  " data-sp-canvasdataversion=" ++ DQ ++ "1.0" ++ DQ ++
  " data-sp-controldata=" ++ DQ ++
  "&#123;&quot;displayMode&quot;&#58;2,&quot;position&quot;&#58;&#123;&quot;sectionFactor&quot;&#58;12,&quot;sectionIndex&quot;&#58;1,&quot;zoneIndex&quot;&#58;1&#125;&#125;" ++
  DQ ++ "></div>".

Definition bare_fragment : string :=
  "<div data-sp-canvascontrol=" ++ DQ ++ DQ ++
  " data-sp-canvasdataversion=" ++ DQ ++ "1.0" ++ DQ ++ "></div>".

(** The outer element of a rendered text control, without the content
    holder. *)
Definition text_fragment_without_holder : string :=
  control_open "1.0"
    (jsonToEscapedString
       (ClientSideText_getControlData
          {| owner_factor := 12; owner_sectionIndex := 1; owner_zoneIndex := 1 |}
          (new_CanvasControl 4 "1.0" "c1")))
    ">" ++ "</div>".

(** A fragment whose control type is 5, and a page markup that holds a
    column marker followed by that fragment. *)
Definition unknown_fragment : string :=
  "<div data-sp-canvascontrol=" ++ DQ ++ DQ ++
  " data-sp-canvasdataversion=" ++ DQ ++ "1.0" ++ DQ ++
  " data-sp-controldata=" ++ DQ ++
  "&#123;&quot;controlType&quot;&#58;5,&quot;position&quot;&#58;&#123;&quot;sectionFactor&quot;&#58;12,&quot;sectionIndex&quot;&#58;1,&quot;zoneIndex&quot;&#58;1&#125;&#125;" ++
  DQ ++ "></div>".

Definition markup_with_unknown : string :=
  "<div>" ++ marker_fragment ++ unknown_fragment ++ "</div>".

(** The control type of the decoded control data of a fragment: the value
    [CanvasControl.fromHtml] stores in [controlType]. *)
Definition decoded_controlType (markup : string) : outcome (option Z) :=
  b <- CanvasControl_fromHtml markup (new_CanvasControl 0 "1.0" "") ;;
  Ok (controlType b).

(** A fragment whose control data hold the control type 5 as their last
    key, so that no comma follows the digit. *)
Definition last_key_fragment : string :=
  "<div data-sp-canvascontrol=" ++ DQ ++ DQ ++
  " data-sp-canvasdataversion=" ++ DQ ++ "1.0" ++ DQ ++
  " data-sp-controldata=" ++ DQ ++
  "&#123;&quot;position&quot;&#58;&#123;&quot;sectionFactor&quot;&#58;12,&quot;sectionIndex&quot;&#58;1,&quot;zoneIndex&quot;&#58;1&#125;,&quot;controlType&quot;&#58;5&#125;" ++
  DQ ++ "></div>".

Definition blank_page : ClientSidePage :=
  {| sections := []; commentsDisabled := false |}.

(** [n] copies of a string, one after the other. *)
Fixpoint repeat_str (n : nat) (s : string) : string :=
  match n with
  | O => EmptyString
  | S n' => s ++ repeat_str n' s
  end.

(** A canvas control that opens 1001 further divs and closes none. *)
Definition runaway_markup : string :=
  "<div data-sp-canvascontrol>" ++ repeat_str 1001 "<div>" ++ "</div>".

(** A canvas control that is never closed, after one other character. *)
Definition unclosed_markup : string := "x<div data-sp-canvascontrol>".

(** The collector that returns the fragment. *)
Definition keep_fragment (markup : string) (st : unit) : outcome (string * unit) :=
  Ok (markup, st).

(** A nested object whose string values hold quotes, colons and braces. *)
Definition nested_value : json :=
  JObj [("title", JStr ("say " ++ DQ ++ "a:b" ++ DQ));
        ("inner", JObj [("braces", JStr "{x: {y}}"); ("n", JArr [JNum 1; JNum (-2); JNull])]);
        ("ok", JBool true)].

(** A page of two sections, the first without columns, the second with one
    empty column; and a page whose only column has factor 6 and holds one
    text control. *)
Definition page_with_empty_section : ClientSidePage :=
  let page := addSection (addSection blank_page) in
  {| sections :=
       match sections page with
       | [s1; s2] => [s1; CanvasSection_addColumn "column" 12 s2]
       | ss => ss
       end;
     commentsDisabled := false |}.

Definition page_with_half_column : ClientSidePage :=
  let page := addSection blank_page in
  {| sections :=
       map (fun s => CanvasSection_addColumn "column" 6 s) (sections page);
     commentsDisabled := false |}.

Definition page_with_text_in_half_column : ClientSidePage :=
  {| sections :=
       map (fun s =>
              with_columns
                (map (CanvasColumn_addControl (new_ClientSideText "c1" "Hello"))
                     (columns s)) s)
           (sections page_with_half_column);
     commentsDisabled := false |}.

(** Rendering, parsing the markup and rendering the parsed page. *)
Definition render_parse_render (fuel : nat) (page : ClientSidePage) : outcome string :=
  html <- snd (toHtml page) ;;
  parsed <- fromHtml fuel (Some html) page ;;
  snd (toHtml parsed).

(* ===================================================================== *)
(** * The markup of a page as a sequence of fragments *)
(* ===================================================================== *)

(** What the markup of a page consists of: the placeholder of an empty
    column, or a text control, each with the position it is rendered at. *)
Inductive fragment : Type :=
| Marker (dv : string) (f sectionIndex zoneIndex : Z)
| TextFragment (b : CanvasControl) (text : string)
               (controlIndex f sectionIndex zoneIndex : Z).

Definition markup_of (r : outcome string) : string :=
  match r with Ok h => h | _ => EmptyString end.

Definition fragment_html (x : fragment) : string :=
  match x with
  | Marker dv f si zi => column_placeholder dv f si zi
  | TextFragment b text k f si zi =>
      markup_of (snd (ClientSideText_toHtml k
                        {| owner_factor := f; owner_sectionIndex := si;
                           owner_zoneIndex := zi |} b text))
  end.

(** The text controls of a column, numbered from [i]. *)
Fixpoint control_fragments (i f si zi : Z) (cs : list Control) : list fragment :=
  match cs with
  | [] => []
  | ClientSideText b text :: cs' =>
      TextFragment b text (i + 1) f si zi :: control_fragments (i + 1) f si zi cs'
  | ClientSideWebpart _ _ :: cs' => control_fragments (i + 1) f si zi cs'
  end.

Definition column_fragments (zi : Z) (c : CanvasColumn) : list fragment :=
  match controls c with
  | [] => [Marker (dataVersion (column_base c)) (factor c) (column_order c) zi]
  | cs => control_fragments 0 (factor c) (column_order c) zi cs
  end.

Definition section_fragments (s : CanvasSection) : list fragment :=
  flat_map (column_fragments (section_order s)) (columns s).

Definition page_fragments (ss : list CanvasSection) : list fragment :=
  flat_map section_fragments ss.

Definition is_text (c : Control) : bool :=
  match c with ClientSideText _ _ => true | ClientSideWebpart _ _ => false end.

(** A tree whose controls are text controls. *)
Definition only_text (ss : list CanvasSection) : bool :=
  forallb (fun s => forallb (fun c => forallb is_text (controls c)) (columns s)) ss.

(** The fragments one after the other. *)
Definition fragments_html (xs : list fragment) : string :=
  join (map fragment_html xs).

(** Every code unit of the string satisfies [P]. *)
Fixpoint all_chars (P : ascii -> bool) (s : string) : bool :=
  match s with
  | EmptyString => true
  | String c s' => P c && all_chars P s'
  end.

(** The literal [l] starts, up to case, at no position of [u] in the text
    [u ++ v]. *)
Fixpoint no_start (l u v : string) : Prop :=
  match u with
  | EmptyString => True
  | String c u' => starts_ic (String c u' ++ v) l = false /\ no_start l u' v
  end.

(** A regular expression that begins with the literal [l]. *)
Definition lit_first (l : string) (re : regex) : Prop :=
  exists ns, re_nodes re = Lit l :: ns /\ re_ignoreCase re = true /\
             re_atStart re = false /\ l <> EmptyString.

(** The code units of an identifier [Util.getGUID()] returns: hexadecimal
    digits and dashes. *)
Definition is_guid_char (c : ascii) : bool :=
  is_digit c || in_range 97 102 c || in_range 65 70 c || (c =? "-")%char.

(** The code units that leave a tag, the scan and the escaping alone. *)
Definition is_quiet_char (c : ascii) : bool :=
  negb ((c =? "<")%char || (c =? ">")%char || (c =? "&")%char || (c =? dquote)%char
        || (c =? ":")%char || (c =? "{")%char || (c =? "}")%char
        || (c =? backslash)%char || (code c <? 32)%N).

(** Inside a tag: anything but angle brackets and the white space the
    scanner removes. *)
Definition is_tag_char (c : ascii) : bool :=
  negb ((c =? "<")%char || (c =? ">")%char || (code c =? 9)%N || (code c =? 13)%N
        || (code c =? 10)%N).

(** Inside a quoted attribute value. *)
Definition is_value_char (c : ascii) : bool :=
  is_tag_char c && negb (c =? dquote)%char.

(** The metadata of a column marker and of a text control. *)
Definition marker_data (f si zi : Z) : json :=
  JObj [("displayMode", JNum 2);
        ("position", JObj [("sectionFactor", JNum f);
                           ("sectionIndex", JNum si);
                           ("zoneIndex", JNum zi)])].

Definition text_data (guid : string) (k f si zi : Z) : json :=
  JObj [("controlType", JNum 4);
        ("editorType", JStr "CKEditor");
        ("id", JStr guid);
        ("position", JObj [("controlIndex", JNum k);
                           ("sectionFactor", JNum f);
                           ("sectionIndex", JNum si);
                           ("zoneIndex", JNum zi)])].

(** The opening tag of a canvas control up to the encoded metadata. *)
Definition tag_head : string :=
  "<div data-sp-canvascontrol=" ++ DQ ++ DQ ++
  " data-sp-canvasdataversion=" ++ DQ ++ "1.0" ++ DQ ++
  " data-sp-controldata=" ++ DQ.

Definition rte_open : string := "<div data-sp-rte=" ++ DQ ++ DQ ++ ">".

(** A position the rendering writes: a number that is an exact number
    value. *)
Definition is_position (n : Z) : bool := (0 <=? n) && (n <=? Z.of_N max_safe).

(** The comparison of [s] with the literal [l], up to case, meets two code
    units that differ before either of them ends. *)
Fixpoint mismatch (s l : string) {struct l} : bool :=
  match l, s with
  | String a l', String b s' => if char_eq true a b then mismatch s' l' else true
  | _, _ => false
  end.

(** The literal [l] starts nowhere in [u], whatever follows [u]. *)
Fixpoint clear_of (l u : string) : bool :=
  match u with
  | EmptyString => true
  | String _ u' => mismatch u l && clear_of l u'
  end.

(** The opening tag of a canvas control without its first code unit, the
    tag, and the two kinds of block the rendering writes. *)
Definition tag_rest (enc : string) : string :=
  skipn_str 1 tag_head ++ enc ++ DQ ++ ">".

Definition open_tag (enc : string) : string := "<" ++ tag_rest enc.

Definition marker_block (enc : string) : string := open_tag enc ++ "</div>".

Definition text_block (enc text : string) : string :=
  open_tag enc ++ rte_open ++ text ++ "</div>" ++ "</div>".

(** The text of a text control the scan and the content holder leave alone:
    it holds no tab, carriage return or line feed, and no opening or closing
    div tag in any letter case. *)
Definition is_line_char (c : ascii) : bool :=
  negb ((code c =? 9)%N || (code c =? 13)%N || (code c =? 10)%N).

Definition plain_text (text : string) : bool :=
  all_chars is_line_char text
  && negb (includes_ic text "<div") && negb (includes_ic text "</div>").

Definition rte_rest : string := skipn_str 1 rte_open.

(** A block the rendering writes: the placeholder of a column or a text
    control, around encoded metadata and a text that leave the scan alone. *)
Definition is_block (s : string) : Prop :=
  exists enc,
    all_chars is_value_char enc = true /\
    (s = marker_block enc \/
     exists text, plain_text text = true /\ s = text_block enc text).

(** What follows a block: the next block, or the closing tag of the page. *)
Definition block_follows (rest : string) : Prop :=
  exists enc more, all_chars is_value_char enc = true /\ rest = open_tag enc ++ more.

(** The code unit before the text that follows the literal [l]. *)
Fixpoint last_unit (l : string) (prev : option ascii) : option ascii :=
  match l with
  | EmptyString => prev
  | String c l' => last_unit l' (Some c)
  end.

(* ===================================================================== *)
(** * Further methods of the module *)
(* ===================================================================== *)

(** ** Looking controls up *)

(** The three nested loops of [ClientSidePage.findControl]: the controls of
    a column, the columns of a section, the sections of the page.  [None]
    is the [null] the method returns when no control satisfies the
    predicate. *)
Fixpoint find_in_controls (predicate : Control -> bool) (cs : list Control)
  : option Control :=
  match cs with
  | [] => None
  | c :: cs' => if predicate c then Some c else find_in_controls predicate cs'
  end.

Fixpoint find_in_columns (predicate : Control -> bool) (cols : list CanvasColumn)
  : option Control :=
  match cols with
  | [] => None
  | col :: cols' =>
      match find_in_controls predicate (controls col) with
      | Some c => Some c
      | None => find_in_columns predicate cols'
      end
  end.

Fixpoint find_in_sections (predicate : Control -> bool) (ss : list CanvasSection)
  : option Control :=
  match ss with
  | [] => None
  | s :: ss' =>
      match find_in_columns predicate (columns s) with
      | Some c => Some c
      | None => find_in_sections predicate ss'
      end
  end.

(** [ClientSidePage.findControl(predicate)] *)
Definition findControl (predicate : Control -> bool) (page : ClientSidePage)
  : option Control :=
  find_in_sections predicate (sections page).

(** [c.id === id], where [c.id] may be [undefined]. *)
Definition has_id (i : string) (c : Control) : bool :=
  match id (base_of c) with
  | Some i' => (i' =? i)%string
  | None => false
  end.

(** [ClientSidePage.findControlById(id)] *)
Definition findControlById (i : string) (page : ClientSidePage) : option Control :=
  findControl (has_id i) page.

(** [CanvasColumn.getControl(index)], for an integer index: [None] is the
    [undefined] that reading past the ends of the array gives. *)
Definition CanvasColumn_getControl (index : Z) (c : CanvasColumn) : option Control :=
  if index <? 0 then None else nth_error (controls c) (Z.to_nat index).

(** ** Importing a component definition *)

(** The fields of [ClientSidePageComponent] that [import] reads. *)
Record ClientSidePageComponent : Type := {
  Id : string;
  Manifest : string
}.

(** [s.replace(/^\{|\}$/g, "")]: an opening brace at the start and a
    closing brace at the end are removed. *)
Fixpoint drop_final_brace (s : string) : string :=
  match s with
  | EmptyString => EmptyString
  | String c EmptyString => if (c =? "}")%char then EmptyString else s
  | String c s' => String c (drop_final_brace s')
  end.

Definition strip_braces (s : string) : string :=
  match s with
  | String c s' => if (c =? "{")%char then drop_final_brace s' else drop_final_brace s
  | EmptyString => EmptyString
  end.

(** [v[0]]: the first element of an array, the property [0] of an object,
    the first code unit of a string; reading from [null] or [undefined]
    throws. *)
Definition element0 (v : jsval) : outcome jsval :=
  match v with
  | None => Throw TypeError
  | Some JNull => Throw TypeError
  | Some (JArr items) => Ok (hd_error items)
  | Some (JObj ms) => Ok (lookup "0" ms)
  | Some (JStr (String c _)) => Ok (Some (JStr (String c EmptyString)))
  | Some _ => Ok None
  end.

(** [ClientSideWebpart.parseJsonProperties(props)]: the value it stores in
    [serverProcessedContent] ([None] for [null]) and the value it
    returns. *)
Definition parseJsonProperties (props : jsval) : outcome (jsval * jsval) :=
  webPartData <- member "webPartData" props ;;
  nested <- match webPartData with
            | Some _ => member "serverProcessedContent" webPartData
            | None => Ok None
            end ;;
  own <- member "serverProcessedContent" props ;;
  let content := match nested, own with
                 | Some _, _ => nested
                 | None, Some _ => own
                 | None, None => None
                 end in
  nestedProps <- match webPartData with
                 | Some _ => member "properties" webPartData
                 | None => Ok None
                 end ;;
  ownProps <- member "properties" props ;;
  Ok (content,
      match nestedProps, ownProps with
      | Some _, _ => nestedProps
      | None, Some _ => ownProps
      | None, None => props
      end).

Definition with_webPartId (i : string) (p : WebpartFields) : WebpartFields :=
  {| title := title p; description := description p; propertieJson := propertieJson p;
     webPartId := i; htmlProperties := htmlProperties p;
     serverProcessedContent := serverProcessedContent p |}.

Definition with_title (t : string) (p : WebpartFields) : WebpartFields :=
  {| title := t; description := description p; propertieJson := propertieJson p;
     webPartId := webPartId p; htmlProperties := htmlProperties p;
     serverProcessedContent := serverProcessedContent p |}.

Definition with_description (d : string) (p : WebpartFields) : WebpartFields :=
  {| title := title p; description := d; propertieJson := propertieJson p;
     webPartId := webPartId p; htmlProperties := htmlProperties p;
     serverProcessedContent := serverProcessedContent p |}.

Definition with_properties (content props : jsval) (p : WebpartFields) : WebpartFields :=
  {| title := title p; description := description p; propertieJson := props;
     webPartId := webPartId p; htmlProperties := htmlProperties p;
     serverProcessedContent := content |}.

(** [manifest.preconfiguredEntries[0]] *)
Definition first_entry (manifest : json) : outcome jsval :=
  entries <- member "preconfiguredEntries" (Some manifest) ;;
  element0 entries.

(** [manifest.preconfiguredEntries[0].k.default], stored into a field the
    source declares as [string]. *)
Definition entry_default (k : string) (manifest : json) : outcome string :=
  entry <- first_entry manifest ;;
  field <- member k entry ;;
  value <- member "default" field ;;
  as_string value.

(** [ClientSideWebpart.import(component)]: the fields are assigned one
    after the other, so a statement that throws leaves the assignments
    before it in place. *)
Definition ClientSideWebpart_import (component : ClientSidePageComponent)
           (p : WebpartFields) : effect WebpartFields unit :=
  let p := with_webPartId (strip_braces (Id component)) p in
  match JSON_parse (Manifest component) with
  | Ok manifest =>
      match entry_default "title" manifest with
      | Ok t =>
          let p := with_title t p in
          match entry_default "description" manifest with
          | Ok d =>
              let p := with_description d p in
              match (entry <- first_entry manifest ;;
                     props <- member "properties" entry ;;
                     parseJsonProperties props) with
              | Ok (content, props) => (with_properties content props p, Ok tt)
              | failed => (p, _ <- failed ;; Ok tt)
              end
          | failed => (p, _ <- failed ;; Ok tt)
          end
      | failed => (p, _ <- failed ;; Ok tt)
      end
  | failed => (p, _ <- failed ;; Ok tt)
  end.

(** [ClientSideWebpart.fromComponentDef(definition)]: a web part with an
    empty title, after [import]. *)
Definition fromComponentDef (guid : string) (definition : ClientSidePageComponent)
  : effect Control unit :=
  match new_ClientSideWebpart guid "" with
  | ClientSideWebpart b p =>
      let (p', r) := ClientSideWebpart_import definition p in
      (ClientSideWebpart b p', r)
  | other => (other, Unmodelled)
  end.

(* ===================================================================== *)
(** * Further notions used to state the properties *)
(* ===================================================================== *)

(** The controls of a page in document order. *)
Definition page_controls (page : ClientSidePage) : list Control :=
  flat_map section_controls (sections page).

(** An order to which 1 is added exactly: from -2^53 up to, but not
    including, 2^53. *)
Definition below_max_safe (o : Z) : Prop :=
  - Z.of_N max_safe <= o < Z.of_N max_safe.

(** A section with two columns whose orders are 1 and 5. *)
Definition section_of_two_columns : CanvasSection :=
  {| section_order := 1;
     columns := [new_CanvasColumn "a" 1 6; new_CanvasColumn "b" 5 6] |}.

(** The positions 1, 2, ..., n. *)
Definition positions (n : nat) : list Z := map Z.of_nat (seq 1 n).

(** A page after [n] calls of [addSection]. *)
Definition with_sections (n : nat) (page : ClientSidePage) : ClientSidePage :=
  Nat.iter n addSection page.

(** A component definition whose manifest is the JSON text of [manifest]. *)
Definition component_of (guid : string) (manifest : json) : ClientSidePageComponent :=
  {| Id := "{" ++ guid ++ "}"; Manifest := JSON_stringify manifest |}.

(** A manifest with one preconfigured entry. *)
Definition sample_manifest : json :=
  JObj [("alias", JStr "Embed");
        ("preconfiguredEntries",
         JArr [JObj [("description", JObj [("default", JStr "Embeds content")]);
                     ("properties",
                      JObj [("properties", JObj [("embedCode", JStr "")]);
                            ("serverProcessedContent", JObj [("links", JArr [])])]);
                     ("title", JObj [("default", JStr "Embed")])]])].

Definition sample_webpart : WebpartFields :=
  {| title := ""; description := ""; propertieJson := Some (JObj []);
     webPartId := ""; htmlProperties := "<b>kept</b>"; serverProcessedContent := None |}.

(** A column that holds two text controls. *)
Definition sample_column : CanvasColumn :=
  CanvasColumn_addControl (new_ClientSideText "b" "two")
    (CanvasColumn_addControl (new_ClientSideText "a" "one") (new_CanvasColumn "col" 1 12)).

(** The code units that are not the ampersand, and the code units that
    are none of the four characters the codec escapes. *)
Definition is_plain_char (c : ascii) : bool := negb (c =? "&")%char.

Definition is_unescaped_char (c : ascii) : bool :=
  negb ((c =? dquote)%char || (c =? ":")%char || (c =? "{")%char || (c =? "}")%char).

(* ===================================================================== *)
(** * Pages of text controls and empty columns *)
(* ===================================================================== *)

(** A number of elements that is an exact number value. *)
Definition is_count (n : nat) : bool := is_position (Z.of_nat n).

(** A text control as the constructor and the setter leave it: control
    type 4, data version 1.0, an identifier of hexadecimal digits and
    dashes, and a text that starts with the paragraph tag and holds no tab,
    carriage return, line feed or div tag. *)
Definition text_ok (c : Control) : bool :=
  match c with
  | ClientSideText b text =>
      match controlType b, id b with
      | Some 4, Some guid =>
          (dataVersion b =? "1.0")%string && all_chars is_guid_char guid
          && plain_text text && startsWith text "<p>"
      | _, _ => false
      end
  | ClientSideWebpart _ _ => false
  end.

(** A column of data version 1.0 that is empty, or has the factor 12 and
    holds text controls. *)
Definition column_ok (c : CanvasColumn) : bool :=
  (dataVersion (column_base c) =? "1.0")%string &&
  match controls c with
  | [] => is_position (factor c)
  | cs => (factor c =? 12) && forallb text_ok cs && is_count (List.length cs)
  end.

(** A section with at least one column. *)
Definition section_ok (s : CanvasSection) : bool :=
  match columns s with
  | [] => false
  | cs => forallb column_ok cs && is_count (List.length cs)
  end.

Definition page_ok (page : ClientSidePage) : bool :=
  forallb section_ok (sections page) && is_count (List.length (sections page)).

Definition fragment_ok (x : fragment) : bool :=
  match x with
  | Marker dv f si zi =>
      (dv =? "1.0")%string && is_position f && is_position si && is_position zi
  | TextFragment b text k f si zi =>
      text_ok (ClientSideText b text) && is_position k && is_position f
      && is_position si && is_position zi
  end.

(** The identifier of a control, empty when it has none. *)
Definition guid_of (b : CanvasControl) : string :=
  match id b with Some g => g | None => EmptyString end.

(** The column and the text control the parse makes of a block. *)
Definition parsed_column (f si zi : Z) : CanvasColumn :=
  {| column_base :=
       {| controlType := None; dataVersion := "1.0"; order := si; id := None;
          controlData := Some (marker_data f si zi) |};
     factor := f; controls := [] |}.

Definition parsed_text (guid text : string) (counter k f si zi : Z) : Control :=
  ClientSideText
    {| controlType := Some 4; dataVersion := "1.0"; order := counter; id := Some guid;
       controlData := Some (text_data guid k f si zi) |}
    (set_text text).

(** The column the parse creates for the first control of a column, with
    the controls merged into it so far; the section the parse creates, with
    its columns so far.  Neither exists before its first element. *)
Definition merged_column (si : Z) (ks : list Control) : list CanvasColumn :=
  match ks with
  | [] => []
  | _ :: _ =>
      [{| column_base := with_order si (new_CanvasControl 0 "1.0" fresh_guid);
          factor := 12; controls := ks |}]
  end.

Definition merged_section (zi : Z) (cs : list CanvasColumn) : list CanvasSection :=
  match cs with
  | [] => []
  | _ :: _ => [{| section_order := zi; columns := cs |}]
  end.

(** Two trees that are rendered alike: the same shape, factors and data
    versions, and controls with the same text, type, version and id. *)
Definition control_alike (c c' : Control) : Prop :=
  match c, c' with
  | ClientSideText b t, ClientSideText b' t' =>
      t' = t /\ controlType b' = controlType b /\ dataVersion b' = dataVersion b /\
      id b' = id b
  | _, _ => False
  end.

Definition column_alike (c c' : CanvasColumn) : Prop :=
  factor c' = factor c /\ column_order c' = column_order c /\
  dataVersion (column_base c') = dataVersion (column_base c) /\
  Forall2 control_alike (controls c) (controls c').

Definition section_alike (s s' : CanvasSection) : Prop :=
  section_order s' = section_order s /\ Forall2 column_alike (columns s) (columns s').

(** A tree whose sections and columns carry their positions, from [i]. *)
Definition columns_numbered (s : CanvasSection) : Prop :=
  numbered_from column_order 0 (columns s).


(** A page of two sections: an empty column of factor 6 beside a column
    that holds two text controls, and an empty column; the orders are not
    the positions. *)
Definition sample_page : ClientSidePage :=
  {| sections :=
       [{| section_order := 5;
           columns :=
             [new_CanvasColumn "c0" 7 6;
              CanvasColumn_addControl (new_ClientSideText "b2" "<p>World</p>")
                (CanvasColumn_addControl (new_ClientSideText "a1" "Hello")
                   (new_CanvasColumn "c1" 2 12))] |};
        {| section_order := 3; columns := [new_CanvasColumn "c2" 1 12] |}];
     commentsDisabled := false |}.

(** The number of blocks in the markup of a page. *)
Definition block_count (page : ClientSidePage) : nat :=
  List.length (page_fragments (reindex (sections page))).

(** The markup of a text control rendered at position [k] of a column of
    factor [f] and order [si] in the section of order [zi]. *)
Definition text_markup_at (b : CanvasControl) (text : string) (k f si zi : Z) : string :=
  markup_of (snd (ClientSideText_toHtml k
                    {| owner_factor := f; owner_sectionIndex := si;
                       owner_zoneIndex := zi |} b text)).

(** The columns of a tree in document order. *)
Definition tree_columns (ss : list CanvasSection) : list CanvasColumn :=
  flat_map columns ss.

(** The controls of a tree in document order. *)
Definition tree_controls (ss : list CanvasSection) : list Control :=
  flat_map section_controls ss.

(** The zone and the section the decoded metadata of a control names. *)
Definition control_at (zi si : Z) (control : Control) : Prop :=
  position_field "zoneIndex" (base_of control) = Ok (Some (JNum zi)) /\
  position_field "sectionIndex" (base_of control) = Ok (Some (JNum si)).

(* ===================================================================== *)
(** * Properties *)
(* ===================================================================== *)

(** ** Strings *)

Lemma append_nil_r (s : string) : s ++ "" = s.
Proof. induction s; simpl; congruence. Qed.

Lemma append_assoc (a b c : string) : (a ++ b) ++ c = a ++ (b ++ c).
Proof. induction a; simpl; congruence. Qed.

Lemma length_append (a b : string) :
  String.length (a ++ b) = (String.length a + String.length b)%nat.
Proof. induction a; simpl; congruence. Qed.

Lemma startsWith_append (p s : string) : startsWith (p ++ s) p = true.
Proof. induction p; simpl; [reflexivity|]. now rewrite Ascii.eqb_refl. Qed.

Lemma startsWith_split (s p : string) :
  startsWith s p = true -> exists r, s = p ++ r.
Proof.
  revert s. induction p as [|a p IH]; intros s H; simpl in *.
  - now exists s.
  - destruct s as [|b s]; [discriminate|].
    apply andb_true_iff in H as [Hab H].
    apply Ascii.eqb_eq in Hab. subst b.
    destruct (IH _ H) as [r ->]. now exists r.
Qed.

Lemma endsWith_append (a p : string) : endsWith (a ++ p) p = true.
Proof.
  induction a as [|c a IH].
  - simpl. destruct p; simpl; [reflexivity|].
    rewrite Ascii.eqb_refl, String.eqb_refl. reflexivity.
  - cbn [append endsWith]. rewrite IH. apply orb_true_r.
Qed.

(** ** The text setter *)

Lemma paragraph_wrapped_wrap (t : string) :
  paragraph_wrapped ("<p>" ++ t ++ "</p>") = true.
Proof. unfold paragraph_wrapped. simpl. apply endsWith_append. Qed.

(** C7, as amended: the text stored by the constructor or the setter of a
    text control is the given text between <p> and </p> whenever the given
    text does not start with <p>, and is the given text unchanged whenever it
    starts with <p>, in particular whenever it is already of the form
    <p>...</p>. *)
Theorem C7_text_wrapped_unless_starts_with_p (guid text : string) :
  (startsWith text "<p>" = false ->
     text_of (new_ClientSideText guid text) = Some ("<p>" ++ text ++ "</p>") /\
     paragraph_wrapped (set_text text) = true) /\
  (startsWith text "<p>" = true -> set_text text = text) /\
  (paragraph_wrapped text = true ->
     text_of (new_ClientSideText guid text) = Some text).
Proof.
  unfold new_ClientSideText, text_of, set_text.
  split; [|split].
  - intros H. rewrite H. cbn [negb]. split; [reflexivity|].
    apply paragraph_wrapped_wrap.
  - intros H. rewrite H. reflexivity.
  - intros H. unfold paragraph_wrapped in H.
    apply andb_true_iff in H as [H _]. rewrite H. reflexivity.
Qed.

Lemma C7_witness :
  text_of (new_ClientSideText "g" "Hello") = Some ("<p>" ++ "Hello" ++ "</p>") /\
  text_of (new_ClientSideText "g" "<p>Hello</p>") = Some "<p>Hello</p>".
Proof.
  split.
  - refine (proj1 (proj1 (C7_text_wrapped_unless_starts_with_p "g" "Hello") _)).
    reflexivity.
  - refine (proj2 (proj2 (C7_text_wrapped_unless_starts_with_p "g" "<p>Hello</p>")) _).
    reflexivity.
Defined.

(** C7 as stated fails: a text that starts with <p> but is not closed by
    </p> is not paragraph-wrapped, and it is stored as it is, not wrapped. *)
Lemma C7_counterexample :
  paragraph_wrapped "<p>abc" = false /\
  set_text "<p>abc" = "<p>abc" /\
  paragraph_wrapped (set_text "<p>abc") = false.
Proof. repeat split. Qed.

(** ** Reindexing and rendering *)

Section Numbering.

Context {A : Type} (get : A -> Z).

Lemma numbered_reindex_from `{Orderable A} (i : Z) (xs : list A) :
  (forall o x, get (reindex_children (set_order o x)) = o) ->
  numbered_from get i (reindex_from i xs).
Proof.
  intros Hget. revert i.
  induction xs as [|x xs IH]; intros i; simpl; [exact I|].
  split; [apply Hget | apply IH].
Qed.

Lemma Forall_reindex_from `{Orderable A} (P : A -> Prop) (i : Z) (xs : list A) :
  (forall o x, P (reindex_children (set_order o x))) ->
  Forall P (reindex_from i xs).
Proof.
  intros HP. revert i.
  induction xs as [|x xs IH]; intros i; simpl; constructor; auto.
Qed.

(** Rendering keeps a numbering when each call leaves its receiver with
    the order it is called with. *)
Lemma numbered_render_each (f : Z -> A -> effect A string) (i : Z) (xs : list A) :
  (forall j x, get x = j -> get (fst (f j x)) = j) ->
  numbered_from get i xs ->
  numbered_from get i (fst (render_each f i xs)).
Proof.
  intros Hf. revert i.
  induction xs as [|x xs IH]; intros i Hn; simpl; [exact I|].
  destruct Hn as [Hx Hxs].
  specialize (Hf (i + 1) x Hx).
  destruct (f (i + 1) x) as [x' r]. simpl in Hf.
  destruct r; simpl; try (split; assumption).
  specialize (IH (i + 1) Hxs).
  destruct (render_each f (i + 1) xs) as [xs' r']. simpl in *.
  split; assumption.
Qed.

Lemma Forall_render_each (P : A -> Prop) (f : Z -> A -> effect A string)
      (i : Z) (xs : list A) :
  (forall j x, P x -> P (fst (f j x))) ->
  Forall P xs ->
  Forall P (fst (render_each f i xs)).
Proof.
  intros Hf. revert i.
  induction xs as [|x xs IH]; intros i HP; simpl; [constructor|].
  inversion HP as [|? ? Hx Hxs]; subst.
  specialize (Hf (i + 1) x Hx).
  destruct (f (i + 1) x) as [x' r]. simpl in Hf.
  destruct r; simpl; try (constructor; assumption).
  specialize (IH (i + 1) Hxs).
  destruct (render_each f (i + 1) xs) as [xs' r']. simpl in *.
  constructor; assumption.
Qed.

End Numbering.

Lemma Control_toHtml_order (o : Owner) (j : Z) (c : Control) :
  order (base_of (fst (Control_toHtml o j c))) = j.
Proof. destruct c; reflexivity. Qed.

Lemma CanvasColumn_toHtml_order (zone : Z) (c : CanvasColumn) :
  column_order (fst (CanvasColumn_toHtml zone c)) = column_order c.
Proof.
  unfold CanvasColumn_toHtml. destruct (controls c); [reflexivity|].
  destruct (render_each _ _ _). reflexivity.
Qed.

Lemma CanvasColumn_toHtml_reindexed (zone : Z) (c : CanvasColumn) :
  column_reindexed c -> column_reindexed (fst (CanvasColumn_toHtml zone c)).
Proof.
  unfold column_reindexed, CanvasColumn_toHtml. intros Hc.
  destruct (controls c) as [|k ks] eqn:E; [simpl; now rewrite E|].
  set (o := {| owner_factor := factor c; owner_sectionIndex := column_order c;
               owner_zoneIndex := zone |}).
  pose proof (numbered_render_each (fun k => order (base_of k))
                (Control_toHtml o) 0 (k :: ks)
                (fun j x _ => Control_toHtml_order o j x) Hc) as Hn.
  destruct (render_each (Control_toHtml o) 0 (k :: ks)). exact Hn.
Qed.

Lemma CanvasSection_toHtml_order (s : CanvasSection) :
  section_order (fst (CanvasSection_toHtml s)) = section_order s.
Proof. unfold CanvasSection_toHtml. destruct (render_each _ _ _). reflexivity. Qed.

Lemma CanvasSection_toHtml_reindexed (s : CanvasSection) :
  section_reindexed s -> section_reindexed (fst (CanvasSection_toHtml s)).
Proof.
  unfold section_reindexed, CanvasSection_toHtml. intros [Hn Hall].
  pose proof (numbered_render_each column_order
                (fun _ => CanvasColumn_toHtml (section_order s)) 0 (columns s)
                (fun j x H => eq_trans (CanvasColumn_toHtml_order _ x) H) Hn) as Hn'.
  pose proof (Forall_render_each column_reindexed
                (fun _ => CanvasColumn_toHtml (section_order s)) 0 (columns s)
                (fun _ x => CanvasColumn_toHtml_reindexed _ x) Hall) as Hall'.
  destruct (render_each _ 0 (columns s)). split; assumption.
Qed.

Lemma reindex_controls_numbered (ks : list Control) :
  numbered_from (fun k => order (base_of k)) 0 (reindex ks).
Proof. apply numbered_reindex_from. intros o []; reflexivity. Qed.

Lemma reindex_columns_reindexed (cs : list CanvasColumn) :
  numbered_from column_order 0 (reindex cs) /\ Forall column_reindexed (reindex cs).
Proof.
  split.
  - apply numbered_reindex_from. reflexivity.
  - apply Forall_reindex_from. intros o c. apply reindex_controls_numbered.
Qed.

Lemma reindex_sections_reindexed (ss : list CanvasSection) :
  numbered_from section_order 0 (reindex ss) /\ Forall section_reindexed (reindex ss).
Proof.
  split.
  - apply numbered_reindex_from. reflexivity.
  - apply Forall_reindex_from. intros o s. apply reindex_columns_reindexed.
Qed.

(** C4: whatever order values a page tree holds, the page a call of toHtml
    leaves has every section, every column of a section and every control of
    a column carrying its 1-based position as its order; this holds whether
    the call returns the markup or throws while rendering. *)
Theorem C4_orders_are_positions_after_toHtml (page : ClientSidePage) :
  page_reindexed (fst (toHtml page)).
Proof.
  unfold page_reindexed, toHtml.
  destruct (reindex_sections_reindexed (sections page)) as [Hn Hall].
  pose proof (numbered_render_each section_order (fun _ => CanvasSection_toHtml) 0
                (reindex (sections page))
                (fun j x H => eq_trans (CanvasSection_toHtml_order x) H) Hn) as Hn'.
  pose proof (Forall_render_each section_reindexed (fun _ => CanvasSection_toHtml) 0
                (reindex (sections page))
                (fun _ x => CanvasSection_toHtml_reindexed x) Hall) as Hall'.
  destruct (render_each _ 0 (reindex (sections page))). split; assumption.
Qed.

(** The only effect of rendering on elements that are numbered already is
    none. *)
Lemma render_each_unchanged {A : Type} (get : A -> Z) (P : A -> Prop)
      (f : Z -> A -> effect A string) (i : Z) (xs : list A) :
  (forall j x, get x = j -> P x -> fst (f j x) = x) ->
  numbered_from get i xs -> Forall P xs ->
  fst (render_each f i xs) = xs.
Proof.
  intros Hf. revert i.
  induction xs as [|x xs IH]; intros i Hn HP; simpl; [reflexivity|].
  destruct Hn as [Hx Hxs]. inversion HP as [|? ? Px Pxs]; subst.
  specialize (Hf (i + 1) x Hx Px).
  destruct (f (i + 1) x) as [x' r]. simpl in Hf. subst x'.
  destruct r; simpl; try reflexivity.
  specialize (IH (i + 1) Hxs Pxs).
  destruct (render_each f (i + 1) xs) as [xs' r']. simpl in *. now subst.
Qed.

Lemma Control_toHtml_unchanged (o : Owner) (j : Z) (c : Control) :
  order (base_of c) = j -> fst (Control_toHtml o j c) = c.
Proof. destruct c as [[] ?|[] ?]; simpl; intros <-; reflexivity. Qed.

Lemma CanvasColumn_toHtml_unchanged (zone : Z) (c : CanvasColumn) :
  column_reindexed c -> fst (CanvasColumn_toHtml zone c) = c.
Proof.
  unfold column_reindexed, CanvasColumn_toHtml. intros Hc.
  destruct (controls c) as [|k ks] eqn:E; [reflexivity|].
  set (o := {| owner_factor := factor c; owner_sectionIndex := column_order c;
               owner_zoneIndex := zone |}).
  pose proof (render_each_unchanged (fun k => order (base_of k)) (fun _ => True)
                (Control_toHtml o) 0 (k :: ks)
                (fun j x H _ => Control_toHtml_unchanged o j x H) Hc
                (proj2 (Forall_forall _ _) (fun _ _ => I))) as Hn.
  destruct (render_each (Control_toHtml o) 0 (k :: ks)). simpl in *. subst.
  destruct c; simpl in *. now subst.
Qed.

Lemma CanvasSection_toHtml_unchanged (s : CanvasSection) :
  section_reindexed s -> fst (CanvasSection_toHtml s) = s.
Proof.
  unfold section_reindexed, CanvasSection_toHtml. intros [Hn Hall].
  pose proof (render_each_unchanged column_order column_reindexed
                (fun _ => CanvasColumn_toHtml (section_order s)) 0 (columns s)
                (fun j x _ H => CanvasColumn_toHtml_unchanged _ x H) Hn Hall) as Hr.
  destruct (render_each _ 0 (columns s)). simpl in *. subst.
  destruct s; reflexivity.
Qed.

(** What toHtml does to the tree is the reindex. *)
Lemma toHtml_reindexes (page : ClientSidePage) :
  sections (fst (toHtml page)) = reindex (sections page).
Proof.
  unfold toHtml.
  destruct (reindex_sections_reindexed (sections page)) as [Hn Hall].
  pose proof (render_each_unchanged section_order section_reindexed
                (fun _ => CanvasSection_toHtml) 0 (reindex (sections page))
                (fun j x _ H => CanvasSection_toHtml_unchanged x H) Hn Hall) as Hr.
  destruct (render_each _ 0 (reindex (sections page))). exact Hr.
Qed.

(** ** Reconciliation *)



(** ** The matcher *)

Lemma match_star_eq (ic : bool) (cc : cclass) (lazy capture : bool) (ns : list node)
      (prev : option ascii) (s : string) :
  match_nodes ic (Star cc lazy capture :: ns) prev s =
  let stop := capture_start capture (match_nodes ic ns prev s) in
  match s with
  | EmptyString => stop
  | String c s' =>
      if in_class cc c
      then
        let more := capture_more capture c
                      (match_nodes ic (Star cc lazy capture :: ns) (Some c) s') in
        if lazy then or_else stop more else or_else more stop
      else stop
  end.
Proof. destruct s; reflexivity. Qed.

Lemma capture_start_some (capture : bool) (r : option found) (m : found) :
  capture_start capture r = Some m -> exists m', r = Some m'.
Proof. destruct r as [[]|]; simpl; [eauto | discriminate]. Qed.

Lemma capture_more_some (capture : bool) (c : ascii) (r : option found) (m : found) :
  capture_more capture c r = Some m -> exists m', r = Some m'.
Proof. destruct r as [[]|]; simpl; [eauto | discriminate]. Qed.

Lemma advance_some (n : nat) (r : option found) (m : found) :
  advance n r = Some m -> exists m', r = Some m'.
Proof. destruct r as [[]|]; simpl; [eauto | discriminate]. Qed.

Lemma or_else_some (a b : option found) (m : found) :
  or_else a b = Some m -> a = Some m \/ b = Some m.
Proof. destruct a; simpl; auto. Qed.

(** A star hands over to the rest of the expression at some suffix. *)
Lemma match_star_reaches (ic : bool) (cc : cclass) (lazy capture : bool)
      (ns : list node) (s : string) :
  forall prev m,
    match_nodes ic (Star cc lazy capture :: ns) prev s = Some m ->
    exists pre s' prev' m',
      s = pre ++ s' /\ match_nodes ic ns prev' s' = Some m'.
Proof.
  induction s as [|c s IH]; intros prev m H; rewrite match_star_eq in H; cbv zeta in H.
  - apply capture_start_some in H as [m' H]. exists "", "", prev, m'. now split.
  - assert (Hstop : forall m0,
               capture_start capture (match_nodes ic ns prev (String c s)) = Some m0 ->
               exists pre s' prev' m',
                 String c s = pre ++ s' /\ match_nodes ic ns prev' s' = Some m').
    { intros m0 H0. apply capture_start_some in H0 as [m' H0].
      exists "", (String c s), prev, m'. now split. }
    assert (Hmore : forall m0,
               capture_more capture c
                 (match_nodes ic (Star cc lazy capture :: ns) (Some c) s) = Some m0 ->
               exists pre s' prev' m',
                 String c s = pre ++ s' /\ match_nodes ic ns prev' s' = Some m').
    { intros m0 H0. apply capture_more_some in H0 as [m' H0].
      destruct (IH _ _ H0) as (pre & s' & prev' & m'' & -> & Hm).
      exists (String c pre), s', prev', m''. now split. }
    destruct (in_class cc c); [|eauto].
    destruct lazy; apply or_else_some in H as [H|H]; eauto.
Qed.

Lemma strip_lit_starts (l : string) :
  forall prev s prev' s',
    strip_lit true l prev s = Some (prev', s') ->
    starts_ic s l = true /\ s' = skipn_str (String.length l) s.
Proof.
  induction l as [|a l IH]; intros prev s prev' s' H; cbn [strip_lit] in H.
  - inversion H. now split.
  - destruct s as [|b s]; [discriminate H|].
    destruct (char_eq true a b) eqn:E; [|discriminate H].
    destruct (IH _ _ _ _ H) as [H1 H2].
    cbn [starts_ic String.length skipn_str]. now rewrite E, H1.
Qed.

Lemma includes_ic_append (pre s p : string) :
  includes_ic s p = true -> includes_ic (pre ++ s) p = true.
Proof.
  intros H. induction pre as [|c pre IH]; [exact H|].
  cbn [append includes_ic]. rewrite IH. apply orb_true_r.
Qed.

Lemma includes_ic_skipn (n : nat) (s p : string) :
  includes_ic (skipn_str n s) p = true -> includes_ic s p = true.
Proof.
  revert s. induction n as [|n IH]; intros s H; [exact H|].
  destruct s as [|c s]; [exact H|].
  cbn [includes_ic]. simpl in H. rewrite (IH _ H). apply orb_true_r.
Qed.

Lemma includes_append (pre s p : string) :
  includes s p = true -> includes (pre ++ s) p = true.
Proof.
  intros H. induction pre as [|c pre IH]; [exact H|].
  cbn [append includes]. rewrite IH. apply orb_true_r.
Qed.

Lemma char_eq_dquote (c : ascii) : char_eq true dquote c = true -> c = dquote.
Proof.
  destruct c as [[] [] [] [] [] [] [] []]; vm_compute; intros H;
    (discriminate || reflexivity).
Qed.

(** ** Attribute extraction *)

Lemma match_attr_has_attr (attrName : string) (prev : option ascii) (s : string)
      (m : found) :
  match_nodes true (re_nodes (re_attr attrName)) prev s = Some m ->
  starts_ic s (attrName ++ "=" ++ DQ) = true /\
  includes (skipn_str (String.length attrName + 2) s) DQ = true.
Proof.
  cbn [re_attr re_nodes]. intros H.
  cbn [match_nodes] in H.
  destruct (strip_lit true (attrName ++ "=" ++ DQ) prev s) as [[prev' s']|] eqn:E;
    [|discriminate].
  apply strip_lit_starts in E as [E1 E2]. split; [exact E1|].
  apply advance_some in H as [m' H].
  change (match_nodes true [Star (NotChar dquote) true true; Lit DQ] prev' s' = Some m')
    in H.
  apply match_star_reaches in H as (pre & s'' & prev'' & m'' & Hs & Hm).
  rewrite !length_append in E2. simpl in E2. rewrite <- E2, Hs.
  apply includes_append.
  cbn [match_nodes] in Hm.
  destruct s'' as [|c s'']; [discriminate|].
  cbn [DQ strip_lit] in Hm.
  destruct (char_eq true dquote c) eqn:Ec; [|discriminate].
  apply char_eq_dquote in Ec. subst c. reflexivity.
Qed.

Lemma exec_attr_has_attr (attrName : string) (s : string) :
  forall prev pos r,
    exec_from (re_attr attrName) prev pos s = Some r -> has_attr s attrName = true.
Proof.
  induction s as [|c s IH]; intros prev pos r H.
  - cbn [exec_from] in H.
    destruct (match_nodes _ _ prev "") eqn:E; [|discriminate].
    apply match_attr_has_attr in E as [E1 E2]. cbn [has_attr]. now rewrite E1, E2.
  - cbn [exec_from] in H.
    destruct (match_nodes _ _ prev (String c s)) eqn:E.
    + apply match_attr_has_attr in E as [E1 E2]. cbn [has_attr]. now rewrite E1, E2.
    + cbn [re_attr re_atStart] in H. cbn [has_attr].
      rewrite (IH _ _ _ H). apply orb_true_r.
Qed.

(** C10: on markup that does not carry the requested attribute with a quoted
    value, getAttrValueFromString reads the length of a null match and throws
    a TypeError instead of returning null; CanvasControl.fromHtml on a
    fragment without the data-sp-controldata attribute therefore throws that
    TypeError, not a codec error. *)
Theorem C10_absent_attribute_throws_TypeError (html attrName : string) :
  has_attr html attrName = false ->
  getAttrValueFromString html attrName = Throw TypeError /\
  (attrName = "data-sp-controldata" ->
   forall b, CanvasControl_fromHtml html b = Throw TypeError).
Proof.
  intros H.
  assert (Hget : getAttrValueFromString html attrName = Throw TypeError).
  { unfold getAttrValueFromString, exec.
    destruct (exec_from (re_attr attrName) None 0 html) as [r|] eqn:E; [|reflexivity].
    apply exec_attr_has_attr in E. congruence. }
  split; [exact Hget|].
  intros -> b. unfold CanvasControl_fromHtml. now rewrite Hget.
Qed.

Lemma C10_witness :
  getAttrValueFromString bare_fragment "data-sp-controldata" = Throw TypeError /\
  CanvasControl_fromHtml bare_fragment (new_CanvasControl 0 "1.0" "guid") = Throw TypeError.
Proof.
  assert (H : has_attr bare_fragment "data-sp-controldata" = false) by reflexivity.
  split.
  - exact (proj1 (C10_absent_attribute_throws_TypeError _ _ H)).
  - exact (proj2 (C10_absent_attribute_throws_TypeError _ _ H) eq_refl _).
Defined.

(** ** The content holder of a text control *)

Lemma starts_ic_includes_ic (s p : string) :
  starts_ic s p = true -> includes_ic s p = true.
Proof. intros H. destruct s; cbn [includes_ic]; now rewrite H. Qed.

Lemma match_rte_includes (prev : option ascii) (s : string) (m : found) :
  match_nodes true (re_nodes re_rte) prev s = Some m ->
  includes_ic s "data-sp-rte" = true.
Proof.
  cbn [re_rte re_nodes]. intros H. cbn [match_nodes] in H.
  destruct (strip_lit true "<div" prev s) as [[prev' s']|] eqn:E; [|discriminate H].
  apply strip_lit_starts in E as [_ E].
  apply advance_some in H as [m' H].
  match type of H with
  | ?f prev' s' = _ =>
      change (match_nodes true
                [Star (NotChar ">") false false; Lit "data-sp-rte";
                 Star (NotChar ">") false false; Lit ">"; Star AnyChar true true;
                 Lit "</div>"] prev' s' = Some m') in H
  end.
  apply match_star_reaches in H as (pre & s'' & prev'' & m'' & Hs & Hm).
  cbn [match_nodes] in Hm.
  destruct (strip_lit true "data-sp-rte" prev'' s'') as [[p3 s3]|] eqn:E3;
    [|discriminate Hm].
  apply strip_lit_starts in E3 as [E3 _].
  apply (includes_ic_skipn (String.length "<div")). rewrite <- E, Hs.
  apply includes_ic_append, starts_ic_includes_ic, E3.
Qed.

Lemma exec_rte_includes (s : string) :
  forall prev pos r,
    exec_from re_rte prev pos s = Some r -> includes_ic s "data-sp-rte" = true.
Proof.
  induction s as [|c s IH]; intros prev pos r H; cbn [exec_from] in H.
  - destruct (match_nodes _ _ prev "") eqn:E; [|discriminate H].
    now apply match_rte_includes in E.
  - destruct (match_nodes _ _ prev (String c s)) eqn:E.
    + now apply match_rte_includes in E.
    + cbn [re_rte re_atStart] in H. cbn [includes_ic].
      rewrite (IH _ _ _ H). apply orb_true_r.
Qed.

(** C5 fails on the code: on a fragment whose control metadata decodes but
    which has no element carrying the data-sp-rte marker,
    ClientSideText.fromHtml does not set an empty text; it reads the length
    of a null match and throws a TypeError. *)
Theorem C5_missing_holder_throws (html : string) (b b' : CanvasControl) :
  CanvasControl_fromHtml html b = Ok b' ->
  includes_ic html "data-sp-rte" = false ->
  ClientSideText_fromHtml html b = Throw TypeError.
Proof.
  intros Hbase Hrte. unfold ClientSideText_fromHtml. rewrite Hbase. cbn [bind].
  unfold exec. destruct (exec_from re_rte None 0 html) as [r|] eqn:E; [|reflexivity].
  apply exec_rte_includes in E. congruence.
Qed.

Lemma C5_failing_input :
  (exists b', CanvasControl_fromHtml text_fragment_without_holder
                (new_CanvasControl 4 "1.0" "fresh") = Ok b') /\
  ClientSideText_fromHtml text_fragment_without_holder
    (new_CanvasControl 4 "1.0" "fresh") = Throw TypeError.
Proof.
  assert (H : CanvasControl_fromHtml text_fragment_without_holder
                (new_CanvasControl 4 "1.0" "fresh")
              = Ok {| controlType := Some 4; dataVersion := "1.0"; order := 1;
                      id := Some "c1";
                      controlData := Some (ClientSideText_getControlData
                        {| owner_factor := 12; owner_sectionIndex := 1;
                           owner_zoneIndex := 1 |}
                        (new_CanvasControl 4 "1.0" "c1")) |})
    by (vm_compute; reflexivity).
  split; [eexists; exact H|].
  exact (C5_missing_holder_throws _ _ _ H eq_refl).
Defined.

(** ** Fragments the page parser has no case for *)

Lemma collect_unknown (fuel : nat) (markup : string) (st : parse_state) :
  known_controlType markup = false -> collect_control fuel markup st = Ok (tt, st).
Proof.
  unfold known_controlType, collect_control. destruct st as [counter ss].
  destruct (fragment_controlType markup) as [[|p|p]|]; try discriminate; try reflexivity.
  do 3 (try destruct p as [p|p|]); try discriminate; reflexivity.
Qed.

Lemma collect_all_filter (fuel : nat) (markups : list string) :
  forall st,
    collect_all fuel (filter known_controlType markups) st = collect_all fuel markups st.
Proof.
  induction markups as [|m ms IH]; intros st; [reflexivity|].
  cbn [filter collect_all]. destruct (known_controlType m) eqn:E.
  - cbn [collect_all]. destruct (collect_control fuel m st) as [[[] st']| | |]; cbn [bind];
      auto.
  - rewrite (collect_unknown fuel m st E). cbn [bind]. apply IH.
Qed.

(** The scanner run with the collector of the page is the scanner run for
    the fragments alone, followed by the collector on each fragment. *)
Lemma scan_blocks_collect (fc : nat) (cleaned : string) (fuel : nat) :
  forall start acc fs accC st,
    scan_blocks re_canvascontrol (fun markup (u : unit) => Ok (markup, u))
                fuel cleaned start acc tt = Ok (fs, tt) ->
    exists found,
      fs = (acc ++ found)%list /\
      scan_blocks re_canvascontrol (collect_control fc) fuel cleaned start accC st
      = (st' <- collect_all fc found st ;;
         Ok ((accC ++ map (fun _ => tt) found)%list, st')).
Proof.
  induction fuel as [|fuel IH]; intros start acc fs accC st H.
  - cbn [scan_blocks] in *. destruct (-1 <? start); [discriminate H|].
    inversion H; subst. exists []. rewrite !List.app_nil_r. now split.
  - cbn [scan_blocks] in *. destruct (-1 <? start).
    + destruct (find_close (S fuel) cleaned 1 (start + 1)) as [close| | |];
        cbn [bind] in *; try discriminate H.
      apply IH with (accC := (accC ++ [tt])%list) (st := st) in H as Hfound.
      destruct Hfound as (found & -> & _).
      exists (trim (substring cleaned start (close + 6)) :: found).
      split; [now rewrite <- List.app_assoc|].
      cbn [collect_all].
      destruct (collect_control fc _ st) as [[[] st']| | |]; cbn [bind]; try reflexivity.
      destruct (IH _ _ _ (accC ++ [tt])%list st' H) as (found' & Hf & Hscan).
      apply List.app_inv_head in Hf. subst found'. rewrite Hscan.
      destruct (collect_all fc found st'); cbn [bind]; try reflexivity.
      cbn [map]. now rewrite <- List.app_assoc.
    + inversion H; subst. exists []. rewrite !List.app_nil_r. now split.
Qed.

Lemma fromHtml_collect_all (fuel : nat) (html : option string) (page : ClientSidePage)
      (fs : list string) :
  fragments fuel html = Ok fs ->
  fromHtml fuel html page
  = (st <- collect_all fuel fs (0, []) ;;
     Ok {| sections := snd st; commentsDisabled := commentsDisabled page |}).
Proof.
  unfold fragments, fromHtml, getBoundedDivMarkup. intros H.
  destruct html as [html|]; cbn [bind] in *.
  - destruct (regexIndexOf (strip_tab_cr_lf html) re_canvascontrol 0 <? 0).
    + cbn [bind] in *. inversion H; subst. reflexivity.
    + destruct (scan_blocks re_canvascontrol (fun markup (st : unit) => Ok (markup, st))
                  fuel (strip_tab_cr_lf html) _ [] tt) as [[blocks []]| | |] eqn:E;
        cbn [bind] in H; try discriminate H.
      inversion H; subst.
      destruct (scan_blocks_collect fuel _ _ _ _ _ [] (0, []) E) as (found & Hf & Hscan).
      simpl in Hf. subst. rewrite Hscan.
      destruct (collect_all fuel found (0, [])) as [[c ss]| | |]; reflexivity.
  - inversion H; subst. reflexivity.
Qed.

(** ** The depth guard of the scanner *)

Lemma close_step_out_of_bounds (cleaned : string) (c s : Z) :
  out_of_bounds cleaned (c, s) <-> close_step cleaned c s = TooDeep.
Proof.
  unfold out_of_bounds, close_step. cbn [fst snd].
  destruct (next_tag cleaned c s) as [[c' s'] ncd].
  destruct (c' =? 0) eqn:E0.
  - apply Z.eqb_eq in E0. subst. split; [lia | discriminate].
  - destruct ((1000 <? c') || (c' <? 0)) eqn:E.
    + split; [reflexivity|]. intros _.
      apply orb_true_iff in E as [E|E]; [left|right]; lia.
    + split; [|discriminate]. intros H.
      apply orb_false_iff in E as [E1 E2]. lia.
Qed.

Lemma find_close_throws (cleaned : string) (n : nat) :
  forall fuel c s state,
    after_turns n cleaned c s = Some state ->
    out_of_bounds cleaned state ->
    (n < fuel)%nat ->
    find_close fuel cleaned c s = Throw (Error depth_message).
Proof.
  induction n as [|n IH]; intros fuel c s state Hturns Hout Hfuel;
    (destruct fuel as [|fuel]; [lia|]); cbn [after_turns find_close] in *.
  - inversion Hturns; subst.
    apply close_step_out_of_bounds in Hout. now rewrite Hout.
  - destruct (close_step cleaned c s) as [c1 s1| |]; try discriminate Hturns.
    apply (IH fuel c1 s1 state Hturns Hout). lia.
Qed.

Lemma find_close_throw_inv (cleaned : string) (fuel : nat) :
  forall c s e,
    find_close fuel cleaned c s = Throw e ->
    e = Error depth_message /\
    exists n state,
      (n < fuel)%nat /\ after_turns n cleaned c s = Some state /\
      out_of_bounds cleaned state.
Proof.
  induction fuel as [|fuel IH]; intros c s e H; cbn [find_close] in H;
    [discriminate H|].
  destruct (close_step cleaned c s) as [c1 s1| |] eqn:E.
  - destruct (IH _ _ _ H) as (He & n & state & Hn & Hturns & Hout).
    split; [exact He|]. exists (S n), state. repeat split; [lia| |exact Hout].
    cbn [after_turns]. now rewrite E.
  - discriminate H.
  - inversion H; subst. split; [reflexivity|].
    exists 0%nat, (c, s). repeat split; [lia|].
    now apply close_step_out_of_bounds.
Qed.

(** The counter of the inner loop stays between 1 and 1000 as long as the
    loop goes on: it never becomes negative. *)
Lemma after_turns_counter (cleaned : string) (n : nat) :
  forall c s state,
    1 <= c <= 1000 ->
    after_turns n cleaned c s = Some state ->
    1 <= fst state <= 1000.
Proof.
  induction n as [|n IH]; intros c s state Hc H; cbn [after_turns] in H.
  - inversion H; subst. exact Hc.
  - destruct (close_step cleaned c s) as [c1 s1| |] eqn:E; try discriminate H.
    apply (IH c1 s1 state); [|exact H].
    unfold close_step, next_tag in E.
    repeat match type of E with
           | context [if ?b then _ else _] => destruct b eqn:?
           end; inversion E; subst; lia.
Qed.

Section DepthGuard.

Variables St T : Type.
Variable boundary : regex.
Variable collector : string -> St -> outcome (T * St).

(** A collector that returns on every fragment. *)
Hypothesis collector_returns : forall markup st, exists r, collector markup st = Ok r.

Lemma scan_blocks_throws (cleaned : string) (n fuel : nat) (start : Z)
      (blocks : list T) (st : St) (state : Z * Z) :
  -1 < start ->
  after_turns n cleaned 1 (start + 1) = Some state ->
  out_of_bounds cleaned state ->
  (n < fuel)%nat ->
  scan_blocks boundary collector fuel cleaned start blocks st
  = Throw (Error depth_message).
Proof.
  intros Hstart Hturns Hout Hfuel.
  destruct fuel as [|fuel]; [lia|]. cbn [scan_blocks].
  apply Z.ltb_lt in Hstart. rewrite Hstart.
  rewrite (find_close_throws cleaned n (S fuel) 1 (start + 1) state Hturns Hout Hfuel).
  reflexivity.
Qed.

Lemma scan_blocks_throw_inv (cleaned : string) (fuel : nat) :
  forall start blocks st e,
    scan_blocks boundary collector fuel cleaned start blocks st = Throw e ->
    e = Error depth_message /\
    exists start' n state,
      -1 < start' /\ after_turns n cleaned 1 (start' + 1) = Some state /\
      out_of_bounds cleaned state.
Proof.
  induction fuel as [|fuel IH]; intros start blocks st e H; cbn [scan_blocks] in H.
  - destruct (-1 <? start); discriminate H.
  - destruct (-1 <? start) eqn:Hs; [|discriminate H].
    destruct (find_close (S fuel) cleaned 1 (start + 1)) as [close|e'| |] eqn:E;
      cbn [bind] in H; try discriminate H.
    + destruct (collector_returns (trim (substring cleaned start (close + 6))) st)
        as [[block st'] Hc].
      rewrite Hc in H. cbn [bind] in H. exact (IH _ _ _ _ H).
    + inversion H; subst e'.
      destruct (find_close_throw_inv cleaned (S fuel) 1 (start + 1) e E)
        as (He & n & state & _ & Hturns & Hout).
      split; [exact He|]. exists start, n, state.
      apply Z.ltb_lt in Hs. now repeat split.
Qed.

End DepthGuard.


(** C8: in a scan whose collector returns on every fragment,
    (1) whenever a turn of the inner loop, for the first block or for a
    later one, leaves the nesting counter above 1000 or below 0, the scan
    ends by throwing the depth error, however many further iterations are
    allowed: it does not go on looping;
    (2) the scan throws only then: a thrown error is the depth error, and
    a turn of an inner loop has left the counter out of bounds. *)
Theorem C8_depth_guard (St T : Type) (boundary : regex)
        (collector : string -> St -> outcome (T * St)) :
  (forall markup st, exists r, collector markup st = Ok r) ->
  (forall cleaned n fuel start blocks st state,
      -1 < start ->
      after_turns n cleaned 1 (start + 1) = Some state ->
      out_of_bounds cleaned state ->
      (n < fuel)%nat ->
      scan_blocks boundary collector fuel cleaned start blocks st
      = Throw (Error depth_message)) /\
  (forall html n fuel st state,
      let cleaned := strip_tab_cr_lf html in
      let start := regexIndexOf cleaned boundary 0 in
      0 <= start ->
      after_turns n cleaned 1 (start + 1) = Some state ->
      out_of_bounds cleaned state ->
      (n < fuel)%nat ->
      getBoundedDivMarkup boundary collector fuel (Some html) st
      = Throw (Error depth_message)) /\
  (forall fuel html st e,
      getBoundedDivMarkup boundary collector fuel html st = Throw e ->
      e = Error depth_message /\
      exists h start n state,
        html = Some h /\ -1 < start /\
        after_turns n (strip_tab_cr_lf h) 1 (start + 1) = Some state /\
        out_of_bounds (strip_tab_cr_lf h) state).
Proof.
  intros Hreturns. split; [|split].
  - intros cleaned n fuel start blocks st state.
    apply scan_blocks_throws.
  - intros html n fuel st state cleaned start Hstart Hturns Hout Hfuel.
    unfold getBoundedDivMarkup. fold cleaned. fold start.
    destruct (start <? 0) eqn:E; [apply Z.ltb_lt in E; lia|].
    apply (scan_blocks_throws St T boundary collector cleaned n fuel start [] st state);
      [lia | assumption..].
  - intros fuel html st e H. unfold getBoundedDivMarkup in H.
    destruct html as [h|]; [|discriminate H].
    destruct (regexIndexOf (strip_tab_cr_lf h) boundary 0 <? 0); [discriminate H|].
    destruct (scan_blocks_throw_inv St T boundary collector Hreturns _ _ _ _ _ _ H)
      as (He & start & n & state & Hs & Hturns & Hout).
    split; [exact He|]. exists h, start, n, state. now repeat split.
Qed.

Lemma C8_witness :
  after_turns 999 runaway_markup 1 1 = Some (1000, 5018) /\
  getBoundedDivMarkup re_canvascontrol keep_fragment 1000 (Some runaway_markup) tt
  = Throw (Error depth_message).
Proof.
  assert (Hturns : after_turns 999 runaway_markup 1 1 = Some (1000, 5018))
    by (vm_compute; reflexivity).
  split; [exact Hturns|].
  refine (proj1 (proj2 (C8_depth_guard unit string re_canvascontrol keep_fragment _))
            runaway_markup 999%nat 1000%nat tt (1000, 5018) _ _ _ _).
  - intros markup st. eexists. reflexivity.
  - vm_compute. discriminate.
  - exact Hturns.
  - vm_compute. left. reflexivity.
  - lia.
Defined.

(** The guard does not end every scan: on a canvas control that is never
    closed and does not start the markup, the counter stays within its
    bounds and the outer loop finds the same block again and again. *)
Lemma scan_of_unclosed_markup_never_ends (fuel : nat) :
  getBoundedDivMarkup re_canvascontrol keep_fragment fuel (Some unclosed_markup) tt
  = OutOfFuel.
Proof.
  assert (Hclean : strip_tab_cr_lf unclosed_markup = unclosed_markup) by reflexivity.
  assert (Hfirst : regexIndexOf unclosed_markup re_canvascontrol 0 = 1) by reflexivity.
  assert (Hstep1 : close_step unclosed_markup 1 (1 + 1) = Closed (-1)) by reflexivity.
  assert (Hstep0 : close_step unclosed_markup 1 (0 + 1) = Closed (-1)) by reflexivity.
  assert (Hnext : regexIndexOf unclosed_markup re_canvascontrol (-1) = 0) by reflexivity.
  assert (Hloop : forall f blocks,
             scan_blocks re_canvascontrol keep_fragment f unclosed_markup 0 blocks tt
             = OutOfFuel).
  { induction f as [|f IH]; intros blocks; [reflexivity|].
    cbn [scan_blocks find_close]. change (-1 <? 0) with true. cbv iota.
    rewrite Hstep0. cbn [bind keep_fragment]. rewrite Hnext. apply IH. }
  unfold getBoundedDivMarkup. rewrite Hclean, Hfirst. change (1 <? 0) with false. cbv iota.
  destruct fuel as [|f]; [reflexivity|].
  cbn [scan_blocks find_close]. change (-1 <? 1) with true. cbv iota.
  rewrite Hstep1. cbn [bind keep_fragment]. rewrite Hnext. apply Hloop.
Qed.

(** ** The number of iterations allowed *)



Section MoreFuel.

Variables St T : Type.
Variable boundary : regex.
Variables collector collector' : string -> St -> outcome (T * St).

Hypothesis collector_more :
  forall markup st r,
    collector markup st = r -> r <> OutOfFuel -> collector' markup st = r.



End MoreFuel.




(** ** Empty columns *)



(** ** The escaping of the attribute codec *)

Lemma subst_chars_append (f : ascii -> string) (a b : string) :
  subst_chars f (a ++ b) = subst_chars f a ++ subst_chars f b.
Proof.
  induction a as [|c a IH]; [reflexivity|].
  cbn [append subst_chars]. now rewrite IH, append_assoc.
Qed.

Lemma subst_chars_compose (f g : ascii -> string) (s : string) :
  subst_chars g (subst_chars f s) = subst_chars (fun c => subst_chars g (f c)) s.
Proof.
  induction s as [|c s IH]; [reflexivity|].
  cbn [subst_chars]. now rewrite subst_chars_append, IH.
Qed.

Lemma subst_chars_ext (f g : ascii -> string) (s : string) :
  (forall c, f c = g c) -> subst_chars f s = subst_chars g s.
Proof.
  intros H. induction s as [|c s IH]; [reflexivity|].
  cbn [subst_chars]. now rewrite H, IH.
Qed.

Lemma subst_chars_id (s : string) : subst_chars (fun c => String c "") s = s.
Proof. induction s as [|c s IH]; [reflexivity|]. cbn. now rewrite IH. Qed.

(** Replacing a single code unit everywhere. *)
Lemma replace_all_char (c : ascii) (r s : string) :
  replace_all (String c "") r s
  = subst_chars (fun x => if (c =? x)%char then r else String x "") s.
Proof.
  unfold replace_all. induction s as [|x s IH]; [reflexivity|].
  cbn [replace_from subst_chars startsWith String.length Nat.sub].
  rewrite andb_true_r. destruct (c =? x)%char; cbn [append]; now rewrite IH.
Qed.

Lemma escape_text_subst (s : string) : escape_text s = subst_chars (escape_from 0) s.
Proof.
  unfold escape_text, DQ. rewrite !replace_all_char, !subst_chars_compose.
  apply subst_chars_ext.
  intros c. destruct c as [[] [] [] [] [] [] [] []]; reflexivity.
Qed.

Lemma all_ascii_complete (c : ascii) : In c all_ascii.
Proof.
  unfold all_ascii. rewrite <- (ascii_nat_embedding c).
  apply in_map, in_seq. pose proof (nat_ascii_bounded c). lia.
Qed.

Lemma for_all_ascii (P : ascii -> bool) :
  forallb P all_ascii = true -> forall c, P c = true.
Proof.
  intros H c. rewrite forallb_forall in H. apply H, all_ascii_complete.
Qed.

(** A word of inert code units is found at the front of a substituted text
    only if it is at the front of the text. *)
Lemma startsWith_subst_inert (f : ascii -> string) (w : string) :
  (forall x, In x (list_ascii_of_string w) -> forall d, inert f x d = true) ->
  forall t, startsWith (subst_chars f t) w = true -> startsWith t w = true.
Proof.
  induction w as [|x w IH]; intros Hw t H; [reflexivity|].
  destruct t as [|d t]; [discriminate H|].
  cbn [subst_chars] in H.
  pose proof (Hw x (or_introl eq_refl) d) as Hd. unfold inert in Hd.
  destruct (f d) as [|y r]; [discriminate Hd|].
  cbn [append startsWith] in H. apply andb_true_iff in H as [Hxy H].
  apply Ascii.eqb_eq in Hxy. subst y.
  rewrite Ascii.eqb_refl in Hd. cbn [negb orb] in Hd.
  apply andb_true_iff in Hd as [Hdx Hr].
  apply Ascii.eqb_eq in Hdx. apply String.eqb_eq in Hr. subst d r.
  cbn [append] in H. cbn [startsWith]. rewrite Ascii.eqb_refl. cbn [andb].
  apply IH; [|exact H].
  intros x' Hx'. apply Hw. now right.
Qed.

Lemma inert_tail (k : nat) (w : string) :
  forallb (fun x => forallb (inert (escape_from k) x) all_ascii)
          (list_ascii_of_string w) = true ->
  forall x, In x (list_ascii_of_string w) -> forall d, inert (escape_from k) x d = true.
Proof.
  intros H x Hx. rewrite forallb_forall in H. apply for_all_ascii, H, Hx.
Qed.

Lemma escape_from_plain (k : nat) (c : ascii) :
  c <> dquote -> c <> ":"%char -> c <> "{"%char -> c <> "}"%char ->
  escape_from k c = String c "".
Proof.
  intros H1 H2 H3 H4. unfold escape_from.
  apply Ascii.eqb_neq in H1, H2, H3, H4. rewrite H1, H2, H3, H4.
  now rewrite !andb_false_r.
Qed.

Lemma startsWith_cons (a b : ascii) (s p : string) :
  startsWith (String a s) (String b p) = (b =? a)%char && startsWith s p.
Proof. reflexivity. Qed.

(** One replacement of [escapedStringToJson], on a text in which the
    escapes from the [k]-th on are in place; the [k]-th escape is the
    ampersand followed by [tail]. *)
Ltac unescape_pass k tail :=
  let t := fresh "t" in
  let d := fresh "d" in
  let IH := fresh "IH" in
  let Hinc := fresh "Hinc" in
  let Hst := fresh "Hst" in
  intros t; unfold replace_all;
  induction t as [|d t IH]; intros Hinc; [reflexivity|];
  cbn [includes] in Hinc; apply orb_false_iff in Hinc as [Hst Hinc];
  specialize (IH Hinc); cbn [subst_chars];
  destruct (Ascii.eqb_spec d dquote) as [->|H1];
    [cbn; now rewrite IH|];
  destruct (Ascii.eqb_spec d ":"%char) as [->|H2];
    [cbn; now rewrite IH|];
  destruct (Ascii.eqb_spec d "{"%char) as [->|H3];
    [cbn; now rewrite IH|];
  destruct (Ascii.eqb_spec d "}"%char) as [->|H4];
    [cbn; now rewrite IH|];
  rewrite !(escape_from_plain _ d H1 H2 H3 H4);
  cbn [append replace_from];
  match goal with
  | |- context [startsWith (String d ?rest) (String ?amp tail)] =>
      let E := fresh "E" in
      destruct (startsWith (String d rest) (String amp tail)) eqn:E;
        [|now rewrite IH];
      exfalso;
      rewrite startsWith_cons in E, Hst;
      apply andb_true_iff in E as [Ed E];
      rewrite Ed in Hst; cbn [andb] in Hst;
      apply (startsWith_subst_inert (escape_from k)) in E;
        [congruence | apply inert_tail; vm_compute; reflexivity]
  end.

Lemma unescape_quot :
  forall t, includes t "&quot;" = false ->
    replace_all "&quot;" DQ (subst_chars (escape_from 0) t)
    = subst_chars (escape_from 1) t.
Proof. unescape_pass 0%nat "quot;". Qed.

Lemma unescape_colon :
  forall t, includes t "&#58;" = false ->
    replace_all "&#58;" ":" (subst_chars (escape_from 1) t)
    = subst_chars (escape_from 2) t.
Proof. unescape_pass 1%nat "#58;". Qed.

Lemma unescape_open_brace :
  forall t, includes t "&#123;" = false ->
    replace_all "&#123;" "{" (subst_chars (escape_from 2) t)
    = subst_chars (escape_from 3) t.
Proof. unescape_pass 2%nat "#123;". Qed.

Lemma unescape_close_brace :
  forall t, includes t "&#125;" = false ->
    replace_all "&#125;" "}" (subst_chars (escape_from 3) t)
    = subst_chars (escape_from 4) t.
Proof. unescape_pass 3%nat "#125;". Qed.

(** Unescaping undoes escaping on a text that holds none of the escapes. *)
Lemma unescape_escape_text (t : string) :
  escape_free t = true -> unescape_text (escape_text t) = t.
Proof.
  unfold escape_free. intros H.
  apply andb_true_iff in H as [H H4]. apply andb_true_iff in H as [H H3].
  apply andb_true_iff in H as [H1 H2].
  apply negb_true_iff in H1, H2, H3, H4.
  unfold unescape_text. rewrite escape_text_subst.
  rewrite (unescape_quot t H1), (unescape_colon t H2),
          (unescape_open_brace t H3), (unescape_close_brace t H4).
  rewrite <- (subst_chars_id t) at 2. apply subst_chars_ext.
  intros c. unfold escape_from. cbn [Nat.leb andb]. reflexivity.
Qed.

(* ===================================================================== *)
(** * JSON.parse after JSON.stringify *)
(* ===================================================================== *)

(** ** Decimal numerals *)

Lemma span_digits_uint (d : uint) (rest : string) :
  (match rest with String c _ => is_digit c | EmptyString => false end) = false ->
  span_digits (NilEmpty.string_of_uint d ++ rest) = (NilEmpty.string_of_uint d, rest).
Proof.
  intros Hrest.
  induction d; cbn [NilEmpty.string_of_uint append span_digits];
    try (rewrite IHd; reflexivity).
  destruct rest as [|c rest]; [reflexivity|].
  cbn [span_digits]. now rewrite Hrest.
Qed.

Lemma to_uint_normal (n : N) : unorm (N.to_uint n) = N.to_uint n.
Proof.
  rewrite <- (DecimalN.Unsigned.of_to n) at 2.
  now rewrite DecimalN.Unsigned.to_of.
Qed.

Lemma to_uint_nonnil (n : N) : N.to_uint n <> Nil.
Proof. rewrite <- to_uint_normal. apply unorm_nonnil. Qed.

Lemma string_of_N_alt (n : N) : string_of_N n = NilEmpty.string_of_uint (N.to_uint n).
Proof.
  unfold string_of_N, NilZero.string_of_uint.
  pose proof (to_uint_nonnil n). now destruct (N.to_uint n).
Qed.

Lemma span_digits_string_of_N (n : N) (rest : string) :
  (match rest with String c _ => is_digit c | EmptyString => false end) = false ->
  span_digits (string_of_N n ++ rest) = (string_of_N n, rest).
Proof. rewrite string_of_N_alt. apply span_digits_uint. Qed.

Lemma N_of_digits_string_of_N (n : N) : N_of_digits (string_of_N n) = n.
Proof.
  unfold N_of_digits, string_of_N.
  rewrite (NilZero.usu _ (to_uint_nonnil n)). apply DecimalN.Unsigned.of_to.
Qed.

(** A numeral starts with a digit, and with 0 only when it is 0. *)
Lemma string_of_N_head (n : N) :
  exists d ds,
    string_of_N n = String d ds /\ is_digit d = true /\
    ((d =? "0")%char && negb (ds =? "")%string = false).
Proof.
  rewrite string_of_N_alt.
  pose proof (to_uint_normal n) as Hn. pose proof (to_uint_nonnil n) as Hnil.
  destruct (N.to_uint n) as [|u|u|u|u|u|u|u|u|u|u] eqn:E;
    try (now destruct Hnil);
    try (eexists; eexists; split; [reflexivity|]; split; reflexivity).
  exists "0"%char, (NilEmpty.string_of_uint u). split; [reflexivity|].
  split; [reflexivity|].
  assert (u = Nil) as ->.
  { unfold unorm in Hn. rewrite nzhead_D0 in Hn.
    destruct (nzhead u) eqn:Eu; try (inversion Hn; subst; reflexivity);
      exfalso; apply (nzhead_nonzero u u); congruence. }
  reflexivity.
Qed.

(** ** String literals *)

Lemma parse_chars_quote_body (s rest : string) :
  parse_chars (quote_body s ++ String dquote rest) = Ok (s, rest).
Proof.
  induction s as [|c s IH].
  - cbn. reflexivity.
  - cbn [quote_body]. rewrite append_assoc.
    destruct c as [[] [] [] [] [] [] [] []]; cbn; rewrite IH; reflexivity.
Qed.

(** ** Facts about single code units *)

Lemma ascii_implies (P Q : ascii -> bool) :
  forallb (fun c => implb (P c) (Q c)) all_ascii = true ->
  forall c, P c = true -> Q c = true.
Proof.
  intros H c Hc. pose proof (for_all_ascii _ H c) as Hi. cbv beta in Hi.
  now rewrite Hc in Hi.
Qed.

Lemma follow_ok_char (c : ascii) :
  (c =? ",")%char || (c =? "]")%char || (c =? "}")%char = true ->
  negb (is_digit c || (c =? ".")%char || (c =? "e")%char || (c =? "E")%char
        || is_json_space c) = true.
Proof. revert c. apply ascii_implies. vm_compute. reflexivity. Qed.

Lemma digit_char (c : ascii) :
  is_digit c = true ->
  negb ((c =? "-")%char || is_json_space c || (c =? "{")%char || (c =? "[")%char
        || (c =? dquote)%char || (c =? "t")%char || (c =? "f")%char
        || (c =? "n")%char) = true.
Proof. revert c. apply ascii_implies. vm_compute. reflexivity. Qed.

Lemma value_start_char (c : ascii) :
  value_start c = true ->
  negb (is_json_space c || (c =? "]")%char || (c =? "}")%char) = true.
Proof. revert c. apply ascii_implies. vm_compute. reflexivity. Qed.

Lemma follow_ok_not_digit (rest : string) :
  follow_ok rest = true ->
  (match rest with String c _ => is_digit c | EmptyString => false end) = false.
Proof.
  destruct rest as [|c rest]; [reflexivity|]. cbn [follow_ok]. intros H.
  apply follow_ok_char in H. apply negb_true_iff in H.
  now repeat (apply orb_false_iff in H as [H _]).
Qed.

Lemma follow_ok_not_fraction (rest : string) :
  follow_ok rest = true ->
  (match rest with
   | String c _ => (c =? ".")%char || (c =? "e")%char || (c =? "E")%char
   | EmptyString => false
   end) = false.
Proof.
  destruct rest as [|c rest]; [reflexivity|]. cbn [follow_ok]. intros H.
  apply follow_ok_char in H. apply negb_true_iff in H.
  apply orb_false_iff in H as [H _].
  apply orb_false_iff in H as [H H3]. apply orb_false_iff in H as [H H2].
  apply orb_false_iff in H as [_ H1]. now rewrite H1, H2, H3.
Qed.

Lemma next_token_follow (c : ascii) (rest : string) :
  (c =? ",")%char || (c =? "]")%char || (c =? "}")%char = true ->
  next_token (String c rest) = Some (c, rest).
Proof.
  intros H. apply follow_ok_char in H. apply negb_true_iff in H.
  apply orb_false_iff in H as [_ H]. unfold next_token. cbn [skip_ws]. now rewrite H.
Qed.

Lemma next_token_value (c : ascii) (rest : string) :
  value_start c = true -> next_token (String c rest) = Some (c, rest).
Proof.
  intros H. apply value_start_char in H. apply negb_true_iff in H.
  apply orb_false_iff in H as [H _]. apply orb_false_iff in H as [H _].
  unfold next_token. cbn [skip_ws]. now rewrite H.
Qed.

(** ** Numbers *)

Lemma parse_number_nonneg (n : N) (rest : string) :
  (n <= max_safe)%N -> follow_ok rest = true ->
  parse_number (string_of_N n ++ rest) = Ok (JNum (Z.of_N n), rest).
Proof.
  intros Hn Hrest. unfold parse_number.
  destruct (string_of_N_head n) as (d & ds & E & Hd & Hz).
  pose proof (digit_char d Hd) as Hdc. apply negb_true_iff in Hdc.
  repeat (apply orb_false_iff in Hdc as [Hdc _]).
  rewrite E at 1. cbn [append]. rewrite Hdc.
  rewrite (span_digits_string_of_N n rest (follow_ok_not_digit rest Hrest)).
  rewrite E. rewrite Hz, <- E.
  rewrite (follow_ok_not_fraction rest Hrest), N_of_digits_string_of_N.
  cbn [orb]. apply N.ltb_ge in Hn. now rewrite Hn.
Qed.

Lemma parse_number_neg (p : positive) (rest : string) :
  (Npos p <= max_safe)%N -> follow_ok rest = true ->
  parse_number (String "-" (string_of_N (Npos p) ++ rest)) = Ok (JNum (Zneg p), rest).
Proof.
  intros Hn Hrest. unfold parse_number. cbn [Ascii.eqb Bool.eqb].
  destruct (string_of_N_head (Npos p)) as (d & ds & E & Hd & Hz).
  rewrite (span_digits_string_of_N _ rest (follow_ok_not_digit rest Hrest)).
  rewrite E. rewrite Hz, <- E.
  rewrite (follow_ok_not_fraction rest Hrest), N_of_digits_string_of_N.
  cbn [orb]. apply N.ltb_ge in Hn. now rewrite Hn.
Qed.

(** ** Values *)

Lemma json_induction (P : json -> Prop) :
  P JNull -> (forall b, P (JBool b)) -> (forall n, P (JNum n)) ->
  (forall s, P (JStr s)) ->
  (forall items, Forall P items -> P (JArr items)) ->
  (forall members, Forall (fun m => P (snd m)) members -> P (JObj members)) ->
  forall v, P v.
Proof.
  intros Hnull Hbool Hnum Hstr Harr Hobj.
  fix IH 1. intros [| b | n | s | items | members].
  - exact Hnull.
  - apply Hbool.
  - apply Hnum.
  - apply Hstr.
  - apply Harr.
    exact ((fix all (l : list json) : Forall P l :=
              match l with
              | [] => Forall_nil P
              | x :: l' => Forall_cons x (IH x) (all l')
              end) items).
  - apply Hobj.
    exact ((fix all (l : list (string * json)) : Forall (fun m => P (snd m)) l :=
              match l with
              | [] => Forall_nil _
              | x :: l' => Forall_cons x (IH (snd x)) (all l')
              end) members).
Qed.

Lemma string_of_Z_nonneg (z : Z) : 0 <= z -> string_of_Z z = string_of_N (Z.to_N z).
Proof. destruct z; [reflexivity | reflexivity | lia]. Qed.

Lemma stringify_head (v : json) :
  exists c t, JSON_stringify v = String c t /\ value_start c = true.
Proof.
  destruct v as [| [] | n | s | items | members];
    try (eexists; eexists; split; [reflexivity|reflexivity]).
  destruct n as [|p|p].
  - eexists; eexists; split; reflexivity.
  - cbn [JSON_stringify string_of_Z Z.to_N].
    destruct (string_of_N_head (Npos p)) as (d & ds & E & Hd & _).
    exists d, ds. split; [exact E|]. unfold value_start. rewrite Hd.
    now rewrite !orb_true_r.
  - eexists; eexists; split; reflexivity.
Qed.

Lemma stringify_length (v : json) : (1 <= String.length (JSON_stringify v))%nat.
Proof.
  destruct (stringify_head v) as (c & t & E & _). rewrite E. cbn. lia.
Qed.

Lemma next_token_stringify (v : json) (rest : string) :
  exists c t,
    JSON_stringify v ++ rest = String c t /\ value_start c = true /\
    next_token (JSON_stringify v ++ rest) = Some (c, t).
Proof.
  destruct (stringify_head v) as (c & t & E & Hc). rewrite E.
  exists c, (t ++ rest). cbn [append]. repeat split; [exact Hc|].
  now apply next_token_value.
Qed.

Lemma parse_value_digit (f : nat) (d : ascii) (s : string) :
  is_digit d = true -> parse_value (S f) (String d s) = parse_number (String d s).
Proof.
  intros Hd. cbn [parse_value].
  assert (Hv : value_start d = true)
    by (unfold value_start; rewrite Hd; now rewrite !orb_true_r).
  rewrite (next_token_value d s Hv).
  pose proof (digit_char d Hd) as H. apply negb_true_iff in H.
  repeat match type of H with
         | _ || _ = false => apply orb_false_iff in H as [H ?]
         end.
  repeat match goal with
         | E : (d =? _)%char = false |- _ => rewrite E; clear E
         end.
  rewrite Hd. reflexivity.
Qed.

Lemma parses_back_atoms :
  parses_back JNull /\ (forall b, parses_back (JBool b)) /\
  (forall n, parses_back (JNum n)) /\ (forall s, parses_back (JStr s)).
Proof.
  unfold parses_back. repeat split.
  - intros _ [|f] rest Hf _; [cbn in Hf; lia|]. reflexivity.
  - intros b _ [|f] rest Hf _; [destruct b; cbn in Hf; lia|]. destruct b; reflexivity.
  - intros n Hwf [|f] rest Hf Hrest;
      [pose proof (stringify_length (JNum n)); lia|].
    cbn [json_wf] in Hwf. apply Z.leb_le in Hwf.
    cbn [JSON_stringify]. destruct n as [|p|p].
    + cbn [string_of_Z Z.to_N].
      destruct (string_of_N_head 0) as (d & ds & E & Hd & _). rewrite E.
      cbn [append]. rewrite (parse_value_digit f d _ Hd).
      change (String d (ds ++ rest)) with (String d ds ++ rest). rewrite <- E.
      apply (parse_number_nonneg 0 rest); [unfold max_safe; lia | exact Hrest].
    + cbn [string_of_Z Z.to_N].
      destruct (string_of_N_head (Npos p)) as (d & ds & E & Hd & _). rewrite E.
      cbn [append]. rewrite (parse_value_digit f d _ Hd).
      change (String d (ds ++ rest)) with (String d ds ++ rest). rewrite <- E.
      apply (parse_number_nonneg (Npos p) rest); [lia | exact Hrest].
    + cbn [string_of_Z]. rewrite append_assoc.
      change ("-" ++ string_of_N (N.pos p) ++ rest)
        with (String "-" (string_of_N (N.pos p) ++ rest)).
      change (parse_value (S f) (String "-" (string_of_N (N.pos p) ++ rest)))
        with (parse_number (String "-" (string_of_N (N.pos p) ++ rest))).
      apply parse_number_neg; [lia | exact Hrest].
  - intros s _ [|f] rest Hf _;
      [pose proof (stringify_length (JStr s)); lia|].
    cbn [JSON_stringify]. unfold quote, DQ. rewrite !append_assoc.
    cbn [append parse_value].
    rewrite (next_token_value dquote _ eq_refl).
    change ((dquote =? "{")%char) with false.
    change ((dquote =? "[")%char) with false. cbv iota.
    rewrite Ascii.eqb_refl.
    now rewrite parse_chars_quote_body.
Qed.

(** ** Arrays *)

Lemma sep_by_cons (sep p : string) (q : string) (ps : list string) :
  sep_by sep (p :: q :: ps) = p ++ sep ++ sep_by sep (q :: ps).
Proof. reflexivity. Qed.

Lemma parse_elements_stringify (items : list json) :
  Forall parses_back items ->
  forallb json_wf items = true ->
  items <> [] ->
  forall fuel acc rest,
    (String.length (sep_by "," (map JSON_stringify items)) + 1 <= fuel)%nat ->
    parse_elements fuel (sep_by "," (map JSON_stringify items) ++ String "]" rest) acc
    = Ok (JArr (acc ++ items), rest).
Proof.
  induction items as [|v items IH]; intros Hall Hwf Hne fuel acc rest Hfuel;
    [congruence|].
  inversion Hall as [|? ? Hv Hitems]; subst.
  cbn [forallb] in Hwf. apply andb_true_iff in Hwf as [Hwv Hwf].
  destruct fuel as [|f]; [lia|].
  pose proof (stringify_length v) as Hlen.
  destruct items as [|v2 items].
  - cbn [map sep_by] in *. cbn [parse_elements].
    rewrite (Hv Hwv f (String "]" rest)); [|lia|reflexivity].
    cbn [bind]. rewrite (next_token_follow "]" rest eq_refl). reflexivity.
  - cbn [map] in *. rewrite sep_by_cons in *. rewrite length_append in Hfuel.
    cbn [parse_elements]. rewrite !append_assoc.
    rewrite (Hv Hwv f); [|lia|reflexivity].
    cbn [bind append]. rewrite (next_token_follow "," _ eq_refl).
    cbn [Ascii.eqb Bool.eqb]. cbv iota.
    rewrite (IH Hitems Hwf ltac:(discriminate) f (acc ++ [v])%list rest).
    + now rewrite <- List.app_assoc.
    + cbn [map]. rewrite length_append in Hfuel. cbn [String.length] in Hfuel. lia.
Qed.

(** ** Objects *)

Lemma obj_set_append (k : string) (v : json) (acc : list (string * json)) :
  (forall k', In k' (map fst acc) ->
              (k' =? k)%string = false /\ key_before k k' = false) ->
  obj_set k v acc = (acc ++ [(k, v)])%list.
Proof.
  induction acc as [|[k1 v1] acc IH]; intros H; [reflexivity|].
  cbn [obj_set app].
  destruct (H k1 (or_introl eq_refl)) as [H1 H2]. rewrite H1, H2.
  rewrite IH; [reflexivity|]. intros k' Hk'. apply H. now right.
Qed.

Lemma keys_wf_app (ks1 : list string) (k : string) (ks2 : list string) :
  keys_wf (ks1 ++ k :: ks2) = true ->
  forall k', In k' ks1 -> (k' =? k)%string = false /\ key_before k k' = false.
Proof.
  induction ks1 as [|k1 ks1 IH]; intros H k' Hk'; [destruct Hk'|].
  cbn [app keys_wf] in H. apply andb_true_iff in H as [Hhead Htail].
  destruct Hk' as [<-|Hk'].
  - rewrite forallb_app in Hhead. apply andb_true_iff in Hhead as [_ Hhead].
    cbn [forallb] in Hhead. apply andb_true_iff in Hhead as [Hhead _].
    apply andb_true_iff in Hhead as [Ha Hb].
    apply negb_true_iff in Ha, Hb. now split.
  - now apply IH.
Qed.

Lemma parse_members_stringify (members : list (string * json)) :
  Forall (fun m => parses_back (snd m)) members ->
  forallb (fun m => json_wf (snd m)) members = true ->
  members <> [] ->
  forall fuel acc rest,
    keys_wf (map fst (acc ++ members)) = true ->
    (String.length (sep_by "," (map member_text members)) + 1 <= fuel)%nat ->
    parse_members fuel (sep_by "," (map member_text members) ++ String "}" rest) acc
    = Ok (JObj (acc ++ members), rest).
Proof.
  induction members as [|[k v] members IH];
    intros Hall Hwf Hne fuel acc rest Hkeys Hfuel; [congruence|].
  inversion Hall as [|? ? Hv Hmembers]; subst. cbn [snd] in Hv.
  cbn [forallb snd] in Hwf. apply andb_true_iff in Hwf as [Hwv Hwf].
  destruct fuel as [|f]; [lia|].
  pose proof (stringify_length v) as Hlen.
  assert (Hset : obj_set k v acc = (acc ++ [(k, v)])%list).
  { apply obj_set_append. rewrite map_app in Hkeys. cbn [map fst] in Hkeys.
    now apply keys_wf_app with (ks2 := map fst members). }
  assert (Hexpect : forall tail,
             expect_string (quote k ++ tail) = parse_chars (quote_body k ++ DQ ++ tail)).
  { intros tail. unfold quote, DQ. rewrite !append_assoc. reflexivity. }
  assert (Hkey : forall tail,
             expect_string (member_text (k, v) ++ tail)
             = Ok (k, String ":" (JSON_stringify v ++ tail))).
  { intros tail. unfold member_text. cbn [fst snd]. rewrite !append_assoc, Hexpect.
    unfold DQ. cbn [append]. now rewrite parse_chars_quote_body. }
  assert (Hmlen : (String.length (JSON_stringify v) + 3
                   <= String.length (member_text (k, v)))%nat).
  { unfold member_text, quote, DQ. cbn [fst snd].
    rewrite !length_append. cbn [String.length]. lia. }
  destruct members as [|m2 members].
  - cbn [map sep_by] in *. cbn [parse_members].
    rewrite Hkey. cbn [bind]. rewrite (next_token_value ":" _ eq_refl) || idtac.
    unfold next_token at 1. cbn [skip_ws is_json_space code]. 
    change (is_json_space ":") with false. cbv iota.
    cbn [Ascii.eqb Bool.eqb]. cbv iota.
    rewrite (Hv Hwv f (String "}" rest)); [|lia|reflexivity].
    cbn [bind]. rewrite (next_token_follow "}" rest eq_refl).
    cbn [Ascii.eqb Bool.eqb]. cbv iota. now rewrite Hset.
  - cbn [map] in *. rewrite sep_by_cons in *. rewrite length_append in Hfuel.
    cbn [parse_members]. rewrite !append_assoc.
    rewrite Hkey. cbn [bind].
    unfold next_token at 1. cbn [skip_ws].
    change (is_json_space ":") with false. cbv iota.
    cbn [Ascii.eqb Bool.eqb]. cbv iota.
    rewrite (Hv Hwv f); [|lia|reflexivity].
    cbn [bind append]. rewrite (next_token_follow "," _ eq_refl).
    cbn [Ascii.eqb Bool.eqb]. cbv iota. rewrite Hset.
    rewrite (IH Hmembers Hwf ltac:(discriminate) f (acc ++ [(k, v)])%list rest).
    + now rewrite <- List.app_assoc.
    + now rewrite <- List.app_assoc.
    + cbn [map]. rewrite length_append in Hfuel. cbn [String.length] in Hfuel. lia.
Qed.

(** ** The round trip of JSON.stringify and JSON.parse *)

Lemma parse_value_stringify (v : json) : parses_back v.
Proof.
  induction v as [| b | n | s | items IH | members IH] using json_induction;
    try apply parses_back_atoms.
  - intros Hwf fuel rest Hfuel Hrest. cbn [json_wf] in Hwf.
    destruct fuel as [|f]; [pose proof (stringify_length (JArr items)); lia|].
    destruct items as [|v items].
    + reflexivity.
    + cbn [JSON_stringify] in *. rewrite !append_assoc. cbn [append] in *.
      cbn [String.length] in Hfuel. rewrite length_append in Hfuel.
      cbn [parse_value]. rewrite (next_token_value "[" _ eq_refl).
      cbn [Ascii.eqb Bool.eqb]. cbv iota.
      change (map JSON_stringify (v :: items))
        with (JSON_stringify v :: map JSON_stringify items).
      assert (Hnext : exists c t,
                 next_token (sep_by "," (JSON_stringify v :: map JSON_stringify items)
                             ++ String "]" rest) = Some (c, t) /\
                 (c =? "]")%char = false).
      { destruct (next_token_stringify v
                    (match map JSON_stringify items with
                     | [] => String "]" rest
                     | _ => "," ++ sep_by "," (map JSON_stringify items)
                            ++ String "]" rest
                     end)) as (c & t & E & Hc & Hn).
        exists c, t.
        assert (Heq : sep_by "," (JSON_stringify v :: map JSON_stringify items)
                      ++ String "]" rest
                      = JSON_stringify v ++
                        match map JSON_stringify items with
                        | [] => String "]" rest
                        | _ => "," ++ sep_by "," (map JSON_stringify items)
                               ++ String "]" rest
                        end).
        { destruct (map JSON_stringify items); [reflexivity|].
          rewrite sep_by_cons. now rewrite !append_assoc. }
        rewrite Heq. split; [exact Hn|].
        apply value_start_char in Hc. apply negb_true_iff in Hc.
        apply orb_false_iff in Hc as [Hc _]. now apply orb_false_iff in Hc as [_ Hc]. }
      destruct Hnext as (c & t & -> & ->).
      change (JSON_stringify v :: map JSON_stringify items)
        with (map JSON_stringify (v :: items)).
      apply (parse_elements_stringify (v :: items) IH Hwf ltac:(discriminate) f [] rest).
      cbn [String.length] in Hfuel. lia.
  - intros Hwf fuel rest Hfuel Hrest. cbn [json_wf] in Hwf.
    apply andb_true_iff in Hwf as [Hkeys Hwf].
    destruct fuel as [|f]; [pose proof (stringify_length (JObj members)); lia|].
    destruct members as [|m members].
    + reflexivity.
    + change (JSON_stringify (JObj (m :: members)))
        with ("{" ++ sep_by "," (map member_text (m :: members)) ++ "}") in *.
      rewrite !append_assoc. cbn [append] in *.
      cbn [String.length] in Hfuel. rewrite length_append in Hfuel.
      cbn [parse_value]. rewrite (next_token_value "{" _ eq_refl).
      cbn [Ascii.eqb Bool.eqb]. cbv iota.
      change (map member_text (m :: members))
        with (member_text m :: map member_text members) in *.
      assert (Hnext : next_token (sep_by "," (member_text m :: map member_text members)
                                  ++ String "}" rest)
                      = Some (dquote,
                              skipn_str 1 (sep_by "," (member_text m
                                                       :: map member_text members)
                                           ++ String "}" rest))).
      { destruct (map member_text members); unfold member_text, quote, DQ;
          rewrite ?sep_by_cons; cbn [sep_by]; rewrite !append_assoc; reflexivity. }
      rewrite Hnext. change ((dquote =? "}")%char) with false. cbv iota.
      change (member_text m :: map member_text members)
        with (map member_text (m :: members)) in *.
      apply (parse_members_stringify (m :: members) IH Hwf ltac:(discriminate) f []
               rest Hkeys).
      cbn [String.length] in Hfuel. lia.
Qed.

Theorem JSON_parse_stringify (v : json) :
  json_wf v = true -> JSON_parse (JSON_stringify v) = Ok v.
Proof.
  intros Hwf. unfold JSON_parse.
  rewrite <- (append_nil_r (JSON_stringify v)) at 2.
  rewrite (parse_value_stringify v Hwf (S (String.length (JSON_stringify v))) ""
             (Nat.le_succ_diag_r _) eq_refl).
  reflexivity.
Qed.

(** ** The attribute codec *)

(** C1, as amended: for every JSON value (integers of magnitude at most
    2^53, objects with distinct keys in enumeration order) whose JSON text
    contains none of the sequences &quot; &#58; &#123; &#125;,
    escapedStringToJson gives the value back from its encoding, and encoding
    the decoded value gives the encoded string again. *)
Theorem C1_codec_round_trip (v : json) :
  json_wf v = true ->
  escape_free (JSON_stringify v) = true ->
  escapedStringToJson (jsonToEscapedString v) = Ok v /\
  (decoded <- escapedStringToJson (jsonToEscapedString v) ;;
   Ok (jsonToEscapedString decoded)) = Ok (jsonToEscapedString v).
Proof.
  intros Hwf Hfree.
  assert (H : escapedStringToJson (jsonToEscapedString v) = Ok v).
  { change (JSON_parse (unescape_text (escape_text (JSON_stringify v))) = Ok v).
    rewrite (unescape_escape_text _ Hfree). now apply JSON_parse_stringify. }
  split; [exact H|]. now rewrite H.
Qed.

Lemma C1_witness :
  escapedStringToJson (jsonToEscapedString nested_value) = Ok nested_value /\
  (decoded <- escapedStringToJson (jsonToEscapedString nested_value) ;;
   Ok (jsonToEscapedString decoded)) = Ok (jsonToEscapedString nested_value).
Proof.
  apply (C1_codec_round_trip nested_value); reflexivity.
Defined.

(** C1 as stated fails: the codec does not escape the ampersand, so a string
    value that spells one of the escapes is decoded to another value, or its
    encoding is not decodable at all. *)
Lemma C1_counterexample :
  json_wf (JStr "&#58;") = true /\
  escapedStringToJson (jsonToEscapedString (JStr "&#58;")) = Ok (JStr ":") /\
  escapedStringToJson (jsonToEscapedString (JStr "&quot;")) = Throw SyntaxError.
Proof. repeat split. Qed.

(** ** Rendering a parsed page again *)

(** C3 as stated fails: a section without columns leaves no trace in the
    markup, so the sections after it are numbered differently when the
    parsed page is rendered. *)
Lemma C3_counterexample :
  exists first second,
    snd (toHtml page_with_empty_section) = Ok first /\
    render_parse_render 3 page_with_empty_section = Ok second /\
    first <> second.
Proof.
  eexists. eexists. split; [vm_compute; reflexivity|].
  split; [vm_compute; reflexivity|]. discriminate.
Qed.

(** The factor of a column that holds controls is lost by the parse:
    mergeControlToTree creates the column with the default factor 12. *)
Lemma factor_of_column_with_controls_is_lost :
  exists first second,
    snd (toHtml page_with_text_in_half_column) = Ok first /\
    render_parse_render 5 page_with_text_in_half_column = Ok second /\
    first <> second /\
    (exists parsed, fromHtml 5 (Some first) blank_page = Ok parsed /\
                    map (fun s => map factor (columns s)) (sections parsed) = [[12]]).
Proof.
  eexists. eexists. split; [vm_compute; reflexivity|].
  split; [vm_compute; reflexivity|].
  split; [discriminate|].
  eexists. split; [vm_compute; reflexivity|]. reflexivity.
Qed.

Lemma join_app (a b : list string) : join (a ++ b) = join a ++ join b.
Proof.
  unfold join. induction a as [|x a IH]; [reflexivity|].
  cbn [List.app fold_right]. now rewrite IH, append_assoc.
Qed.

Lemma fragments_html_app (a b : list fragment) :
  fragments_html (a ++ b) = fragments_html a ++ fragments_html b.
Proof. unfold fragments_html. now rewrite map_app, join_app. Qed.

Lemma render_controls_fragments (o : Owner) (cs : list Control) :
  forallb is_text cs = true ->
  forall i,
    snd (render_each (Control_toHtml o) i cs)
    = Ok (fragments_html
            (control_fragments i (owner_factor o) (owner_sectionIndex o)
                               (owner_zoneIndex o) cs)).
Proof.
  induction cs as [|c cs IH]; intros Htext i; [reflexivity|].
  cbn [forallb] in Htext. apply andb_true_iff in Htext as [Hc Htext].
  destruct c as [b text|b p]; [|discriminate Hc].
  cbn [render_each Control_toHtml ClientSideText_toHtml control_fragments].
  specialize (IH Htext (i + 1)).
  destruct (render_each (Control_toHtml o) (i + 1) cs) as [cs' r]. cbn [snd] in *.
  rewrite IH. cbn [bind]. destruct o. reflexivity.
Qed.

Lemma render_column_fragments (zone : Z) (c : CanvasColumn) :
  forallb is_text (controls c) = true ->
  snd (CanvasColumn_toHtml zone c) = Ok (fragments_html (column_fragments zone c)).
Proof.
  intros Htext. unfold CanvasColumn_toHtml, column_fragments.
  destruct (controls c) as [|k ks] eqn:E.
  - cbn [snd fragments_html map fragment_html join fold_right].
    unfold column_placeholder. now rewrite append_nil_r.
  - pose proof (render_controls_fragments
                  {| owner_factor := factor c; owner_sectionIndex := column_order c;
                     owner_zoneIndex := zone |} (k :: ks) Htext 0) as H.
    destruct (render_each _ 0 (k :: ks)). exact H.
Qed.

Lemma render_columns_fragments (zone : Z) (cs : list CanvasColumn) :
  forallb (fun c => forallb is_text (controls c)) cs = true ->
  forall i,
    snd (render_each (fun _ => CanvasColumn_toHtml zone) i cs)
    = Ok (fragments_html (flat_map (column_fragments zone) cs)).
Proof.
  induction cs as [|c cs IH]; intros Htext i; [reflexivity|].
  cbn [forallb] in Htext. apply andb_true_iff in Htext as [Hc Htext].
  cbn [render_each flat_map]. rewrite fragments_html_app.
  pose proof (render_column_fragments zone c Hc) as H.
  destruct (CanvasColumn_toHtml zone c) as [c' r]. cbn [snd] in H. subst r.
  specialize (IH Htext (i + 1)).
  destruct (render_each _ (i + 1) cs) as [cs' r]. cbn [snd] in *.
  now rewrite IH.
Qed.

Lemma render_sections_fragments (ss : list CanvasSection) :
  only_text ss = true ->
  forall i,
    snd (render_each (fun _ => CanvasSection_toHtml) i ss)
    = Ok (fragments_html (page_fragments ss)).
Proof.
  unfold only_text, page_fragments.
  induction ss as [|s ss IH]; intros Htext i; [reflexivity|].
  cbn [forallb] in Htext. apply andb_true_iff in Htext as [Hs Htext].
  cbn [render_each flat_map]. rewrite fragments_html_app.
  unfold CanvasSection_toHtml at 1.
  pose proof (render_columns_fragments (section_order s) (columns s) Hs 0) as H.
  destruct (render_each _ 0 (columns s)) as [cs' r]. cbn [snd] in H. subst r.
  specialize (IH Htext (i + 1)).
  destruct (render_each _ (i + 1) ss) as [ss' r]. cbn [snd] in *.
  now rewrite IH.
Qed.

Lemma reindex_from_is_text_controls (cs : list Control) :
  forall i, forallb is_text (reindex_from i cs) = forallb is_text cs.
Proof.
  induction cs as [|c cs IH]; intros i; [reflexivity|].
  cbn. rewrite IH. now destruct c.
Qed.

Lemma reindex_only_text (ss : list CanvasSection) :
  only_text (reindex ss) = only_text ss.
Proof.
  unfold only_text, reindex. generalize 0 at 1.
  induction ss as [|s ss IH]; intros i; [reflexivity|].
  cbn [reindex_from forallb]. rewrite IH. f_equal.
  cbn. unfold reindex. generalize 0.
  induction (columns s) as [|c cs IHc]; intros j; [reflexivity|].
  cbn [reindex_from forallb]. rewrite IHc. f_equal.
  cbn. apply reindex_from_is_text_controls.
Qed.

(** The markup of a page of text controls: the wrapper around the fragments
    of the reindexed tree. *)
Lemma toHtml_fragments (page : ClientSidePage) :
  only_text (sections page) = true ->
  snd (toHtml page)
  = Ok ("<div>" ++ fragments_html (page_fragments (reindex (sections page))) ++ "</div>").
Proof.
  intros Htext. unfold toHtml.
  rewrite <- reindex_only_text in Htext.
  pose proof (render_sections_fragments _ Htext 0) as H.
  destruct (render_each _ 0 (reindex (sections page))) as [ss r]. cbn [snd] in *.
  now rewrite H.
Qed.

(** ** Searching in a text that is put together from parts *)

Lemma strip_lit_none (l : string) :
  forall prev s, starts_ic s l = false -> strip_lit true l prev s = None.
Proof.
  induction l as [|a l IH]; intros prev s H; [discriminate H|].
  destruct s as [|b s]; [reflexivity|].
  cbn [starts_ic strip_lit] in *.
  destruct (char_eq true a b); [|reflexivity]. now apply IH.
Qed.

Lemma strip_lit_prev (l : string) (a : ascii) :
  forall p1 p2 s, strip_lit true (String a l) p1 s = strip_lit true (String a l) p2 s.
Proof.
  intros p1 p2 s. cbn [strip_lit]. reflexivity.
Qed.

Lemma match_lit_none (l : string) (ns : list node) (prev : option ascii) (s : string) :
  starts_ic s l = false -> match_nodes true (Lit l :: ns) prev s = None.
Proof. intros H. cbn [match_nodes]. now rewrite (strip_lit_none l prev s H). Qed.

Lemma match_lit_prev (l : string) (ns : list node) (p1 p2 : option ascii) (s : string) :
  l <> "" ->
  match_nodes true (Lit l :: ns) p1 s = match_nodes true (Lit l :: ns) p2 s.
Proof.
  intros Hl. destruct l as [|a l]; [congruence|].
  cbn [match_nodes]. now rewrite (strip_lit_prev l a p1 p2).
Qed.

Lemma exec_from_prev (l : string) (re : regex) (s : string) :
  lit_first l re ->
  forall p1 p2 pos, exec_from re p1 pos s = exec_from re p2 pos s.
Proof.
  intros (ns & Hn & Hic & Hat & Hl). destruct s as [|c s]; intros p1 p2 pos;
    cbn [exec_from]; rewrite Hn, Hic, (match_lit_prev l ns p1 p2 _ Hl); reflexivity.
Qed.

(** The search passes over a part in which the first literal does not
    start. *)
Lemma exec_from_skip (l : string) (re : regex) (u v : string) :
  lit_first l re ->
  no_start l u v ->
  forall prev pos,
    exec_from re prev pos (u ++ v) = exec_from re None (pos + String.length u) v.
Proof.
  intros Hre. pose proof Hre as (ns & Hn & Hic & Hat & Hl).
  induction u as [|c u IH]; intros Hno prev pos.
  - cbn [append String.length]. rewrite Nat.add_0_r. apply (exec_from_prev l re v Hre).
  - destruct Hno as [Hc Hno]. cbn [append] in Hc.
    cbn [append exec_from]. rewrite Hn, Hic, Hat.
    rewrite (match_lit_none l ns prev _ Hc).
    rewrite (IH Hno (Some c) (S pos)). cbn [String.length]. f_equal. lia.
Qed.

Lemma no_start_app (l u1 u2 v : string) :
  no_start l u1 (u2 ++ v) -> no_start l u2 v -> no_start l (u1 ++ u2) v.
Proof.
  intros H1 H2. induction u1 as [|c u1 IH]; [exact H2|].
  destruct H1 as [Hc H1]. cbn [append no_start]. split.
  - rewrite <- append_assoc in Hc. exact Hc.
  - now apply IH.
Qed.

(** A part none of whose code units is the first one of the literal. *)
Lemma no_start_first (a : ascii) (l u v : string) :
  all_chars (fun c => negb (char_eq true a c)) u = true ->
  no_start (String a l) u v.
Proof.
  induction u as [|c u IH]; intros H; [exact I|].
  cbn [all_chars] in H. apply andb_true_iff in H as [Hc H].
  apply negb_true_iff in Hc. cbn [no_start append starts_ic]. rewrite Hc.
  split; [reflexivity | now apply IH].
Qed.

Lemma all_chars_append (P : ascii -> bool) (a b : string) :
  all_chars P (a ++ b) = all_chars P a && all_chars P b.
Proof.
  induction a as [|c a IH]; [reflexivity|].
  cbn [append all_chars]. now rewrite IH, andb_assoc.
Qed.

Lemma all_chars_weaken (P Q : ascii -> bool) (s : string) :
  (forall c, P c = true -> Q c = true) ->
  all_chars P s = true -> all_chars Q s = true.
Proof.
  intros HPQ. induction s as [|c s IH]; [reflexivity|].
  cbn [all_chars]. intros H. apply andb_true_iff in H as [Hc H].
  now rewrite (HPQ c Hc), IH.
Qed.

(** A literal that starts in [u ++ v] lies in [u], or runs from a final
    part of [u] into [v]. *)
Lemma starts_ic_app (l : string) :
  forall u v,
    starts_ic (u ++ v) l = true ->
    starts_ic u l = true \/
    ((String.length u < String.length l)%nat /\
     starts_ic v (skipn_str (String.length u) l) = true).
Proof.
  induction l as [|a l IH]; intros u v H; [now left|].
  destruct u as [|b u].
  - right. split; [cbn; lia | exact H].
  - cbn [append starts_ic] in H. apply andb_true_iff in H as [Hab H].
    destruct (IH u v H) as [Hu|[Hlen Hv]].
    + left. cbn [starts_ic]. now rewrite Hab, Hu.
    + right. cbn [String.length skipn_str]. split; [lia | exact Hv].
Qed.

Lemma includes_ic_suffix (c : ascii) (s p : string) :
  includes_ic (String c s) p = false -> includes_ic s p = false.
Proof. cbn [includes_ic]. intros H. now apply orb_false_iff in H as [_ H]. Qed.

(** A part that does not contain the literal, before a text into which no
    final part of it can run. *)
Lemma no_start_free (l u v : string) :
  includes_ic u l = false ->
  (forall r, (1 <= r < String.length l)%nat -> starts_ic v (skipn_str r l) = false) ->
  no_start l u v.
Proof.
  intros Hin Hrun. induction u as [|c u IH]; [exact I|].
  cbn [no_start]. split.
  - destruct (starts_ic (String c u ++ v) l) eqn:E; [|reflexivity].
    apply starts_ic_app in E as [E|[Hlen E]].
    + cbn [includes_ic] in Hin. now rewrite E in Hin.
    + rewrite Hrun in E; [discriminate E | cbn [String.length] in *; lia].
  - apply IH. now apply includes_ic_suffix in Hin.
Qed.

Lemma run_in_check (l v : string) :
  forallb (fun r => negb (starts_ic v (skipn_str r l))) (seq 1 (String.length l - 1))
  = true ->
  forall r, (1 <= r < String.length l)%nat -> starts_ic v (skipn_str r l) = false.
Proof.
  intros H r Hr. rewrite forallb_forall in H.
  apply negb_true_iff, H, in_seq. lia.
Qed.

(** ** Stars *)

(** A lazy capturing star stops at the first code unit at which the rest of
    the expression matches. *)
Lemma match_lazy_star (cc : cclass) (ns : list node) (a : string) :
  forall prev b m cap,
    all_chars (in_class cc) a = true ->
    (forall a1 a2 p, a = a1 ++ a2 -> a2 <> "" ->
                     match_nodes true ns p (a2 ++ b) = None) ->
    (forall p, match_nodes true ns p b = Some (m, cap)) ->
    match_nodes true (Star cc true true :: ns) prev (a ++ b)
    = Some ((String.length a + m)%nat, a).
Proof.
  induction a as [|c a IH]; intros prev b m cap Hclass Hnone Hsome;
    rewrite match_star_eq; cbv zeta.
  - cbn [append]. rewrite Hsome. cbn [capture_start String.length Nat.add].
    destruct b as [|c b]; [reflexivity|].
    destruct (in_class cc c); reflexivity.
  - cbn [all_chars] in Hclass. apply andb_true_iff in Hclass as [Hc Hclass].
    cbn [append]. rewrite Hc.
    pose proof (Hnone "" (String c a) prev eq_refl ltac:(discriminate)) as H0.
    cbn [append] in H0. rewrite H0.
    cbn [capture_start or_else].
    rewrite (IH (Some c) b m cap Hclass); [reflexivity| |exact Hsome].
    intros a1 a2 p Ha Ha2. apply (Hnone (String c a1) a2 p); [|exact Ha2].
    cbn [append]. now rewrite Ha.
Qed.

(** A star matches when the rest of the expression matches after some
    code units of its class. *)
Lemma match_star_some (cc : cclass) (lazy capture : bool) (ns : list node) (a : string) :
  forall prev b,
    all_chars (in_class cc) a = true ->
    (forall p, exists m, match_nodes true ns p b = Some m) ->
    exists m, match_nodes true (Star cc lazy capture :: ns) prev (a ++ b) = Some m.
Proof.
  induction a as [|c a IH]; intros prev b Hclass Hsome;
    rewrite match_star_eq; cbv zeta.
  - cbn [append]. destruct (Hsome prev) as [[n cap] Hm]. rewrite Hm.
    destruct b; cbn [capture_start]; [eauto|].
    destruct (in_class cc a); [|eauto].
    destruct lazy; cbn [or_else]; [eauto|].
    destruct (capture_more _ _ _); cbn [or_else]; eauto.
  - cbn [all_chars] in Hclass. apply andb_true_iff in Hclass as [Hc Hclass].
    cbn [append]. rewrite Hc.
    destruct (IH (Some c) b Hclass Hsome) as [[n cap] Hm]. rewrite Hm.
    cbn [capture_more].
    destruct (capture_start capture _) as [m0|]; destruct lazy; cbn [or_else]; eauto.
Qed.

(** A star fails when the rest of the expression fails wherever the star
    can stop. *)
Lemma match_star_none (cc : cclass) (lazy capture : bool) (ns : list node) (a : string) :
  forall prev b,
    all_chars (in_class cc) a = true ->
    (match b with String c _ => in_class cc c | EmptyString => false end) = false ->
    (forall a1 a2 p, a = a1 ++ a2 -> match_nodes true ns p (a2 ++ b) = None) ->
    match_nodes true (Star cc lazy capture :: ns) prev (a ++ b) = None.
Proof.
  induction a as [|c a IH]; intros prev b Hclass Hb Hnone;
    rewrite match_star_eq; cbv zeta.
  - cbn [append]. pose proof (Hnone "" "" prev eq_refl) as H0.
    cbn [append] in H0. rewrite H0. cbn [capture_start].
    destruct b as [|c b]; [reflexivity|]. now rewrite Hb.
  - cbn [all_chars] in Hclass. apply andb_true_iff in Hclass as [Hc Hclass].
    cbn [append]. rewrite Hc.
    pose proof (Hnone "" (String c a) prev eq_refl) as H0.
    cbn [append] in H0. rewrite H0. cbn [capture_start].
    rewrite (IH (Some c) b Hclass Hb); [now destruct lazy|].
    intros a1 a2 p Ha. apply (Hnone (String c a1) a2 p). cbn [append]. now rewrite Ha.
Qed.

(** ** Numerals and identifiers in the encoded metadata *)

Lemma all_digits_uint (d : uint) : all_chars is_digit (NilEmpty.string_of_uint d) = true.
Proof. induction d; cbn [NilEmpty.string_of_uint all_chars]; try rewrite IHd; reflexivity. Qed.

Lemma all_digits_N (n : N) : all_chars is_digit (string_of_N n) = true.
Proof. rewrite string_of_N_alt. apply all_digits_uint. Qed.

Lemma all_digits_Z (n : Z) : 0 <= n -> all_chars is_digit (string_of_Z n) = true.
Proof. intros H. rewrite (string_of_Z_nonneg n H). apply all_digits_N. Qed.

Lemma digit_is_guid_char (c : ascii) : is_digit c = true -> is_guid_char c = true.
Proof. unfold is_guid_char. now intros ->. Qed.

Lemma guid_char_is_quiet (c : ascii) : is_guid_char c = true -> is_quiet_char c = true.
Proof. revert c. apply ascii_implies. vm_compute. reflexivity. Qed.

Lemma quiet_char_facts (c : ascii) :
  is_quiet_char c = true ->
  (escape_from 0 c =? String c "")%string && (quote_char c =? String c "")%string
  && is_value_char c && negb (char_eq true "<" c) = true.
Proof. revert c. apply ascii_implies. vm_compute. reflexivity. Qed.

Lemma quiet_escape (s : string) :
  all_chars is_quiet_char s = true -> subst_chars (escape_from 0) s = s.
Proof.
  induction s as [|c s IH]; [reflexivity|]. cbn [all_chars subst_chars].
  intros H. apply andb_true_iff in H as [Hc H].
  apply quiet_char_facts in Hc. repeat (apply andb_true_iff in Hc as [Hc _]).
  apply String.eqb_eq in Hc. rewrite Hc, (IH H). reflexivity.
Qed.

Lemma quiet_quote_body (s : string) :
  all_chars is_quiet_char s = true -> quote_body s = s.
Proof.
  induction s as [|c s IH]; [reflexivity|]. cbn [all_chars quote_body].
  intros H. apply andb_true_iff in H as [Hc H].
  apply quiet_char_facts in Hc. repeat (apply andb_true_iff in Hc as [Hc ?]).
  match goal with E : (quote_char c =? _)%string = true |- _ =>
    apply String.eqb_eq in E; rewrite E end.
  now rewrite (IH H).
Qed.

Lemma quiet_is_value (s : string) :
  all_chars is_quiet_char s = true -> all_chars is_value_char s = true.
Proof.
  apply all_chars_weaken. intros c Hc.
  apply quiet_char_facts in Hc. apply andb_true_iff in Hc as [Hc _].
  now apply andb_true_iff in Hc as [_ Hc].
Qed.

Lemma digits_quiet (s : string) :
  all_chars is_digit s = true -> all_chars is_quiet_char s = true.
Proof.
  apply all_chars_weaken. intros c Hc.
  now apply guid_char_is_quiet, digit_is_guid_char.
Qed.

Lemma guid_quiet (s : string) :
  all_chars is_guid_char s = true -> all_chars is_quiet_char s = true.
Proof. apply all_chars_weaken. exact guid_char_is_quiet. Qed.

Lemma number_quiet (n : Z) : 0 <= n -> all_chars is_quiet_char (string_of_Z n) = true.
Proof. intros H. now apply digits_quiet, all_digits_Z. Qed.

(** The JSON text of the metadata of a marker and of a text control, part
    by part. *)
Lemma marker_data_text (f si zi : Z) :
  JSON_stringify (marker_data f si zi)
  = ("{" ++ DQ ++ "displayMode" ++ DQ ++ ":2," ++ DQ ++ "position" ++ DQ
     ++ ":{" ++ DQ ++ "sectionFactor" ++ DQ ++ ":")
    ++ string_of_Z f ++ ("," ++ DQ ++ "sectionIndex" ++ DQ ++ ":")
    ++ string_of_Z si ++ ("," ++ DQ ++ "zoneIndex" ++ DQ ++ ":")
    ++ string_of_Z zi ++ "}}".
Proof.
  unfold marker_data. cbn [JSON_stringify map sep_by fst snd].
  rewrite !append_assoc. reflexivity.
Qed.

Lemma text_data_text (guid : string) (k f si zi : Z) :
  all_chars is_quiet_char guid = true ->
  JSON_stringify (text_data guid k f si zi)
  = ("{" ++ DQ ++ "controlType" ++ DQ ++ ":4," ++ DQ ++ "editorType" ++ DQ
     ++ ":" ++ DQ ++ "CKEditor" ++ DQ ++ "," ++ DQ ++ "id" ++ DQ ++ ":" ++ DQ)
    ++ guid
    ++ (DQ ++ "," ++ DQ ++ "position" ++ DQ ++ ":{" ++ DQ ++ "controlIndex" ++ DQ ++ ":")
    ++ string_of_Z k ++ ("," ++ DQ ++ "sectionFactor" ++ DQ ++ ":")
    ++ string_of_Z f ++ ("," ++ DQ ++ "sectionIndex" ++ DQ ++ ":")
    ++ string_of_Z si ++ ("," ++ DQ ++ "zoneIndex" ++ DQ ++ ":")
    ++ string_of_Z zi ++ "}}".
Proof.
  intros Hg. rewrite <- (quiet_quote_body guid Hg) at 2.
  unfold text_data. cbn [JSON_stringify map sep_by fst snd]. unfold quote.
  rewrite !append_assoc. reflexivity.
Qed.

(** The encoded metadata of a marker, part by part. *)
Lemma marker_data_encoded (f si zi : Z) :
  0 <= f -> 0 <= si -> 0 <= zi ->
  jsonToEscapedString (marker_data f si zi)
  = "&#123;&quot;displayMode&quot;&#58;2,&quot;position&quot;&#58;&#123;&quot;sectionFactor&quot;&#58;"
    ++ string_of_Z f ++ ",&quot;sectionIndex&quot;&#58;"
    ++ string_of_Z si ++ ",&quot;zoneIndex&quot;&#58;"
    ++ string_of_Z zi ++ "&#125;&#125;".
Proof.
  intros Hf Hsi Hzi.
  change (jsonToEscapedString (marker_data f si zi))
    with (escape_text (JSON_stringify (marker_data f si zi))).
  rewrite escape_text_subst, marker_data_text, !subst_chars_append.
  rewrite !(quiet_escape (string_of_Z _)) by now apply number_quiet.
  reflexivity.
Qed.

(** The encoded metadata of a text control, part by part. *)
Lemma text_data_encoded (guid : string) (k f si zi : Z) :
  all_chars is_guid_char guid = true ->
  0 <= k -> 0 <= f -> 0 <= si -> 0 <= zi ->
  jsonToEscapedString (text_data guid k f si zi)
  = "&#123;&quot;controlType&quot;&#58;4,&quot;editorType&quot;&#58;&quot;CKEditor&quot;,&quot;id&quot;&#58;&quot;"
    ++ guid ++ "&quot;,&quot;position&quot;&#58;&#123;&quot;controlIndex&quot;&#58;"
    ++ string_of_Z k ++ ",&quot;sectionFactor&quot;&#58;"
    ++ string_of_Z f ++ ",&quot;sectionIndex&quot;&#58;"
    ++ string_of_Z si ++ ",&quot;zoneIndex&quot;&#58;"
    ++ string_of_Z zi ++ "&#125;&#125;".
Proof.
  intros Hg Hk Hf Hsi Hzi. apply guid_quiet in Hg.
  change (jsonToEscapedString (text_data guid k f si zi))
    with (escape_text (JSON_stringify (text_data guid k f si zi))).
  rewrite escape_text_subst, (text_data_text guid k f si zi Hg), !subst_chars_append.
  rewrite !(quiet_escape (string_of_Z _)) by now apply number_quiet.
  rewrite (quiet_escape guid Hg).
  reflexivity.
Qed.

Lemma mismatch_starts (l : string) :
  forall s v, mismatch s l = true -> starts_ic (s ++ v) l = false.
Proof.
  induction l as [|a l IH]; intros s v H; [discriminate H|].
  destruct s as [|b s]; [discriminate H|].
  cbn [mismatch append starts_ic] in *.
  destruct (char_eq true a b); [|reflexivity]. now apply IH.
Qed.

Lemma clear_no_start (l u : string) :
  clear_of l u = true -> forall v, no_start l u v.
Proof.
  induction u as [|c u IH]; intros H v; [exact I|].
  cbn [clear_of] in H. apply andb_true_iff in H as [Hc H].
  cbn [no_start]. split; [now apply mismatch_starts | now apply IH].
Qed.

Lemma no_start_split (l u v : string) :
  no_start l u v ->
  forall a1 a2, u = a1 ++ a2 -> a2 <> "" -> starts_ic (a2 ++ v) l = false.
Proof.
  induction u as [|c u IH]; intros H a1 a2 Hu Ha2.
  - destruct a1, a2; try discriminate Hu. congruence.
  - destruct H as [Hc H]. destruct a1 as [|d a1].
    + cbn [append] in Hu. subst a2. exact Hc.
    + cbn [append] in Hu. inversion Hu; subst. now apply (IH H a1 a2).
Qed.

(** ** Positions *)

Lemma skipn_str_append (a b : string) : skipn_str (String.length a) (a ++ b) = b.
Proof. induction a as [|c a IH]; [now destruct b | exact IH]. Qed.

Lemma firstn_str_append (a b : string) : firstn_str (String.length a) (a ++ b) = a.
Proof.
  induction a as [|c a IH]; [now destruct b|].
  cbn [String.length append firstn_str]. now rewrite IH.
Qed.

Lemma len_append (a b : string) : len (a ++ b) = len a + len b.
Proof. unfold len. rewrite length_append. lia. Qed.

Lemma len_nonneg (s : string) : 0 <= len s.
Proof. unfold len. lia. Qed.

Lemma clamp_prefix (a b : string) : clamp (a ++ b) (len a) = String.length a.
Proof.
  unfold clamp. rewrite len_append. pose proof (len_nonneg a). pose proof (len_nonneg b).
  unfold len in *. lia.
Qed.

Lemma substring_from_append (a b : string) : substring_from (a ++ b) (len a) = b.
Proof. unfold substring_from. rewrite clamp_prefix. apply skipn_str_append. Qed.

Lemma substring_middle (a b c : string) :
  substring (a ++ b ++ c) (len a) (len a + len b) = b.
Proof.
  unfold substring.
  rewrite clamp_prefix.
  replace (len a + len b) with (len (a ++ b)) by apply len_append.
  rewrite <- append_assoc, clamp_prefix, length_append.
  rewrite Nat.min_l, Nat.max_r by lia.
  replace (String.length a + String.length b - String.length a)%nat
    with (String.length b) by lia.
  rewrite append_assoc, skipn_str_append. apply firstn_str_append.
Qed.

(** ** White space *)

Lemma strip_tab_cr_lf_append (a b : string) :
  strip_tab_cr_lf (a ++ b) = strip_tab_cr_lf a ++ strip_tab_cr_lf b.
Proof.
  induction a as [|c a IH]; [reflexivity|].
  cbn [append strip_tab_cr_lf]. rewrite IH.
  now destruct ((code c =? 9)%N || (code c =? 13)%N || (code c =? 10)%N).
Qed.

Lemma strip_tab_cr_lf_tag (s : string) :
  all_chars is_tag_char s = true -> strip_tab_cr_lf s = s.
Proof.
  induction s as [|c s IH]; [reflexivity|].
  cbn [all_chars strip_tab_cr_lf]. intros H. apply andb_true_iff in H as [Hc H].
  rewrite (IH H). unfold is_tag_char in Hc.
  apply negb_true_iff in Hc.
  destruct (c =? "<")%char, (c =? ">")%char, (code c =? 9)%N, (code c =? 13)%N,
    (code c =? 10)%N; try discriminate Hc; reflexivity.
Qed.

Lemma trim_end_last (a : string) (c : ascii) :
  is_space c = false -> trim_end (a ++ String c "") = a ++ String c "".
Proof.
  intros Hc. induction a as [|d a IH].
  - cbn. now rewrite Hc.
  - cbn [append trim_end]. rewrite IH.
    destruct a; reflexivity.
Qed.

(** ** Searching *)

Lemma exec_from_step (re : regex) (prev : option ascii) (pos : nat) (c : ascii)
      (s : string) :
  re_atStart re = false ->
  match_nodes (re_ignoreCase re) (re_nodes re) prev (String c s) = None ->
  exec_from re prev pos (String c s) = exec_from re (Some c) (S pos) s.
Proof. intros Hat Hm. cbn [exec_from]. now rewrite Hm, Hat. Qed.

Lemma exec_from_here (re : regex) (prev : option ascii) (pos : nat) (s : string)
      (m : found) :
  match_nodes (re_ignoreCase re) (re_nodes re) prev s = Some m ->
  exec_from re prev pos s = Some (pos, m).
Proof. intros Hm. destruct s; cbn [exec_from]; now rewrite Hm. Qed.

(** The search finds the first match after a part in which the first literal
    does not start. *)
Lemma search_after (l : string) (re : regex) (u v : string) (m : found) :
  lit_first l re ->
  no_start l u v ->
  match_nodes true (re_nodes re) None v = Some m ->
  search re (u ++ v) = len u.
Proof.
  intros Hre Hno Hm. unfold search, exec.
  rewrite (exec_from_skip l re u v Hre Hno).
  pose proof Hre as (ns & Hn & Hic & Hat & Hl).
  rewrite (exec_from_here re None _ v m); [reflexivity|]. now rewrite Hic.
Qed.

Lemma exec_from_pos (re : regex) (s : string) :
  forall prev pos p m, exec_from re prev pos s = Some (p, m) -> (pos <= p)%nat.
Proof.
  induction s as [|c s IH]; intros prev pos p m H; cbn [exec_from] in H.
  - destruct (match_nodes _ _ _ _); [inversion H; lia|].
    destruct (re_atStart re); discriminate H.
  - destruct (match_nodes _ _ _ _); [inversion H; lia|].
    destruct (re_atStart re); [discriminate H|].
    apply IH in H. lia.
Qed.

(** The search finds nothing before the end of such a part. *)
Lemma search_beyond (l : string) (re : regex) (u v : string) :
  lit_first l re ->
  no_start l u v ->
  search re (u ++ v) = -1 \/ len u <= search re (u ++ v).
Proof.
  intros Hre Hno. unfold search, exec.
  rewrite (exec_from_skip l re u v Hre Hno).
  destruct (exec_from re None _ v) as [[p m]|] eqn:E; [right | now left].
  apply exec_from_pos in E. unfold len. lia.
Qed.

Lemma search_nowhere (l : string) (re : regex) (u : string) :
  lit_first l re ->
  no_start l u "" ->
  search re u = -1.
Proof.
  intros Hre Hno. unfold search, exec.
  rewrite <- (append_nil_r u) at 1.
  rewrite (exec_from_skip l re u "" Hre Hno).
  pose proof Hre as (ns & Hn & Hic & Hat & Hl).
  cbn [exec_from]. rewrite Hn, Hic, Hat.
  destruct l as [|a l]; [congruence|]. reflexivity.
Qed.

Lemma regexIndexOf_at (a b : string) (re : regex) :
  regexIndexOf (a ++ b) re (len a)
  = (if 0 <=? search re b then search re b + len a else search re b).
Proof. unfold regexIndexOf. now rewrite substring_from_append. Qed.

Lemma lit_first_div_open : lit_first "<div" re_div_open.
Proof. eexists. repeat split. discriminate. Qed.

Lemma lit_first_div_close : lit_first "</div>" re_div_close.
Proof. eexists. repeat split. discriminate. Qed.

Lemma lit_first_canvascontrol : lit_first "<div" re_canvascontrol.
Proof. eexists. repeat split. discriminate. Qed.

Lemma lit_first_rte : lit_first "<div" re_rte.
Proof. eexists. repeat split. discriminate. Qed.

Lemma lit_first_controlType : lit_first "controlType&quot;&#58;" re_controlType.
Proof. eexists. repeat split. discriminate. Qed.

Lemma lit_first_attr (attrName : string) :
  lit_first (attrName ++ "=" ++ DQ) (re_attr attrName).
Proof. eexists. repeat split. now destruct attrName. Qed.

Lemma value_char_facts (c : ascii) :
  is_value_char c = true ->
  negb (char_eq true "<" c) && in_class (NotChar ">") c && in_class (NotChar dquote) c
  && is_tag_char c && is_line_char c = true.
Proof. revert c. apply ascii_implies. vm_compute. reflexivity. Qed.

Lemma value_no_lt (enc : string) :
  all_chars is_value_char enc = true ->
  all_chars (fun c => negb (char_eq true "<" c)) enc = true.
Proof.
  apply all_chars_weaken. intros c Hc. apply value_char_facts in Hc.
  now repeat (apply andb_true_iff in Hc as [Hc _]).
Qed.

Lemma value_in_tag (enc : string) :
  all_chars is_value_char enc = true ->
  all_chars (in_class (NotChar ">")) enc = true.
Proof.
  apply all_chars_weaken. intros c Hc. apply value_char_facts in Hc.
  repeat (apply andb_true_iff in Hc as [Hc ?]). assumption.
Qed.

Lemma value_no_quote (enc : string) :
  all_chars is_value_char enc = true ->
  all_chars (in_class (NotChar dquote)) enc = true.
Proof.
  apply all_chars_weaken. intros c Hc. apply value_char_facts in Hc.
  repeat (apply andb_true_iff in Hc as [Hc ?]). assumption.
Qed.

Lemma value_is_tag (enc : string) :
  all_chars is_value_char enc = true -> all_chars is_tag_char enc = true.
Proof.
  apply all_chars_weaken. intros c Hc. apply value_char_facts in Hc.
  repeat (apply andb_true_iff in Hc as [Hc ?]). assumption.
Qed.

Lemma tag_rest_no_lt (enc : string) :
  all_chars is_value_char enc = true ->
  all_chars (fun c => negb (char_eq true "<" c)) (tag_rest enc) = true.
Proof.
  intros H. unfold tag_rest. rewrite !all_chars_append, (value_no_lt enc H). reflexivity.
Qed.

Lemma search_le (re : regex) (s : string) : search re s <= len s.
Proof.
  unfold search, exec, len.
  assert (H : forall s prev pos p m,
             exec_from re prev pos s = Some (p, m) -> (p <= pos + String.length s)%nat).
  { clear s. induction s as [|c s IH]; intros prev pos p m H; cbn [exec_from] in H.
    - destruct (match_nodes _ _ _ _); [inversion H; lia|].
      destruct (re_atStart re); discriminate H.
    - destruct (match_nodes _ _ _ _); [inversion H; cbn; lia|].
      destruct (re_atStart re); [discriminate H|].
      apply IH in H. cbn [String.length]. lia. }
  destruct (exec_from re None 0 s) as [[p m]|] eqn:E; [|lia].
  apply H in E. lia.
Qed.

(** ** One turn of the inner loop *)

(** The next tag is a closing one. *)
Lemma next_tag_close (a s : string) (counter c : Z) :
  search re_div_close s = c -> 0 <= c ->
  (search re_div_open s = -1 \/ c < search re_div_open s) ->
  next_tag (a ++ s) counter (len a) = (counter - 1, c + len a + 1, c + len a).
Proof.
  intros Hc Hc0 Ho. unfold next_tag. rewrite !regexIndexOf_at, Hc.
  pose proof (search_le re_div_close s) as Hle. rewrite Hc in Hle.
  pose proof (len_nonneg a) as Ha. rewrite len_append.
  destruct (0 <=? c) eqn:E0; [|lia].
  destruct Ho as [Ho|Ho].
  - rewrite Ho. cbn [Z.leb Z.ltb Z.compare Z.opp].
    destruct (len a + len s + 1 <? c + len a) eqn:E1; [lia|].
    destruct (c + len a <? len a + len s + 1) eqn:E2; [reflexivity | lia].
  - destruct (0 <=? search re_div_open s) eqn:E3; [|lia].
    destruct (search re_div_open s + len a <? 0) eqn:E4; [lia|].
    destruct (search re_div_open s + len a <? c + len a) eqn:E1; [lia|].
    destruct (c + len a <? search re_div_open s + len a) eqn:E2; [reflexivity | lia].
Qed.

(** The next tag is an opening one. *)
Lemma next_tag_open (a s : string) (counter o c : Z) :
  search re_div_open s = o -> 0 <= o ->
  search re_div_close s = c -> o < c ->
  next_tag (a ++ s) counter (len a) = (counter + 1, o + len a + 1, c + len a).
Proof.
  intros Ho Ho0 Hc Hoc. unfold next_tag. rewrite !regexIndexOf_at, Hc, Ho.
  pose proof (len_nonneg a) as Ha.
  destruct (0 <=? o) eqn:E0; [|lia].
  destruct (0 <=? c) eqn:E1; [|lia].
  destruct (o + len a <? 0) eqn:E2; [lia|].
  destruct (o + len a <? c + len a) eqn:E3; [reflexivity | lia].
Qed.

Lemma match_div_close (prev : option ascii) (rest : string) :
  match_nodes true (re_nodes re_div_close) prev ("</div>" ++ rest) = Some (6%nat, "").
Proof. reflexivity. Qed.

(** An opening tag is matched up to its first closing angle bracket. *)
Lemma match_div_open (prev : option ascii) (a rest : string) :
  all_chars (in_class (NotChar ">")) a = true ->
  exists m, match_nodes true (re_nodes re_div_open) prev ("<div" ++ a ++ ">" ++ rest)
            = Some m.
Proof.
  intros Ha. cbn [re_nodes re_div_open].
  change (match_nodes true [Lit "<div"; Star (NotChar ">") false false; Lit ">"] prev
            ("<div" ++ a ++ ">" ++ rest))
    with (advance 4 (match_nodes true [Star (NotChar ">") false false; Lit ">"]
                       (Some "v"%char) (a ++ ">" ++ rest))).
  destruct (match_star_some (NotChar ">") false false [Lit ">"] a (Some "v"%char)
              (">" ++ rest) Ha) as [[n cap] Hm].
  - intros p. eexists. reflexivity.
  - rewrite Hm. eexists. reflexivity.
Qed.

(** ** The literals of the scan in the parts of a block *)

Lemma plain_text_parts (text : string) :
  plain_text text = true ->
  all_chars is_line_char text = true /\
  includes_ic text "<div" = false /\ includes_ic text "</div>" = false.
Proof.
  unfold plain_text. intros H.
  apply andb_true_iff in H as [H H3]. apply andb_true_iff in H as [H1 H2].
  apply negb_true_iff in H2, H3. now repeat split.
Qed.

Lemma no_close_in_text (text w : string) :
  plain_text text = true -> no_start "</div>" text ("</div>" ++ w).
Proof.
  intros H. apply plain_text_parts in H as (_ & _ & H).
  apply no_start_free; [exact H|]. apply run_in_check. reflexivity.
Qed.

Lemma no_open_in_text (text w : string) :
  plain_text text = true -> no_start "<div" text ("</div>" ++ w).
Proof.
  intros H. apply plain_text_parts in H as (_ & H & _).
  apply no_start_free; [exact H|]. apply run_in_check. reflexivity.
Qed.

Lemma no_close_in_tag (enc v : string) :
  all_chars is_value_char enc = true -> no_start "</div>" (tag_rest enc) v.
Proof. intros H. apply no_start_first. now apply tag_rest_no_lt. Qed.

Lemma no_open_in_tag (enc v : string) :
  all_chars is_value_char enc = true -> no_start "<div" (tag_rest enc) v.
Proof. intros H. apply no_start_first. now apply tag_rest_no_lt. Qed.

(** ** The inner loop on the two kinds of block *)

(** The placeholder of a column is closed by the first closing tag. *)
Lemma find_close_marker (p enc rest : string) (fuel : nat) :
  all_chars is_value_char enc = true ->
  find_close (S fuel) (p ++ marker_block enc ++ rest) 1 (len p + 1)
  = Ok (len p + len (open_tag enc)).
Proof.
  intros Henc. unfold marker_block, open_tag.
  replace (p ++ (("<" ++ tag_rest enc) ++ "</div>") ++ rest)
    with ((p ++ "<") ++ (tag_rest enc ++ ("</div>" ++ rest)))
    by (rewrite !append_assoc; reflexivity).
  replace (len p + 1) with (len (p ++ "<")) by (rewrite len_append; reflexivity).
  cbn [find_close]. unfold close_step.
  rewrite (next_tag_close (p ++ "<") _ 1 (len (tag_rest enc))).
  - cbv beta iota zeta. change (1 - 1 =? 0) with true. cbv iota. f_equal.
    rewrite !len_append. change (len "<") with 1. lia.
  - apply (search_after "</div>" re_div_close _ _ (6%nat, "") lit_first_div_close).
    + now apply no_close_in_tag.
    + reflexivity.
  - apply len_nonneg.
  - rewrite <- append_assoc.
    destruct (search_beyond "<div" re_div_open (tag_rest enc ++ "</div>") rest
                lit_first_div_open) as [H|H].
    + apply no_start_app; [now apply no_open_in_tag|].
      now apply clear_no_start.
    + now left.
    + right. rewrite len_append in H. change (len "</div>") with 6 in H. lia.
Qed.

(** A text control is closed by the third tag after its opening tag: the
    content holder is opened and closed first. *)
Lemma find_close_text (p enc text rest : string) (fuel : nat) :
  all_chars is_value_char enc = true ->
  plain_text text = true ->
  find_close (S (S (S fuel))) (p ++ text_block enc text ++ rest) 1 (len p + 1)
  = Ok (len p + len (open_tag enc ++ rte_open ++ text ++ "</div>")).
Proof.
  intros Henc Htext. unfold text_block, open_tag.
  (* the first turn: the content holder opens *)
  replace (p ++ (("<" ++ tag_rest enc) ++ rte_open ++ text ++ "</div>" ++ "</div>") ++ rest)
    with ((p ++ "<") ++ (tag_rest enc ++ (rte_open ++ text ++ "</div>" ++ "</div>" ++ rest)))
    by (rewrite !append_assoc; reflexivity).
  replace (len p + 1) with (len (p ++ "<")) by (rewrite len_append; reflexivity).
  cbn [find_close]. unfold close_step at 1.
  destruct (match_div_open None (" data-sp-rte=" ++ DQ ++ DQ)
              (text ++ "</div>" ++ "</div>" ++ rest) eq_refl) as [m1 Hm1].
  rewrite (next_tag_open (p ++ "<") _ 1 (len (tag_rest enc))
             (len (tag_rest enc ++ rte_open ++ text))).
  2:{ apply (search_after "<div" re_div_open _ _ m1 lit_first_div_open).
      - now apply no_open_in_tag.
      - exact Hm1. }
  2:{ apply len_nonneg. }
  2:{ replace (tag_rest enc ++ rte_open ++ text ++ "</div>" ++ "</div>" ++ rest)
        with ((tag_rest enc ++ rte_open ++ text) ++ ("</div>" ++ "</div>" ++ rest))
        by (rewrite !append_assoc; reflexivity).
      apply (search_after "</div>" re_div_close _ _ (6%nat, "") lit_first_div_close).
      - apply no_start_app; [now apply no_close_in_tag|].
        apply no_start_app; [now apply clear_no_start|].
        now apply no_close_in_text.
      - reflexivity. }
  2:{ rewrite !len_append. pose proof (len_nonneg text).
      change (len rte_open) with 20. lia. }
  cbv beta iota zeta. change (1 + 1) with 2. change (2 =? 0) with false.
  change ((1000 <? 2) || (2 <? 0)) with false. cbv iota.
  (* the second turn: the content holder closes *)
  replace ((p ++ "<") ++ tag_rest enc ++ rte_open ++ text ++ "</div>" ++ "</div>" ++ rest)
    with ((p ++ "<" ++ tag_rest enc ++ "<")
          ++ (rte_rest ++ text ++ "</div>" ++ "</div>" ++ rest))
    by (rewrite !append_assoc; reflexivity).
  replace (len (tag_rest enc) + len (p ++ "<") + 1)
    with (len (p ++ "<" ++ tag_rest enc ++ "<"))
    by (rewrite !len_append; change (len "<") with 1; lia).
  unfold close_step at 1.
  rewrite (next_tag_close (p ++ "<" ++ tag_rest enc ++ "<") _ 2 (len (rte_rest ++ text))).
  2:{ replace (rte_rest ++ text ++ "</div>" ++ "</div>" ++ rest)
        with ((rte_rest ++ text) ++ ("</div>" ++ "</div>" ++ rest))
        by (rewrite !append_assoc; reflexivity).
      apply (search_after "</div>" re_div_close _ _ (6%nat, "") lit_first_div_close).
      - apply no_start_app; [now apply clear_no_start|].
        now apply no_close_in_text.
      - reflexivity. }
  2:{ apply len_nonneg. }
  2:{ replace (rte_rest ++ text ++ "</div>" ++ "</div>" ++ rest)
        with ((rte_rest ++ text ++ "</div>") ++ ("</div>" ++ rest))
        by (rewrite !append_assoc; reflexivity).
      destruct (search_beyond "<div" re_div_open (rte_rest ++ text ++ "</div>")
                  ("</div>" ++ rest) lit_first_div_open) as [H|H].
      - apply no_start_app; [now apply clear_no_start|].
        apply no_start_app; [now apply no_open_in_text|].
        now apply clear_no_start.
      - now left.
      - right. rewrite !len_append in *. change (len "</div>") with 6 in H. lia. }
  cbv beta iota zeta. change (2 - 1) with 1. change (1 =? 0) with false.
  change ((1000 <? 1) || (1 <? 0)) with false. cbv iota.
  (* the third turn: the control closes *)
  replace ((p ++ "<" ++ tag_rest enc ++ "<")
           ++ rte_rest ++ text ++ "</div>" ++ "</div>" ++ rest)
    with ((p ++ "<" ++ tag_rest enc ++ "<" ++ rte_rest ++ text ++ "<")
          ++ ("/div>" ++ "</div>" ++ rest))
    by (rewrite !append_assoc; reflexivity).
  replace (len (rte_rest ++ text) + len (p ++ "<" ++ tag_rest enc ++ "<") + 1)
    with (len (p ++ "<" ++ tag_rest enc ++ "<" ++ rte_rest ++ text ++ "<"))
    by (rewrite !len_append; change (len "<") with 1; lia).
  unfold close_step at 1.
  rewrite (next_tag_close _ _ 1 5).
  2:{ apply (search_after "</div>" re_div_close "/div>" _ (6%nat, "") lit_first_div_close).
      - now apply clear_no_start.
      - reflexivity. }
  2:{ lia. }
  2:{ destruct (search_beyond "<div" re_div_open "/div></div>" rest lit_first_div_open)
        as [H|H].
      - now apply clear_no_start.
      - now left.
      - right. change (len "/div></div>") with 11 in H.
        change ("/div>" ++ "</div>" ++ rest) with ("/div></div>" ++ rest). lia. }
  cbv beta iota zeta. change (1 - 1 =? 0) with true. cbv iota. f_equal.
  rewrite !len_append. change (len "<") with 1. change (len "</div>") with 6.
  change (len rte_open) with (1 + len rte_rest). lia.
Qed.

(** ** The boundary pattern *)

Lemma strip_lit_self (l : string) :
  forall prev s, strip_lit true l prev (l ++ s) = Some (last_unit l prev, s).
Proof.
  induction l as [|a l IH]; intros prev s; [reflexivity|].
  cbn [append strip_lit last_unit].
  replace (char_eq true a a) with true
    by (unfold char_eq; symmetry; apply Ascii.eqb_refl).
  apply IH.
Qed.

Lemma match_lit_self (l : string) (ns : list node) (prev : option ascii) (s : string) :
  match_nodes true (Lit l :: ns) prev (l ++ s)
  = advance (String.length l) (match_nodes true ns (last_unit l prev) s).
Proof. cbn [match_nodes]. now rewrite strip_lit_self. Qed.

Lemma match_boundary (ns : list node) (prev : option ascii) (s : string) :
  xorb (word_before prev) (word_after s) = true ->
  match_nodes true (WordBoundary :: ns) prev s = match_nodes true ns prev s.
Proof. intros H. cbn [match_nodes]. now rewrite H. Qed.

Lemma match_star_stop (cc : cclass) (lazy capture : bool) (ns : list node)
      (prev : option ascii) (c : ascii) (s : string) :
  in_class cc c = false ->
  match_nodes true (Star cc lazy capture :: ns) prev (String c s)
  = capture_start capture (match_nodes true ns prev (String c s)).
Proof. intros H. rewrite match_star_eq. cbv zeta. now rewrite H. Qed.

Lemma match_canvascontrol (prev : option ascii) (enc rest : string) :
  all_chars is_value_char enc = true ->
  exists m, match_nodes true (re_nodes re_canvascontrol) prev (open_tag enc ++ rest)
            = Some m.
Proof.
  intros Henc.
  replace (open_tag enc ++ rest)
    with ("<div" ++ (" " ++ ("data-sp-canvascontrol"
          ++ ((skipn_str 26 tag_head ++ enc ++ DQ) ++ (">" ++ rest)))))
    by (unfold open_tag, tag_rest; rewrite !append_assoc; reflexivity).
  unfold re_canvascontrol, re_nodes.
  rewrite match_lit_self, match_boundary by reflexivity.
  destruct (match_star_some (NotChar ">") false false
              [Lit "data-sp-canvascontrol"; Star (NotChar ">") true false; Lit ">"]
              " " (last_unit "<div" prev)
              ("data-sp-canvascontrol"
               ++ ((skipn_str 26 tag_head ++ enc ++ DQ) ++ (">" ++ rest)))
              eq_refl) as [[n cap] Hm].
  - intros p. rewrite match_lit_self.
    destruct (match_star_some (NotChar ">") true false [Lit ">"]
                (skipn_str 26 tag_head ++ enc ++ DQ)
                (last_unit "data-sp-canvascontrol" p) (">" ++ rest))
      as [[n cap] Hm].
    + rewrite !all_chars_append, (value_in_tag enc Henc). reflexivity.
    + intros q. rewrite match_lit_self. eexists. reflexivity.
    + rewrite Hm. eexists. reflexivity.
  - rewrite Hm. eexists. reflexivity.
Qed.

(** The opening tag of the page is no canvas control. *)
Lemma match_canvascontrol_wrapper (prev : option ascii) (rest : string) :
  match_nodes true (re_nodes re_canvascontrol) prev ("<div" ++ (">" ++ rest)) = None.
Proof.
  unfold re_canvascontrol, re_nodes.
  rewrite match_lit_self, match_boundary by reflexivity.
  change (">" ++ rest) with (String ">" rest).
  rewrite match_star_stop by reflexivity.
  rewrite match_lit_none; reflexivity.
Qed.

(** After the closing tag of a block the boundary pattern finds the next
    block at once. *)
Lemma next_block_found (a rest : string) :
  block_follows rest ->
  regexIndexOf (a ++ "</div>" ++ rest) re_canvascontrol (len a) = len a + 6.
Proof.
  intros (enc & more & Henc & ->).
  rewrite regexIndexOf_at.
  destruct (match_canvascontrol None enc more Henc) as [m Hm].
  rewrite (search_after "<div" re_canvascontrol "</div>" _ m lit_first_canvascontrol).
  - change (len "</div>") with 6. cbn [Z.leb Z.compare]. lia.
  - now apply clear_no_start.
  - exact Hm.
Qed.

(** After the last block it finds nothing. *)
Lemma no_next_block (a : string) :
  regexIndexOf (a ++ "</div>" ++ "</div>") re_canvascontrol (len a) = -1.
Proof.
  rewrite regexIndexOf_at.
  replace (search re_canvascontrol ("</div>" ++ "</div>")) with (-1)
    by (vm_compute; reflexivity).
  reflexivity.
Qed.

(** In the markup of a page it finds the first block after the opening tag
    of the page. *)
Lemma first_block_found (rest : string) :
  block_follows rest ->
  regexIndexOf ("<div>" ++ rest) re_canvascontrol 0 = 5.
Proof.
  intros (enc & more & Henc & ->).
  change (regexIndexOf ("<div>" ++ open_tag enc ++ more) re_canvascontrol 0)
    with (regexIndexOf ("" ++ "<div>" ++ open_tag enc ++ more) re_canvascontrol (len "")).
  rewrite regexIndexOf_at.
  destruct (match_canvascontrol None enc more Henc) as [m Hm].
  assert (H : search re_canvascontrol ("<div>" ++ open_tag enc ++ more) = 5).
  { unfold search, exec.
    change ("<div>" ++ open_tag enc ++ more)
      with (String "<" ("div>" ++ open_tag enc ++ more)).
    rewrite exec_from_step;
      [|reflexivity|exact (match_canvascontrol_wrapper None (open_tag enc ++ more))].
    rewrite (exec_from_skip "<div" re_canvascontrol "div>" _ lit_first_canvascontrol).
    - rewrite (exec_from_here re_canvascontrol None _ _ m Hm). reflexivity.
    - now apply clear_no_start. }
  rewrite H. reflexivity.
Qed.

(** ** A block in the text of the page *)

Lemma block_untrimmed (x : string) : is_block x -> trim x = x.
Proof.
  intros (enc & _ & [->|(text & _ & ->)]); unfold trim.
  - change (trim_start (marker_block enc)) with (marker_block enc).
    replace (marker_block enc) with ((open_tag enc ++ "</div") ++ ">")
      by (unfold marker_block; rewrite !append_assoc; reflexivity).
    now apply trim_end_last.
  - change (trim_start (text_block enc text)) with (text_block enc text).
    replace (text_block enc text)
      with ((open_tag enc ++ rte_open ++ text ++ "</div>" ++ "</div") ++ ">")
      by (unfold text_block; rewrite !append_assoc; reflexivity).
    now apply trim_end_last.
Qed.

(** The inner loop finds the closing tag of the block: its last six code
    units. *)
Lemma find_close_block (p x rest : string) (fuel : nat) :
  is_block x ->
  exists body,
    x = body ++ "</div>" /\
    find_close (S (S (S fuel))) (p ++ x ++ rest) 1 (len p + 1) = Ok (len p + len body).
Proof.
  intros (enc & Henc & [->|(text & Htext & ->)]).
  - exists (open_tag enc). split; [reflexivity|]. now apply find_close_marker.
  - exists (open_tag enc ++ rte_open ++ text ++ "</div>").
    split; [unfold text_block; now rewrite !append_assoc|].
    now apply find_close_text.
Qed.

Lemma block_starts (x rest : string) :
  is_block x -> block_follows (x ++ rest).
Proof.
  intros (enc & Henc & [->|(text & _ & ->)]); exists enc; eexists;
    (split; [exact Henc|]).
  - unfold marker_block. now rewrite append_assoc.
  - unfold text_block. now rewrite append_assoc.
Qed.

(** ** The outer loop *)

Lemma scan_block (p x rest : string) (acc : list string) (fuel : nat) :
  is_block x ->
  scan_blocks re_canvascontrol (fun markup (st : unit) => Ok (markup, st))
              (S (S (S fuel))) (p ++ x ++ rest) (len p) acc tt
  = scan_blocks re_canvascontrol (fun markup (st : unit) => Ok (markup, st))
                (S (S fuel)) (p ++ x ++ rest)
                (regexIndexOf (p ++ x ++ rest) re_canvascontrol (len p + len x - 6))
                (acc ++ [x])%list tt.
Proof.
  intros Hx. pose proof (len_nonneg p) as Hp.
  destruct (find_close_block p x rest fuel Hx) as (body & Hbody & Hclose).
  cbn [scan_blocks].
  destruct (-1 <? len p) eqn:E; [|lia].
  rewrite Hclose. cbn [bind].
  replace (len p + len body + 6) with (len p + len x)
    by (rewrite Hbody, len_append; change (len "</div>") with 6; lia).
  rewrite substring_middle, (block_untrimmed x Hx).
  replace (len p + len x - 6) with (len p + len body)
    by (rewrite Hbody, len_append; change (len "</div>") with 6; lia).
  reflexivity.
Qed.

Lemma scan_blocks_all (xs : list string) :
  forall p acc fuel,
    Forall is_block xs -> xs <> [] ->
    (List.length xs + 2 <= fuel)%nat ->
    scan_blocks re_canvascontrol (fun markup (st : unit) => Ok (markup, st))
                fuel (p ++ join xs ++ "</div>") (len p) acc tt
    = Ok ((acc ++ xs)%list, tt).
Proof.
  induction xs as [|x xs IH]; intros p acc fuel Hxs Hne Hfuel; [congruence|].
  inversion Hxs as [|? ? Hx Hxs']; subst.
  destruct fuel as [|[|[|fuel]]]; cbn [List.length] in Hfuel; try lia.
  change (join (x :: xs)) with (x ++ join xs). rewrite append_assoc.
  rewrite (scan_block p x _ acc fuel Hx).
  destruct (find_close_block p x "" 0 Hx) as (body & Hbody & _).
  replace (len p + len x - 6) with (len (p ++ body))
    by (rewrite Hbody, !len_append; change (len "</div>") with 6; lia).
  destruct xs as [|y ys].
  - change (join [] ++ "</div>") with "</div>".
    replace (p ++ x ++ "</div>") with ((p ++ body) ++ "</div>" ++ "</div>")
      by (rewrite Hbody, !append_assoc; reflexivity).
    rewrite no_next_block. reflexivity.
  - replace (p ++ x ++ join (y :: ys) ++ "</div>")
      with ((p ++ body) ++ "</div>" ++ (join (y :: ys) ++ "</div>"))
      by (rewrite Hbody, !append_assoc; reflexivity).
    rewrite next_block_found.
    2:{ change (join (y :: ys)) with (y ++ join ys). rewrite append_assoc.
        apply block_starts. now inversion Hxs'. }
    replace ((p ++ body) ++ "</div>" ++ join (y :: ys) ++ "</div>")
      with ((p ++ x) ++ join (y :: ys) ++ "</div>")
      by (rewrite Hbody, !append_assoc; reflexivity).
    replace (len (p ++ body) + 6) with (len (p ++ x))
      by (rewrite Hbody, !len_append; change (len "</div>") with 6; lia).
    rewrite (IH (p ++ x) (acc ++ [x])%list (S (S fuel)) Hxs').
    + now rewrite <- List.app_assoc.
    + discriminate.
    + cbn [List.length] in *. lia.
Qed.

Lemma strip_block (x : string) : is_block x -> strip_tab_cr_lf x = x.
Proof.
  assert (Hline : forall t, all_chars is_line_char t = true -> strip_tab_cr_lf t = t).
  { induction t as [|c t IH]; [reflexivity|].
    cbn [all_chars strip_tab_cr_lf]. intros H. apply andb_true_iff in H as [Hc H].
    rewrite (IH H). unfold is_line_char in Hc. apply negb_true_iff in Hc. now rewrite Hc. }
  intros (enc & Henc & [->|(text & Htext & ->)]).
  - unfold marker_block, open_tag, tag_rest.
    rewrite !strip_tab_cr_lf_append, (strip_tab_cr_lf_tag enc (value_is_tag enc Henc)).
    reflexivity.
  - apply plain_text_parts in Htext as (Htext & _).
    unfold text_block, open_tag, tag_rest.
    rewrite !strip_tab_cr_lf_append, (strip_tab_cr_lf_tag enc (value_is_tag enc Henc)),
      (Hline text Htext).
    reflexivity.
Qed.

Lemma strip_blocks (xs : list string) :
  Forall is_block xs -> strip_tab_cr_lf (join xs) = join xs.
Proof.
  induction 1 as [|x xs Hx Hxs IH]; [reflexivity|].
  change (join (x :: xs)) with (x ++ join xs).
  now rewrite strip_tab_cr_lf_append, (strip_block x Hx), IH.
Qed.

(** The scanner finds the blocks of the markup of a page, in order. *)
Lemma fragments_of_blocks (xs : list string) (fuel : nat) :
  Forall is_block xs ->
  (List.length xs + 2 <= fuel)%nat ->
  fragments fuel (Some ("<div>" ++ join xs ++ "</div>")) = Ok xs.
Proof.
  intros Hxs Hfuel. unfold fragments, getBoundedDivMarkup.
  rewrite !strip_tab_cr_lf_append, (strip_blocks xs Hxs).
  change (strip_tab_cr_lf "<div>") with "<div>".
  change (strip_tab_cr_lf "</div>") with "</div>".
  destruct xs as [|x xs]; [reflexivity|].
  rewrite first_block_found.
  2:{ change (join (x :: xs)) with (x ++ join xs). rewrite append_assoc.
      apply block_starts. now inversion Hxs. }
  change (5 <? 0) with false. cbv iota.
  change 5 with (len "<div>").
  rewrite (scan_blocks_all (x :: xs) "<div>" [] fuel Hxs); [reflexivity|discriminate|exact Hfuel].
Qed.

(* ===================================================================== *)
(** * Orders handed out while a page is built *)
(* ===================================================================== *)

Lemma fold_max_ge (os : list Z) :
  forall m, m <= fold_left Z.max os m /\ forall o, In o os -> o <= fold_left Z.max os m.
Proof.
  induction os as [|x os IH]; intros m; cbn [fold_left].
  - split; [lia | intros o []].
  - destruct (IH (Z.max m x)) as [Hm Hin]. split; [lia|].
    intros o [->|Ho]; [lia | now apply Hin].
Qed.

Lemma fold_max_in (os : list Z) :
  forall m, fold_left Z.max os m = m \/ In (fold_left Z.max os m) os.
Proof.
  induction os as [|x os IH]; intros m; cbn [fold_left]; [now left|].
  destruct (IH (Z.max m x)) as [H|H].
  - rewrite H. destruct (Z.max_spec m x) as [[_ ->]|[_ ->]]; [right; now left | now left].
  - right. now right.
Qed.

Lemma nearest_number_exact (z : Z) :
  Z.abs z <= Z.of_N max_safe -> nearest_number z = z.
Proof.
  intros H. apply Z.leb_le in H. unfold nearest_number. cbv zeta. now rewrite H.
Qed.

Lemma fold_max_below (os : list Z) :
  forall m, below_max_safe m -> Forall below_max_safe os ->
            below_max_safe (fold_left Z.max os m).
Proof.
  induction os as [|x os IH]; intros m Hm Hos; cbn [fold_left]; [exact Hm|].
  inversion Hos as [|? ? Hx Hos']; subst. apply IH; [|exact Hos'].
  unfold below_max_safe in *. lia.
Qed.

Lemma getNextOrder_exact (x : Z) (os : list Z) :
  Forall below_max_safe (x :: os) ->
  getNextOrder (x :: os) = fold_left Z.max os x + 1.
Proof.
  intros H. inversion H as [|? ? Hx Hos]; subst.
  pose proof (fold_max_below os x Hx Hos) as Hm.
  cbn [getNextOrder]. unfold number_add. apply nearest_number_exact.
  unfold below_max_safe in Hm. lia.
Qed.

Lemma getNextOrder_above (orders : list Z) (o : Z) :
  Forall below_max_safe orders -> In o orders -> o < getNextOrder orders.
Proof.
  intros Hb Ho. destruct orders as [|x os]; [destruct Ho|].
  rewrite (getNextOrder_exact x os Hb). destruct (fold_max_ge os x) as [Hx Hin].
  destruct Ho as [->|Ho]; [lia|]. specialize (Hin o Ho). lia.
Qed.

Lemma fold_max_top (os : list Z) (t : Z) :
  forall m, m <= t -> Forall (fun o => o <= t) os -> (m = t \/ In t os) ->
            fold_left Z.max os m = t.
Proof.
  induction os as [|x os IH]; intros m Hm Hos Hin; cbn [fold_left].
  - destruct Hin as [H|[]]. exact H.
  - inversion Hos as [|? ? Hx Hos']; subst. apply IH; [lia | exact Hos'|].
    destruct Hin as [->|[->|Hin]]; [left; lia | left; lia | now right].
Qed.

(** X1: getNextOrder gives 1 for an empty collection.  For a collection
    whose orders lie from -2^53 up to, but not including, 2^53, the value it
    gives is greater than every order in the collection, and exactly one
    more than one of them.  When the largest order is 2^53, the sum is
    rounded and the value it gives is 2^53 again, an order the collection
    already holds. *)
Theorem X1_getNextOrder_is_fresh (orders : list Z) :
  getNextOrder [] = 1 /\
  (Forall below_max_safe orders ->
   (forall o, In o orders -> o < getNextOrder orders) /\
   (orders <> [] -> In (getNextOrder orders - 1) orders)) /\
  (In (Z.of_N max_safe) orders -> Forall (fun o => o <= Z.of_N max_safe) orders ->
   getNextOrder orders = Z.of_N max_safe).
Proof.
  split; [reflexivity|]. split.
  - intros Hb. split.
    + intros o. now apply getNextOrder_above.
    + intros Hne. destruct orders as [|x os]; [congruence|].
      rewrite (getNextOrder_exact x os Hb).
      replace (fold_left Z.max os x + 1 - 1) with (fold_left Z.max os x) by lia.
      destruct (fold_max_in os x) as [->|H]; [now left | now right].
  - intros Hin Hall. destruct orders as [|x os]; [destruct Hin|].
    inversion Hall as [|? ? Hx Hos]; subst. cbn [getNextOrder].
    rewrite (fold_max_top os (Z.of_N max_safe) x Hx Hos).
    + vm_compute. reflexivity.
    + destruct Hin as [H|H]; [now left | now right].
Qed.

Lemma X1_witness :
  (forall o, In o [3; 1; 2] -> o < getNextOrder [3; 1; 2]) /\
  getNextOrder [1; 9007199254740992; 2] = 9007199254740992.
Proof.
  split.
  - apply (proj1 (proj2 (X1_getNextOrder_is_fresh [3; 1; 2]))).
    repeat constructor; vm_compute; congruence.
  - apply (proj2 (proj2 (X1_getNextOrder_is_fresh [1; 9007199254740992; 2]))).
    + right. left. reflexivity.
    + repeat constructor; vm_compute; congruence.
Defined.

Lemma fold_max_seq (k : nat) :
  forall a m,
    fold_left Z.max (map Z.of_nat (seq a k)) m
    = match k with O => m | S _ => Z.max m (Z.of_nat (a + k - 1)) end.
Proof.
  induction k as [|k IH]; intros a m; [reflexivity|].
  cbn [seq map fold_left]. rewrite IH. destruct k as [|k].
  - f_equal. f_equal. lia.
  - replace (S a + S k - 1)%nat with (a + S (S k) - 1)%nat by lia. lia.
Qed.

Lemma positions_below (n : nat) :
  Z.of_nat n < Z.of_N max_safe -> Forall below_max_safe (positions n).
Proof.
  intros Hn. unfold positions. apply Forall_forall. intros o Ho.
  apply in_map_iff in Ho as (k & <- & Hk). apply in_seq in Hk.
  unfold below_max_safe. lia.
Qed.

Lemma getNextOrder_positions (n : nat) :
  Z.of_nat n < Z.of_N max_safe -> getNextOrder (positions n) = Z.of_nat n + 1.
Proof.
  intros Hn. pose proof (positions_below n Hn) as Hb. revert Hb.
  unfold positions. destruct n as [|n]; [reflexivity|].
  cbn [seq map]. intros Hb. rewrite (getNextOrder_exact _ _ Hb).
  rewrite fold_max_seq. destruct n as [|n]; lia.
Qed.

Lemma positions_S (n : nat) : positions (S n) = (positions n ++ [Z.of_nat n + 1])%list.
Proof.
  unfold positions. rewrite seq_S, map_app. cbn [map]. do 2 f_equal. lia.
Qed.

Lemma with_sections_orders (n : nat) (page : ClientSidePage) :
  sections page = [] ->
  Z.of_nat n <= Z.of_N max_safe ->
  map section_order (sections (with_sections n page)) = positions n /\
  Forall (fun s => columns s = []) (sections (with_sections n page)).
Proof.
  intros Hempty. unfold with_sections. induction n as [|n IH]; intros Hn.
  - change (Nat.iter 0 addSection page) with page.
    rewrite Hempty. split; [reflexivity | constructor].
  - destruct IH as [IHo IHc]; [lia|].
    change (Nat.iter (S n) addSection page) with (addSection (Nat.iter n addSection page)).
    unfold addSection at 1 3. cbn [sections]. split.
    + rewrite map_app, IHo, getNextOrder_positions, positions_S; [reflexivity | lia].
    + apply Forall_app. split; [exact IHc|]. constructor; [reflexivity | constructor].
Qed.

(** X2: n calls of addSection on a page without sections, for n up to
    2^53 (as long as the orders handed out are exact sums), give n sections
    whose orders are 1, 2, ..., n in that order, each without columns. *)
Theorem X2_addSection_numbers_in_sequence (n : nat) (page : ClientSidePage) :
  sections page = [] ->
  Z.of_nat n <= Z.of_N max_safe ->
  map section_order (sections (with_sections n page)) = positions n /\
  Forall (fun s => columns s = []) (sections (with_sections n page)).
Proof. apply with_sections_orders. Qed.

Lemma X2_witness :
  map section_order (sections (with_sections 3 blank_page)) = positions 3 /\
  Forall (fun s => columns s = []) (sections (with_sections 3 blank_page)).
Proof.
  apply (X2_addSection_numbers_in_sequence 3 blank_page); [reflexivity|].
  vm_compute. congruence.
Defined.

(** X3: addColumn keeps the columns of the section and appends one column
    that has the factor asked for, no controls and the data version 1.0.
    Its order is 1 in a section without columns; when the orders of the
    columns lie from -2^53 up to, but not including, 2^53, it is greater
    than the order of every column the section had. *)
Theorem X3_addColumn_appends_fresh_column (guid : string) (f : Z) (s : CanvasSection) :
  exists c,
    columns (CanvasSection_addColumn guid f s) = (columns s ++ [c])%list /\
    section_order (CanvasSection_addColumn guid f s) = section_order s /\
    factor c = f /\ controls c = [] /\ dataVersion (column_base c) = "1.0" /\
    (columns s = [] -> column_order c = 1) /\
    (Forall below_max_safe (map column_order (columns s)) ->
     forall c', In c' (columns s) -> column_order c' < column_order c).
Proof.
  eexists. split; [reflexivity|]. repeat split.
  - intros H. cbn. now rewrite H.
  - intros Hb c' Hc'. cbn [column_order new_CanvasColumn column_base with_order order].
    apply getNextOrder_above; [exact Hb | now apply in_map].
Qed.

Lemma X3_witness :
  exists c,
    columns (CanvasSection_addColumn "g" 6 section_of_two_columns)
    = (columns section_of_two_columns ++ [c])%list /\
    forall c', In c' (columns section_of_two_columns) -> column_order c' < column_order c.
Proof.
  destruct (X3_addColumn_appends_fresh_column "g" 6 section_of_two_columns)
    as (c & Hc & _ & _ & _ & _ & _ & Hfresh).
  exists c. split; [exact Hc|]. apply Hfresh.
  repeat constructor; vm_compute; congruence.
Defined.

(** X4: addControl on a section puts the control at the end of the first
    column and leaves the other columns alone; a section without columns
    first gets one column of factor 12 and order 1. *)
Theorem X4_addControl_uses_the_first_column (guid : string) (control : Control)
        (s : CanvasSection) :
  exists first,
    columns (CanvasSection_addControl guid control s) = first :: tl (columns s) /\
    controls first
    = (match columns s with [] => [] | c :: _ => controls c end ++ [control])%list /\
    match columns s with
    | [] => factor first = 12 /\ column_order first = 1
    | c :: _ => factor first = factor c /\ column_order first = column_order c
    end.
Proof.
  unfold CanvasSection_addControl. destruct (columns s) as [|c cs] eqn:E.
  - unfold CanvasSection_addColumn. cbn [columns with_columns]. rewrite E.
    eexists. repeat split.
  - rewrite E. eexists. repeat split.
Qed.

(* ===================================================================== *)
(** * Positions the search reports *)
(* ===================================================================== *)

Lemma search_ge (re : regex) (s : string) : search re s = -1 \/ 0 <= search re s.
Proof. unfold search. destruct (exec re s) as [[p m]|]; [right; lia | now left]. Qed.

Lemma length_skipn_str (n : nat) :
  forall s, String.length (skipn_str n s) = (String.length s - n)%nat.
Proof.
  induction n as [|n IH]; intros s; [cbn; lia|].
  destruct s as [|c s]; [reflexivity|]. cbn [skipn_str String.length]. now rewrite IH.
Qed.

(** X5: for a start position that is not negative, regexIndexOf gives -1
    when the pattern matches nowhere in the text from that position on, and
    otherwise a position that is not before the start position and not
    after the end of the text (or the start position, when that lies after
    the end). *)
Theorem X5_regexIndexOf_bounds (this : string) (re : regex) (startpos : Z) :
  0 <= startpos ->
  (regexIndexOf this re startpos = -1 /\
   search re (substring_from this startpos) = -1) \/
  (startpos <= regexIndexOf this re startpos <= Z.max startpos (len this) /\
   regexIndexOf this re startpos = search re (substring_from this startpos) + startpos).
Proof.
  intros Hpos. unfold regexIndexOf.
  pose proof (search_le re (substring_from this startpos)) as Hle.
  destruct (search_ge re (substring_from this startpos)) as [H|H].
  - left. now rewrite H.
  - right. destruct (0 <=? search re (substring_from this startpos)) eqn:E; [|lia].
    split; [|reflexivity].
    assert (Hlen : len (substring_from this startpos)
                   = Z.of_nat (String.length this - clamp this startpos)).
    { unfold substring_from, len. now rewrite length_skipn_str. }
    rewrite Hlen in Hle. unfold clamp, len in Hle. unfold len. lia.
Qed.

Lemma X5_witness :
  (regexIndexOf "a</div>b</DIV>" re_div_close 3 = -1 /\
   search re_div_close (substring_from "a</div>b</DIV>" 3) = -1) \/
  (3 <= regexIndexOf "a</div>b</DIV>" re_div_close 3 <= Z.max 3 (len "a</div>b</DIV>") /\
   regexIndexOf "a</div>b</DIV>" re_div_close 3
   = search re_div_close (substring_from "a</div>b</DIV>" 3) + 3).
Proof. apply (X5_regexIndexOf_bounds "a</div>b</DIV>" re_div_close 3). lia. Defined.

(* ===================================================================== *)
(** * Rendering twice *)
(* ===================================================================== *)

Section ReindexTwice.

Context {A : Type} `{Orderable A}.

Hypothesis renumber_twice :
  forall o x,
    reindex_children (set_order o (reindex_children (set_order o x)))
    = reindex_children (set_order o x).

Lemma reindex_from_twice (xs : list A) :
  forall i, reindex_from i (reindex_from i xs) = reindex_from i xs.
Proof.
  induction xs as [|x xs IH]; intros i; [reflexivity|].
  cbn [reindex_from]. now rewrite renumber_twice, IH.
Qed.

End ReindexTwice.

Lemma reindex_controls_twice (ks : list Control) : reindex (reindex ks) = reindex ks.
Proof.
  apply reindex_from_twice. intros o [[] t|[] p]; reflexivity.
Qed.

Lemma reindex_columns_twice (cs : list CanvasColumn) : reindex (reindex cs) = reindex cs.
Proof.
  apply reindex_from_twice. intros o [b f ks].
  cbn [reindex_children set_order Orderable_CanvasColumn with_controls column_base factor
       controls with_order].
  now rewrite reindex_controls_twice.
Qed.

Lemma reindex_sections_twice (ss : list CanvasSection) : reindex (reindex ss) = reindex ss.
Proof.
  apply reindex_from_twice. intros o [so cs].
  cbn [reindex_children set_order Orderable_CanvasSection with_columns section_order
       columns].
  now rewrite reindex_columns_twice.
Qed.

Lemma toHtml_leaves (page : ClientSidePage) :
  fst (toHtml page)
  = {| sections := reindex (sections page); commentsDisabled := commentsDisabled page |}.
Proof.
  pose proof (toHtml_reindexes page) as Hs.
  assert (Hc : commentsDisabled (fst (toHtml page)) = commentsDisabled page).
  { unfold toHtml. now destruct (render_each _ 0 (reindex (sections page))). }
  destruct (fst (toHtml page)) as [ss flag]. cbn [sections commentsDisabled] in *.
  now subst.
Qed.

(** X6: a second call of toHtml on the page the first call leaves returns
    the same result (the same markup, or the same error) and leaves the
    same page. *)
Theorem X6_toHtml_twice (page : ClientSidePage) :
  toHtml (fst (toHtml page)) = toHtml page.
Proof.
  rewrite toHtml_leaves. unfold toHtml. cbn [sections commentsDisabled].
  now rewrite reindex_sections_twice.
Qed.

(* ===================================================================== *)
(** * Sections without columns *)
(* ===================================================================== *)

Lemma reindex_from_columnless (ss : list CanvasSection) :
  Forall (fun s => columns s = []) ss ->
  forall i, Forall (fun s => columns s = []) (reindex_from i ss).
Proof.
  induction 1 as [|s ss Hs Hss IH]; intros i; cbn [reindex_from]; constructor.
  - cbn. now rewrite Hs.
  - apply IH.
Qed.

Lemma render_columnless (ss : list CanvasSection) :
  Forall (fun s => columns s = []) ss ->
  forall i, snd (render_each (fun _ => CanvasSection_toHtml) i ss) = Ok "".
Proof.
  induction 1 as [|s ss Hs Hss IH]; intros i; [reflexivity|].
  cbn [render_each]. unfold CanvasSection_toHtml at 1. rewrite Hs. cbn [render_each].
  specialize (IH (i + 1)).
  destruct (render_each (fun _ => CanvasSection_toHtml) (i + 1) ss) as [ss' r].
  cbn [snd] in *. now rewrite IH.
Qed.

(** X7: a page all of whose sections are without columns is rendered as
    the empty wrapper, whatever the number of its sections, and the page
    parsed from that markup has no sections. *)
Theorem X7_sections_without_columns_vanish (page : ClientSidePage) (fuel : nat) :
  Forall (fun s => columns s = []) (sections page) ->
  snd (toHtml page) = Ok "<div></div>" /\
  fromHtml fuel (Some "<div></div>") page
  = Ok {| sections := []; commentsDisabled := commentsDisabled page |}.
Proof.
  intros Hempty. split; [|reflexivity].
  unfold toHtml.
  pose proof (render_columnless _ (reindex_from_columnless _ Hempty 0) 0) as H.
  fold (reindex (sections page)) in H.
  destruct (render_each _ 0 (reindex (sections page))) as [ss r]. cbn [snd] in *.
  now rewrite H.
Qed.

Lemma X7_witness :
  snd (toHtml (with_sections 3 blank_page)) = Ok "<div></div>" /\
  fromHtml 0 (Some "<div></div>") (with_sections 3 blank_page)
  = Ok {| sections := []; commentsDisabled := commentsDisabled (with_sections 3 blank_page) |}.
Proof.
  apply (X7_sections_without_columns_vanish (with_sections 3 blank_page) 0).
  repeat constructor.
Defined.

(* ===================================================================== *)
(** * Looking controls up *)
(* ===================================================================== *)

Lemma find_in_controls_find (p : Control -> bool) (cs : list Control) :
  find_in_controls p cs = find p cs.
Proof. induction cs as [|c cs IH]; [reflexivity|]. cbn. now rewrite IH. Qed.

Lemma find_append {A : Type} (p : A -> bool) (l1 l2 : list A) :
  find p (l1 ++ l2) = match find p l1 with Some x => Some x | None => find p l2 end.
Proof.
  induction l1 as [|x l1 IH]; [reflexivity|]. cbn. now destruct (p x).
Qed.

Lemma find_in_columns_find (p : Control -> bool) (cols : list CanvasColumn) :
  find_in_columns p cols = find p (flat_map controls cols).
Proof.
  induction cols as [|c cols IH]; [reflexivity|].
  cbn [find_in_columns flat_map]. now rewrite find_append, find_in_controls_find, IH.
Qed.

Lemma findControl_find (p : Control -> bool) (page : ClientSidePage) :
  findControl p page = find p (page_controls page).
Proof.
  unfold findControl, page_controls.
  induction (sections page) as [|s ss IH]; [reflexivity|].
  cbn [find_in_sections flat_map].
  now rewrite find_append, find_in_columns_find, IH.
Qed.

Lemma find_first {A : Type} (p : A -> bool) (l : list A) :
  match find p l with
  | Some c =>
      exists before after,
        l = (before ++ c :: after)%list /\ p c = true /\
        forallb (fun k => negb (p k)) before = true
  | None => forallb (fun k => negb (p k)) l = true
  end.
Proof.
  induction l as [|x l IH]; [reflexivity|]. cbn [find].
  destruct (p x) eqn:E.
  - exists [], l. now repeat split.
  - destruct (find p l) as [c|].
    + destruct IH as (before & after & -> & Hc & Hb).
      exists (x :: before), after. cbn [forallb]. rewrite E, Hb. now repeat split.
    + cbn [forallb]. now rewrite E, IH.
Qed.

(** X8: findControl returns the first control of the page, in document
    order (sections, then columns, then controls), that satisfies the
    predicate: every control before it fails the predicate; it returns
    null exactly when every control of the page fails it. *)
Theorem X8_findControl_first_in_document_order (predicate : Control -> bool)
        (page : ClientSidePage) :
  match findControl predicate page with
  | Some c =>
      exists before after,
        page_controls page = (before ++ c :: after)%list /\ predicate c = true /\
        forallb (fun k => negb (predicate k)) before = true
  | None => forallb (fun k => negb (predicate k)) (page_controls page) = true
  end.
Proof. rewrite findControl_find. apply find_first. Qed.

(** X9: findControlById returns a control of the page whose id is the id
    asked for, and returns null exactly when no control of the page has
    that id. *)
Theorem X9_findControlById (i : string) (page : ClientSidePage) :
  (forall c, findControlById i page = Some c ->
             In c (page_controls page) /\ id (base_of c) = Some i) /\
  (findControlById i page = None <->
   forall c, In c (page_controls page) -> id (base_of c) <> Some i).
Proof.
  unfold findControlById. rewrite findControl_find.
  assert (Hid : forall c, has_id i c = true <-> id (base_of c) = Some i).
  { intros c. unfold has_id. destruct (id (base_of c)) as [j|]; [|split; discriminate].
    rewrite String.eqb_eq. split; congruence. }
  split.
  - intros c Hc. apply find_some in Hc as [Hin Hp]. split; [exact Hin | now apply Hid].
  - split.
    + intros Hnone c Hin Hc. apply Hid in Hc.
      pose proof (find_none _ _ Hnone c Hin). congruence.
    + intros Hall. destruct (find (has_id i) (page_controls page)) as [c|] eqn:E;
        [|reflexivity].
      apply find_some in E as [Hin Hp]. apply Hid in Hp. now apply Hall in Hin.
Qed.

(** X10: after addControl the control is read back by getControl at the
    index that was the number of controls, the controls before it are read
    back as before, and every index outside the array gives undefined. *)
Theorem X10_getControl_after_addControl (control : Control) (c : CanvasColumn) :
  let n := Z.of_nat (List.length (controls c)) in
  CanvasColumn_getControl n (CanvasColumn_addControl control c) = Some control /\
  (forall i, 0 <= i < n ->
             CanvasColumn_getControl i (CanvasColumn_addControl control c)
             = CanvasColumn_getControl i c /\
             CanvasColumn_getControl i c <> None) /\
  (forall i, i < 0 \/ n < i ->
             CanvasColumn_getControl i (CanvasColumn_addControl control c) = None).
Proof.
  cbv zeta. unfold CanvasColumn_getControl, CanvasColumn_addControl.
  cbn [controls with_controls]. split; [|split].
  - destruct (Z.ltb_spec (Z.of_nat (List.length (controls c))) 0); [lia|].
    rewrite Nat2Z.id, nth_error_app2, Nat.sub_diag by lia. reflexivity.
  - intros i Hi. destruct (Z.ltb_spec i 0); [lia|]. split.
    + apply nth_error_app1. lia.
    + apply nth_error_Some. lia.
  - intros i Hi. destruct (Z.ltb_spec i 0); [reflexivity|].
    apply nth_error_None. rewrite length_app. cbn [List.length]. lia.
Qed.

(* ===================================================================== *)
(** * Importing a component definition *)
(* ===================================================================== *)

(** X11: parseJsonProperties either returns or throws a TypeError; it
    throws exactly when the properties are null or undefined or their
    webPartData is null, and what it returns is never undefined. *)
Theorem X11_parseJsonProperties_failure (props : jsval) :
  match parseJsonProperties props with
  | Ok (content, result) =>
      result <> None /\ props <> None /\ props <> Some JNull /\
      member "webPartData" props <> Ok (Some JNull)
  | Throw e =>
      e = TypeError /\
      (props = None \/ props = Some JNull \/ member "webPartData" props = Ok (Some JNull))
  | Unmodelled | OutOfFuel => False
  end.
Proof.
  unfold parseJsonProperties.
  destruct props as [[| | | |items|ms]|]; cbn [member bind];
    try (repeat split; (discriminate || auto)).
  destruct (lookup "webPartData" ms) as [[| | | |items|ws]|] eqn:E; cbn [member bind];
    try (repeat split; (discriminate || auto));
    repeat match goal with
           | |- context [match ?x with Some _ => _ | None => _ end] => destruct x
           end;
    repeat split; discriminate.
Qed.

Lemma drop_final_brace_append (g : string) : drop_final_brace (g ++ "}") = g.
Proof.
  induction g as [|c g IH]; [reflexivity|].
  cbn [append drop_final_brace]. rewrite IH. now destruct g.
Qed.

Lemma strip_braces_wrapped (g : string) : strip_braces ("{" ++ g ++ "}") = g.
Proof. cbn. apply drop_final_brace_append. Qed.

(** X12: import of a component whose Id is an identifier in braces and
    whose Manifest is the JSON text of a manifest with a first preconfigured
    entry (title and description with string defaults) stores the
    identifier without the braces, the two defaults, and what
    parseJsonProperties makes of the properties of the entry; the html
    properties are kept. *)
Theorem X12_import_reads_first_entry (guid : string) (manifest : json)
        (entry : list (string * json)) (others : list json)
        (t d : list (string * json)) (titleText descriptionText : string)
        (content result : jsval) (p : WebpartFields) :
  json_wf manifest = true ->
  member "preconfiguredEntries" (Some manifest) = Ok (Some (JArr (JObj entry :: others))) ->
  lookup "title" entry = Some (JObj t) ->
  lookup "default" t = Some (JStr titleText) ->
  lookup "description" entry = Some (JObj d) ->
  lookup "default" d = Some (JStr descriptionText) ->
  parseJsonProperties (lookup "properties" entry) = Ok (content, result) ->
  ClientSideWebpart_import (component_of guid manifest) p
  = ({| title := titleText; description := descriptionText; propertieJson := result;
        webPartId := guid; htmlProperties := htmlProperties p;
        serverProcessedContent := content |}, Ok tt).
Proof.
  intros Hwf He Ht Htd Hd Hdd Hp.
  unfold ClientSideWebpart_import, component_of. cbn [Id Manifest].
  rewrite (JSON_parse_stringify manifest Hwf), strip_braces_wrapped.
  unfold entry_default, first_entry. rewrite He.
  cbn [bind element0 hd_error member]. rewrite Ht, Hd. cbn [bind member].
  rewrite Htd, Hdd. cbn [bind as_string]. rewrite Hp. reflexivity.
Qed.

Lemma X12_witness :
  ClientSideWebpart_import
    (component_of "490d7c76-1824-45b2-9de3-676421c997fa" sample_manifest) sample_webpart
  = ({| title := "Embed"; description := "Embeds content";
        propertieJson := Some (JObj [("embedCode", JStr "")]);
        webPartId := "490d7c76-1824-45b2-9de3-676421c997fa";
        htmlProperties := htmlProperties sample_webpart;
        serverProcessedContent := Some (JObj [("links", JArr [])]) |}, Ok tt).
Proof.
  apply (X12_import_reads_first_entry "490d7c76-1824-45b2-9de3-676421c997fa"
           sample_manifest
           [("description", JObj [("default", JStr "Embeds content")]);
            ("properties",
             JObj [("properties", JObj [("embedCode", JStr "")]);
                   ("serverProcessedContent", JObj [("links", JArr [])])]);
            ("title", JObj [("default", JStr "Embed")])]
           [] [("default", JStr "Embed")] [("default", JStr "Embeds content")]
           "Embed" "Embeds content");
    reflexivity.
Defined.

(** X13: when the manifest of the component parses but its list of
    preconfigured entries is empty, import throws a TypeError; the web part
    id has been replaced by then and the other fields have not. *)
Theorem X13_import_without_entries_throws (component : ClientSidePageComponent)
        (manifest : json) (p : WebpartFields) :
  JSON_parse (Manifest component) = Ok manifest ->
  member "preconfiguredEntries" (Some manifest) = Ok (Some (JArr [])) ->
  ClientSideWebpart_import component p
  = (with_webPartId (strip_braces (Id component)) p, Throw TypeError).
Proof.
  intros Hm He. unfold ClientSideWebpart_import. rewrite Hm.
  unfold entry_default, first_entry. rewrite He. reflexivity.
Qed.

Lemma X13_witness :
  ClientSideWebpart_import
    {| Id := "{a}"; Manifest := "{" ++ DQ ++ "preconfiguredEntries" ++ DQ ++ ":[]}" |}
    sample_webpart
  = (with_webPartId (strip_braces "{a}") sample_webpart, Throw TypeError).
Proof.
  apply (X13_import_without_entries_throws
           {| Id := "{a}"; Manifest := "{" ++ DQ ++ "preconfiguredEntries" ++ DQ ++ ":[]}" |}
           (JObj [("preconfiguredEntries", JArr [])]) sample_webpart);
    reflexivity.
Defined.

(* ===================================================================== *)
(** * What the encoder writes *)
(* ===================================================================== *)

Lemma all_chars_subst (P : ascii -> bool) (f : ascii -> string) (s : string) :
  forallb (fun c => all_chars P (f c)) all_ascii = true ->
  all_chars P (subst_chars f s) = true.
Proof.
  intros H. induction s as [|c s IH]; [reflexivity|].
  cbn [subst_chars]. rewrite all_chars_append, IH, andb_true_r.
  rewrite forallb_forall in H. apply H, all_ascii_complete.
Qed.

(** X14: the string jsonToEscapedString returns contains no double quote,
    no colon and no brace, whatever the value: it can be written between
    the double quotes of an attribute. *)
Theorem X14_encoded_text_has_no_quote_colon_brace (v : json) :
  all_chars is_unescaped_char (jsonToEscapedString v) = true.
Proof.
  change (jsonToEscapedString v) with (escape_text (JSON_stringify v)).
  rewrite escape_text_subst. apply all_chars_subst. vm_compute. reflexivity.
Qed.

(* ===================================================================== *)
(** * Reading an attribute *)
(* ===================================================================== *)

(** The value between the quotes that follow the first occurrence of the
    attribute name is returned, up to the next quote. *)
Lemma attr_value (pre attrName value post : string) :
  no_start (attrName ++ "=" ++ DQ) pre ((attrName ++ "=" ++ DQ) ++ value ++ DQ ++ post) ->
  all_chars (in_class (NotChar dquote)) value = true ->
  getAttrValueFromString (pre ++ (attrName ++ "=" ++ DQ) ++ value ++ DQ ++ post) attrName
  = Ok value.
Proof.
  intros Hpre Hvalue. unfold getAttrValueFromString, exec.
  rewrite (exec_from_skip _ _ _ _ (lit_first_attr attrName) Hpre).
  assert (Hm : match_nodes true (re_nodes (re_attr attrName)) None
                 ((attrName ++ "=" ++ DQ) ++ value ++ DQ ++ post)
               = Some ((String.length (attrName ++ "=" ++ DQ)
                        + (String.length value + 1))%nat, value)).
  { unfold re_attr, re_nodes. rewrite match_lit_self.
    rewrite (match_lazy_star (NotChar dquote) [Lit DQ] value _ (DQ ++ post) 1%nat ""
               Hvalue).
    - reflexivity.
    - intros a1 a2 p Ha Ha2. apply match_lit_none.
      destruct a2 as [|c a2]; [congruence|].
      assert (Hc : in_class (NotChar dquote) c = true).
      { rewrite Ha, all_chars_append in Hvalue.
        apply andb_true_iff in Hvalue as [_ Hvalue]. cbn [all_chars] in Hvalue.
        now apply andb_true_iff in Hvalue as [Hvalue _]. }
      cbn [append starts_ic DQ]. 
      destruct (char_eq true dquote c) eqn:E; [|reflexivity].
      apply char_eq_dquote in E. subst c. discriminate Hc.
    - intros p. rewrite match_lit_self. reflexivity. }
  rewrite (exec_from_here (re_attr attrName) None _ _ _ Hm). reflexivity.
Qed.

(* ===================================================================== *)
(** * The blocks the rendering writes *)
(* ===================================================================== *)

Lemma placeholder_markup (f si zi : Z) :
  column_placeholder "1.0" f si zi
  = marker_block (jsonToEscapedString (marker_data f si zi)).
Proof.
  unfold column_placeholder, control_open, marker_block, open_tag, tag_rest.
  fold (marker_data f si zi).
  generalize (jsonToEscapedString (marker_data f si zi)). intros enc.
  rewrite !append_assoc. reflexivity.
Qed.

Lemma text_markup (b : CanvasControl) (guid text : string) (k : Z) (o : Owner) :
  controlType b = Some 4 -> dataVersion b = "1.0" -> id b = Some guid ->
  markup_of (snd (ClientSideText_toHtml k o b text))
  = text_block (jsonToEscapedString
                  (text_data guid k (owner_factor o) (owner_sectionIndex o)
                             (owner_zoneIndex o)))
               text.
Proof.
  intros Hct Hdv Hid.
  unfold ClientSideText_toHtml, ClientSideText_getControlData.
  cbn [snd markup_of with_order controlType dataVersion id order].
  rewrite Hct, Hdv, Hid.
  cbn [opt_num opt_str option_map object_literal num str].
  fold (text_data guid k (owner_factor o) (owner_sectionIndex o) (owner_zoneIndex o)).
  generalize (jsonToEscapedString
                (text_data guid k (owner_factor o) (owner_sectionIndex o)
                           (owner_zoneIndex o))).
  intros enc.
  unfold join, control_open, text_block, open_tag, tag_rest. cbn [fold_right].
  rewrite !append_assoc, append_nil_r. reflexivity.
Qed.

Lemma quiet_char_plain (c : ascii) : is_quiet_char c = true -> is_plain_char c = true.
Proof. revert c. apply ascii_implies. vm_compute. reflexivity. Qed.

Lemma quiet_plain (s : string) :
  all_chars is_quiet_char s = true -> all_chars is_plain_char s = true.
Proof. apply all_chars_weaken. exact quiet_char_plain. Qed.

Lemma marker_data_value (f si zi : Z) :
  0 <= f -> 0 <= si -> 0 <= zi ->
  all_chars is_value_char (jsonToEscapedString (marker_data f si zi)) = true.
Proof.
  intros Hf Hsi Hzi. rewrite marker_data_encoded by assumption.
  rewrite !all_chars_append.
  rewrite !(quiet_is_value (string_of_Z _)) by now apply number_quiet.
  reflexivity.
Qed.

Lemma text_data_value (guid : string) (k f si zi : Z) :
  all_chars is_guid_char guid = true ->
  0 <= k -> 0 <= f -> 0 <= si -> 0 <= zi ->
  all_chars is_value_char (jsonToEscapedString (text_data guid k f si zi)) = true.
Proof.
  intros Hg Hk Hf Hsi Hzi. rewrite text_data_encoded by assumption.
  rewrite !all_chars_append.
  rewrite !(quiet_is_value (string_of_Z _)) by now apply number_quiet.
  rewrite (quiet_is_value guid (guid_quiet guid Hg)).
  reflexivity.
Qed.

(** ** The two attributes of a block *)

Lemma controldata_of_tag (enc post : string) :
  all_chars is_value_char enc = true ->
  getAttrValueFromString (open_tag enc ++ post) "data-sp-controldata" = Ok enc.
Proof.
  intros Henc.
  replace (open_tag enc ++ post)
    with (firstn_str 62 tag_head ++ ("data-sp-controldata" ++ "=" ++ DQ)
          ++ enc ++ DQ ++ (">" ++ post))
    by (unfold open_tag, tag_rest; rewrite !append_assoc; reflexivity).
  apply attr_value; [|now apply value_no_quote].
  apply clear_no_start. vm_compute. reflexivity.
Qed.

Lemma dataversion_of_tag (enc post : string) :
  getAttrValueFromString (open_tag enc ++ post) "data-sp-canvasdataversion" = Ok "1.0".
Proof.
  replace (open_tag enc ++ post)
    with (firstn_str 30 tag_head ++ ("data-sp-canvasdataversion" ++ "=" ++ DQ)
          ++ "1.0" ++ DQ ++ (skipn_str 61 tag_head ++ enc ++ DQ ++ ">" ++ post))
    by (unfold open_tag, tag_rest; rewrite !append_assoc; reflexivity).
  apply attr_value; [|reflexivity].
  apply clear_no_start. vm_compute. reflexivity.
Qed.

(** ** Decoding what was encoded *)

Lemma startsWith_first (a : ascii) (l s : string) :
  match s with String c _ => (a =? c)%char | EmptyString => false end = false ->
  startsWith s (String a l) = false.
Proof. destruct s as [|c s]; [reflexivity|]. cbn [startsWith]. now intros ->. Qed.

Lemma includes_first (a : ascii) (l s : string) :
  all_chars (fun c => negb (a =? c)%char) s = true -> includes s (String a l) = false.
Proof.
  induction s as [|c s IH]; [reflexivity|].
  cbn [all_chars includes startsWith]. intros H. apply andb_true_iff in H as [Hc H].
  apply negb_true_iff in Hc. now rewrite Hc, (IH H).
Qed.

Lemma plain_escape_free (t : string) :
  all_chars is_plain_char t = true -> escape_free t = true.
Proof.
  intros H. unfold escape_free.
  assert (H' : all_chars (fun c => negb ("&" =? c)%char) t = true).
  { revert H. apply all_chars_weaken. intros c. unfold is_plain_char.
    now rewrite Ascii.eqb_sym. }
  now rewrite !(includes_first "&" _ t H').
Qed.

Lemma decode_encode (v : json) :
  json_wf v = true -> escape_free (JSON_stringify v) = true ->
  escapedStringToJson (jsonToEscapedString v) = Ok v.
Proof.
  intros Hwf Hfree.
  change (JSON_parse (unescape_text (escape_text (JSON_stringify v))) = Ok v).
  rewrite (unescape_escape_text _ Hfree). now apply JSON_parse_stringify.
Qed.

Lemma position_wf (n : Z) :
  is_position n = true -> (Z.abs n <=? Z.of_N max_safe) = true.
Proof.
  unfold is_position. intros H. apply andb_true_iff in H as [H0 H1].
  apply Z.leb_le in H0, H1. apply Z.leb_le. lia.
Qed.

Lemma position_nonneg (n : Z) : is_position n = true -> 0 <= n.
Proof.
  unfold is_position. intros H. apply andb_true_iff in H as [H0 _]. now apply Z.leb_le.
Qed.

Lemma decode_marker_data (f si zi : Z) :
  is_position f = true -> is_position si = true -> is_position zi = true ->
  escapedStringToJson (jsonToEscapedString (marker_data f si zi))
  = Ok (marker_data f si zi).
Proof.
  intros Hf Hsi Hzi. apply decode_encode.
  - unfold marker_data. cbn [json_wf map fst snd forallb].
    rewrite (position_wf f Hf), (position_wf si Hsi), (position_wf zi Hzi). reflexivity.
  - apply plain_escape_free. rewrite marker_data_text, !all_chars_append.
    rewrite !(quiet_plain (string_of_Z _))
      by (apply number_quiet; now apply position_nonneg).
    reflexivity.
Qed.

Lemma decode_text_data (guid : string) (k f si zi : Z) :
  all_chars is_guid_char guid = true ->
  is_position k = true -> is_position f = true ->
  is_position si = true -> is_position zi = true ->
  escapedStringToJson (jsonToEscapedString (text_data guid k f si zi))
  = Ok (text_data guid k f si zi).
Proof.
  intros Hg Hk Hf Hsi Hzi. apply decode_encode.
  - unfold text_data. cbn [json_wf map fst snd forallb].
    rewrite (position_wf k Hk), (position_wf f Hf), (position_wf si Hsi),
      (position_wf zi Hzi).
    reflexivity.
  - apply plain_escape_free.
    rewrite (text_data_text guid k f si zi (guid_quiet guid Hg)), !all_chars_append.
    rewrite !(quiet_plain (string_of_Z _))
      by (apply number_quiet; now apply position_nonneg).
    rewrite (quiet_plain guid (guid_quiet guid Hg)).
    reflexivity.
Qed.

(* ===================================================================== *)
(** * Parsing a block *)
(* ===================================================================== *)

Lemma CanvasControl_fromHtml_marker (f si zi : Z) (post : string) (b : CanvasControl) :
  is_position f = true -> is_position si = true -> is_position zi = true ->
  CanvasControl_fromHtml
    (open_tag (jsonToEscapedString (marker_data f si zi)) ++ post) b
  = Ok {| controlType := None; dataVersion := "1.0"; order := order b; id := None;
          controlData := Some (marker_data f si zi) |}.
Proof.
  intros Hf Hsi Hzi. unfold CanvasControl_fromHtml.
  rewrite controldata_of_tag
    by (apply marker_data_value; now apply position_nonneg).
  cbn [bind]. rewrite (decode_marker_data f si zi Hf Hsi Hzi). cbn [bind].
  rewrite dataversion_of_tag. reflexivity.
Qed.

Lemma CanvasColumn_fromHtml_marker (f si zi : Z) (c : CanvasColumn) :
  is_position f = true -> is_position si = true -> is_position zi = true ->
  CanvasColumn_fromHtml (column_placeholder "1.0" f si zi) c
  = Ok {| column_base :=
            {| controlType := None; dataVersion := "1.0"; order := si; id := None;
               controlData := Some (marker_data f si zi) |};
          factor := f; controls := controls c |}.
Proof.
  intros Hf Hsi Hzi. rewrite placeholder_markup. unfold CanvasColumn_fromHtml, marker_block.
  rewrite (CanvasControl_fromHtml_marker f si zi _ _ Hf Hsi Hzi). cbn [bind].
  rewrite controldata_of_tag
    by (apply marker_data_value; now apply position_nonneg).
  cbn [bind]. rewrite (decode_marker_data f si zi Hf Hsi Hzi). reflexivity.
Qed.

Lemma CanvasControl_fromHtml_text (guid : string) (k f si zi : Z) (post : string)
      (b : CanvasControl) :
  all_chars is_guid_char guid = true ->
  is_position k = true -> is_position f = true ->
  is_position si = true -> is_position zi = true ->
  CanvasControl_fromHtml
    (open_tag (jsonToEscapedString (text_data guid k f si zi)) ++ post) b
  = Ok {| controlType := Some 4; dataVersion := "1.0"; order := order b;
          id := Some guid; controlData := Some (text_data guid k f si zi) |}.
Proof.
  intros Hg Hk Hf Hsi Hzi. unfold CanvasControl_fromHtml.
  rewrite controldata_of_tag
    by (apply text_data_value; try assumption; now apply position_nonneg).
  cbn [bind]. rewrite (decode_text_data guid k f si zi Hg Hk Hf Hsi Hzi). cbn [bind].
  rewrite dataversion_of_tag. reflexivity.
Qed.

(** ** The content holder of a text control *)

(** A greedy star stops at the last code unit after which the rest of the
    expression matches. *)
Lemma match_greedy_at (cc : cclass) (ns : list node) (a1 : string) :
  forall prev a2 b m cap,
    all_chars (in_class cc) a1 = true ->
    all_chars (in_class cc) a2 = true ->
    (match b with String c _ => in_class cc c | EmptyString => false end) = false ->
    (forall p, match_nodes true ns p (a2 ++ b) = Some (m, cap)) ->
    (forall x y p, a2 = x ++ y -> x <> "" -> match_nodes true ns p (y ++ b) = None) ->
    match_nodes true (Star cc false false :: ns) prev (a1 ++ a2 ++ b)
    = Some ((String.length a1 + m)%nat, cap).
Proof.
  induction a1 as [|c a1 IH]; intros prev a2 b m cap H1 H2 Hb Hsome Hnone.
  - cbn [append String.length Nat.add]. rewrite match_star_eq. cbv zeta.
    rewrite Hsome. cbn [capture_start].
    destruct a2 as [|c a2].
    + cbn [append]. destruct b as [|c b]; [reflexivity|]. now rewrite Hb.
    + cbn [append]. cbn [all_chars] in H2. apply andb_true_iff in H2 as [Hc H2].
      rewrite Hc.
      rewrite (match_star_none cc false false ns a2 (Some c) b H2 Hb); [reflexivity|].
      intros x y p Hxy. apply (Hnone (String c x) y p); [|discriminate].
      cbn [append]. now rewrite Hxy.
  - cbn [all_chars] in H1. apply andb_true_iff in H1 as [Hc H1].
    cbn [append]. rewrite match_star_eq. cbv zeta. rewrite Hc.
    rewrite (IH (Some c) a2 b m cap H1 H2 Hb Hsome Hnone). reflexivity.
Qed.

Lemma guid_char_not_t (c : ascii) : is_guid_char c = true -> char_eq true "t" c = false.
Proof.
  intros H.
  assert (H' : forall x, is_guid_char x = true -> negb (char_eq true "t" x) = true)
    by (apply ascii_implies; vm_compute; reflexivity).
  now apply negb_true_iff, H'.
Qed.

(** The marker of the content holder does not start in an identifier of
    hexadecimal digits and dashes that an ampersand follows. *)
Lemma no_rte_in_guid (guid v : string) :
  all_chars is_guid_char guid = true ->
  no_start "data-sp-rte" guid (String "&" v).
Proof.
  induction guid as [|c1 u1 IH]; intros H; [exact I|].
  cbn [all_chars] in H. apply andb_true_iff in H as [_ H].
  split; [|now apply IH].
  cbn [append starts_ic]. destruct u1 as [|c2 u2].
  - cbn [append starts_ic]. apply andb_false_r.
  - cbn [append starts_ic]. destruct u2 as [|c3 u3].
    + cbn [append starts_ic]. rewrite andb_false_r. apply andb_false_r.
    + cbn [append starts_ic]. cbn [all_chars] in H.
      apply andb_true_iff in H as [_ H]. apply andb_true_iff in H as [H3 _].
      rewrite (guid_char_not_t c3 H3). cbn [andb]. rewrite andb_false_r. apply andb_false_r.
Qed.

Lemma no_start_digits (a : ascii) (l : string) (n : Z) (v : string) :
  is_digit a = false -> is_digit (fold_case a) = false -> 0 <= n ->
  no_start (String a l) (string_of_Z n) v.
Proof.
  intros Ha Hfa Hn. apply no_start_first.
  generalize (all_digits_Z n Hn). apply all_chars_weaken.
  intros c Hc. apply negb_true_iff. unfold char_eq.
  destruct (fold_case a =? fold_case c)%char eqn:E; [|reflexivity].
  apply Ascii.eqb_eq in E.
  assert (Hfc : fold_case c = c).
  { unfold fold_case. replace (is_lower c) with false; [reflexivity|].
    symmetry. revert Hc. clear. revert c.
    assert (H : forall c, is_digit c = true -> negb (is_lower c) = true).
    { apply ascii_implies. vm_compute. reflexivity. }
    intros c Hc. now apply negb_true_iff, H. }
  rewrite Hfc in E. congruence.
Qed.

(** The marker of the content holder does not start in the opening tag of
    a text control. *)
Lemma no_rte_in_tag (guid : string) (k f si zi : Z) (v : string) :
  all_chars is_guid_char guid = true ->
  0 <= k -> 0 <= f -> 0 <= si -> 0 <= zi ->
  no_start "data-sp-rte"
           (skipn_str 4 tag_head ++ jsonToEscapedString (text_data guid k f si zi) ++ DQ)
           (String ">" v).
Proof.
  intros Hg Hk Hf Hsi Hzi. rewrite text_data_encoded by assumption.
  rewrite !append_assoc.
  repeat (apply no_start_app;
          [first [ apply clear_no_start; vm_compute; reflexivity
                 | now apply no_start_digits
                 | now apply no_rte_in_guid ] |]).
  apply clear_no_start. vm_compute. reflexivity.
Qed.

Lemma line_in_any (text : string) :
  all_chars is_line_char text = true -> all_chars (in_class AnyChar) text = true.
Proof.
  apply all_chars_weaken.
  assert (H : forall c, is_line_char c = true -> in_class AnyChar c = true)
    by (apply ascii_implies; vm_compute; reflexivity).
  exact H.
Qed.

(** The expression of the content holder on the content holder itself. *)
Lemma match_rte_holder (prev : option ascii) (text rest : string) :
  plain_text text = true ->
  match_nodes true (re_nodes re_rte) prev
    ("<div" ++ (" " ++ (("data-sp-rte" ++ ("=" ++ DQ ++ DQ))
                        ++ String ">" (text ++ "</div>" ++ rest))))
  = Some ((4 + (1 + (11 + (3 + (1 + (String.length text + 6))))))%nat, text).
Proof.
  intros Htext. pose proof (plain_text_parts text Htext) as (Hline & _ & _).
  assert (Hinner : forall p,
             match_nodes true [Lit ">"; Star AnyChar true true; Lit "</div>"] p
               (">" ++ (text ++ "</div>" ++ rest))
             = Some ((1 + (String.length text + 6))%nat, text)).
  { intros p. rewrite match_lit_self.
    rewrite (match_lazy_star AnyChar [Lit "</div>"] text _ ("</div>" ++ rest) 6%nat ""
               (line_in_any text Hline)).
    - reflexivity.
    - intros a1 a2 q Ha Ha2. apply match_lit_none.
      apply (no_start_split "</div>" text ("</div>" ++ rest)
               (no_close_in_text text rest Htext) a1 a2 Ha Ha2).
    - intros q. rewrite match_lit_self. reflexivity. }
  assert (Hmarker : forall p,
             match_nodes true
               [Lit "data-sp-rte"; Star (NotChar ">") false false; Lit ">";
                Star AnyChar true true; Lit "</div>"] p
               (("data-sp-rte" ++ ("=" ++ DQ ++ DQ)) ++ String ">" (text ++ "</div>" ++ rest))
             = Some ((11 + (3 + (1 + (String.length text + 6))))%nat, text)).
  { intros p. rewrite append_assoc, match_lit_self.
    change (("=" ++ DQ ++ DQ) ++ String ">" (text ++ "</div>" ++ rest))
      with (("=" ++ DQ ++ DQ) ++ "" ++ String ">" (text ++ "</div>" ++ rest)).
    rewrite (match_greedy_at (NotChar ">") [Lit ">"; Star AnyChar true true; Lit "</div>"]
               ("=" ++ DQ ++ DQ) _ "" (String ">" (text ++ "</div>" ++ rest))
               (1 + (String.length text + 6))%nat text eq_refl eq_refl eq_refl).
    - reflexivity.
    - exact Hinner.
    - intros x y q Hxy Hx. destruct x; [congruence | discriminate Hxy]. }
  unfold re_rte, re_nodes. rewrite match_lit_self.
  rewrite (match_greedy_at (NotChar ">")
             [Lit "data-sp-rte"; Star (NotChar ">") false false; Lit ">";
              Star AnyChar true true; Lit "</div>"]
             " " _ ("data-sp-rte" ++ ("=" ++ DQ ++ DQ))
             (String ">" (text ++ "</div>" ++ rest))
             (11 + (3 + (1 + (String.length text + 6))))%nat text eq_refl eq_refl eq_refl).
  - reflexivity.
  - exact Hmarker.
  - intros x y q Hxy Hx. apply match_lit_none.
    destruct x as [|c x]; [congruence|].
    destruct y as [|d y]; [reflexivity|].
    assert (Hclear : no_start "data-sp-rte" (skipn_str 1 ("data-sp-rte" ++ ("=" ++ DQ ++ DQ)))
                       (String ">" (text ++ "</div>" ++ rest)))
      by (apply clear_no_start; vm_compute; reflexivity).
    apply (no_start_split _ _ _ Hclear x (String d y)); [|discriminate].
    cbn [append] in Hxy. inversion Hxy. reflexivity.
Qed.

(** The content holder of a text block is found, and what it holds is the
    text. *)
Lemma rte_of_text_block (guid : string) (k f si zi : Z) (text : string) :
  all_chars is_guid_char guid = true ->
  0 <= k -> 0 <= f -> 0 <= si -> 0 <= zi ->
  plain_text text = true ->
  exists pos n,
    exec re_rte (text_block (jsonToEscapedString (text_data guid k f si zi)) text)
    = Some (pos, (n, text)).
Proof.
  intros Hg Hk Hf Hsi Hzi Htext.
  pose proof (text_data_value guid k f si zi Hg Hk Hf Hsi Hzi) as Hvalue.
  pose proof (no_rte_in_tag guid k f si zi (rte_open ++ text ++ "</div>" ++ "</div>")
                Hg Hk Hf Hsi Hzi) as Hrte.
  revert Hvalue Hrte. generalize (jsonToEscapedString (text_data guid k f si zi)).
  intros enc Hvalue Hrte.
  (* nothing at the opening tag of the control *)
  assert (Hfirst : match_nodes true (re_nodes re_rte) None
                     ("<div" ++ ((skipn_str 4 tag_head ++ enc ++ DQ)
                                 ++ String ">" (rte_open ++ text ++ "</div>" ++ "</div>")))
                   = None).
  { unfold re_rte, re_nodes. rewrite match_lit_self.
    rewrite match_star_none; [reflexivity| |reflexivity|].
    - rewrite !all_chars_append, (value_in_tag enc Hvalue). reflexivity.
    - intros a1 a2 p Ha. apply match_lit_none.
      destruct a2 as [|c a2]; [reflexivity|].
      apply (no_start_split _ _ _ Hrte a1 (String c a2) Ha). discriminate. }
  unfold exec.
  replace (text_block enc text)
    with (String "<" (tag_rest enc ++ (rte_open ++ text ++ "</div>" ++ "</div>")))
    by (unfold text_block, open_tag; rewrite !append_assoc; reflexivity).
  rewrite exec_from_step; [|reflexivity|].
  2:{ replace (String "<" (tag_rest enc ++ rte_open ++ text ++ "</div>" ++ "</div>"))
        with ("<div" ++ ((skipn_str 4 tag_head ++ enc ++ DQ)
                         ++ String ">" (rte_open ++ text ++ "</div>" ++ "</div>")))
        by (unfold tag_rest; rewrite !append_assoc; reflexivity).
      exact Hfirst. }
  rewrite (exec_from_skip "<div" re_rte (tag_rest enc) _ lit_first_rte
             (no_open_in_tag enc _ Hvalue)).
  replace (rte_open ++ text ++ "</div>" ++ "</div>")
    with ("<div" ++ (" " ++ (("data-sp-rte" ++ ("=" ++ DQ ++ DQ))
                             ++ String ">" (text ++ "</div>" ++ "</div>"))))
    by (unfold rte_open; rewrite !append_assoc; reflexivity).
  rewrite (exec_from_here re_rte None _ _ _ (match_rte_holder None text "</div>" Htext)).
  eexists. eexists. reflexivity.
Qed.

(** A text control is read back from its block. *)
Lemma ClientSideText_fromHtml_block (guid : string) (k f si zi : Z) (text : string)
      (b : CanvasControl) :
  all_chars is_guid_char guid = true ->
  is_position k = true -> is_position f = true ->
  is_position si = true -> is_position zi = true ->
  plain_text text = true ->
  ClientSideText_fromHtml
    (text_block (jsonToEscapedString (text_data guid k f si zi)) text) b
  = Ok (ClientSideText
          {| controlType := Some 4; dataVersion := "1.0"; order := order b;
             id := Some guid; controlData := Some (text_data guid k f si zi) |}
          (set_text text)).
Proof.
  intros Hg Hk Hf Hsi Hzi Htext. unfold ClientSideText_fromHtml.
  unfold text_block at 1.
  rewrite (CanvasControl_fromHtml_text guid k f si zi _ b Hg Hk Hf Hsi Hzi). cbn [bind].
  destruct (rte_of_text_block guid k f si zi text Hg
              (position_nonneg k Hk) (position_nonneg f Hf) (position_nonneg si Hsi)
              (position_nonneg zi Hzi) Htext) as (pos & n & Hexec).
  rewrite Hexec. reflexivity.
Qed.

(** ** The discriminant of a block *)

Lemma exec_nowhere (l : string) (re : regex) (u : string) :
  lit_first l re -> no_start l u "" -> exec re u = None.
Proof.
  intros Hre Hno. unfold exec.
  rewrite <- (append_nil_r u) at 1.
  rewrite (exec_from_skip l re u "" Hre Hno).
  pose proof Hre as (ns & Hn & Hic & Hat & Hl).
  cbn [exec_from]. rewrite Hn, Hic, Hat.
  destruct l as [|a l]; [congruence|]. reflexivity.
Qed.

(** The placeholder of a column names no control type. *)
Lemma controlType_of_marker (f si zi : Z) :
  0 <= f -> 0 <= si -> 0 <= zi ->
  fragment_controlType (column_placeholder "1.0" f si zi) = Some 0.
Proof.
  intros Hf Hsi Hzi. unfold fragment_controlType.
  rewrite (exec_nowhere "controlType&quot;&#58;" re_controlType); [reflexivity| |].
  - exact lit_first_controlType.
  - rewrite placeholder_markup, marker_data_encoded by assumption.
    unfold marker_block, open_tag, tag_rest. rewrite !append_assoc.
    repeat (apply no_start_app;
            [first [ apply clear_no_start; vm_compute; reflexivity
                   | now apply no_start_digits ] |]).
    apply clear_no_start. vm_compute. reflexivity.
Qed.

(** A text block names the control type 4. *)
Lemma controlType_of_text (guid : string) (k f si zi : Z) (text : string) :
  all_chars is_guid_char guid = true ->
  0 <= k -> 0 <= f -> 0 <= si -> 0 <= zi ->
  fragment_controlType
    (text_block (jsonToEscapedString (text_data guid k f si zi)) text) = Some 4.
Proof.
  intros Hg Hk Hf Hsi Hzi. unfold fragment_controlType.
  rewrite text_data_encoded by assumption.
  generalize (guid ++ "&quot;,&quot;position&quot;&#58;&#123;&quot;controlIndex&quot;&#58;"
              ++ string_of_Z k ++ ",&quot;sectionFactor&quot;&#58;"
              ++ string_of_Z f ++ ",&quot;sectionIndex&quot;&#58;"
              ++ string_of_Z si ++ ",&quot;zoneIndex&quot;&#58;"
              ++ string_of_Z zi ++ "&#125;&#125;").
  intros tail.
  assert (Hexec : exists pos n,
             exec re_controlType
               (text_block
                  ("&#123;&quot;controlType&quot;&#58;4,&quot;editorType&quot;&#58;&quot;CKEditor&quot;,&quot;id&quot;&#58;&quot;"
                   ++ tail) text)
             = Some (pos, (n, "4"))).
  { unfold exec.
    replace (text_block
               ("&#123;&quot;controlType&quot;&#58;4,&quot;editorType&quot;&#58;&quot;CKEditor&quot;,&quot;id&quot;&#58;&quot;"
                ++ tail) text)
      with ((tag_head ++ "&#123;&quot;")
            ++ ("controlType&quot;&#58;"
                ++ ("4" ++ ("," ++ ("&quot;editorType&quot;&#58;&quot;CKEditor&quot;,&quot;id&quot;&#58;&quot;"
                            ++ tail ++ DQ ++ ">" ++ rte_open ++ text ++ "</div>" ++ "</div>")))))
      by (unfold text_block, open_tag, tag_rest; rewrite !append_assoc; reflexivity).
    rewrite (exec_from_skip "controlType&quot;&#58;" re_controlType _ _
               lit_first_controlType)
      by (apply clear_no_start; vm_compute; reflexivity).
    assert (Hm : forall rest,
               match_nodes true (re_nodes re_controlType) None
                 ("controlType&quot;&#58;" ++ ("4" ++ ("," ++ rest)))
               = Some ((22 + (1 + 1))%nat, "4")).
    { intros rest. unfold re_controlType, re_nodes. rewrite match_lit_self.
      rewrite (match_lazy_star DigitChar [Lit ","] "4" _ ("," ++ rest) 1%nat "" eq_refl).
      - reflexivity.
      - intros a1 a2 p Ha Ha2. destruct a1 as [|c a1].
        + cbn [append] in Ha. subst a2. reflexivity.
        + cbn [append] in Ha. inversion Ha as [[Hc Hrest]].
          destruct a1; [|discriminate Hrest]. cbn [append] in Hrest. congruence.
      - intros p. rewrite match_lit_self. reflexivity. }
    rewrite (exec_from_here re_controlType None _ _ _ (Hm _)).
    eexists. eexists. reflexivity. }
  destruct Hexec as (pos & n & ->). reflexivity.
Qed.

(* ===================================================================== *)
(** * The collector on a block *)
(* ===================================================================== *)

Lemma text_ok_parts (b : CanvasControl) (text : string) :
  text_ok (ClientSideText b text) = true ->
  controlType b = Some 4 /\ dataVersion b = "1.0" /\ id b = Some (guid_of b) /\
  all_chars is_guid_char (guid_of b) = true /\ plain_text text = true /\
  set_text text = text.
Proof.
  unfold text_ok, guid_of. destruct (controlType b) as [[|p|p]|]; try discriminate.
  do 3 (try destruct p as [p|p|]); try discriminate.
  destruct (id b) as [g|]; [|discriminate]. intros H.
  repeat (apply andb_true_iff in H as [H ?]). apply String.eqb_eq in H.
  repeat split; try assumption. unfold set_text.
  match goal with E : startsWith text "<p>" = true |- _ => now rewrite E end.
Qed.

Lemma fragment_ok_marker (dv : string) (f si zi : Z) :
  fragment_ok (Marker dv f si zi) = true ->
  dv = "1.0" /\ is_position f = true /\ is_position si = true /\ is_position zi = true.
Proof.
  cbn [fragment_ok]. intros H. repeat (apply andb_true_iff in H as [H ?]).
  apply String.eqb_eq in H. now repeat split.
Qed.

Lemma fragment_ok_text (b : CanvasControl) (text : string) (k f si zi : Z) :
  fragment_ok (TextFragment b text k f si zi) = true ->
  text_ok (ClientSideText b text) = true /\ is_position k = true /\
  is_position f = true /\ is_position si = true /\ is_position zi = true.
Proof.
  cbn [fragment_ok]. intros H. repeat (apply andb_true_iff in H as [H ?]).
  now repeat split.
Qed.

Lemma fragment_text_block (b : CanvasControl) (text : string) (k f si zi : Z) :
  text_ok (ClientSideText b text) = true ->
  fragment_html (TextFragment b text k f si zi)
  = text_block (jsonToEscapedString (text_data (guid_of b) k f si zi)) text.
Proof.
  intros H. apply text_ok_parts in H as (Hct & Hdv & Hid & _).
  cbn [fragment_html].
  now rewrite (text_markup b (guid_of b) text k _ Hct Hdv Hid).
Qed.

(** The blocks of a page of the class are blocks the scanner finds. *)
Lemma fragment_is_block (x : fragment) :
  fragment_ok x = true -> is_block (fragment_html x).
Proof.
  destruct x as [dv f si zi|b text k f si zi]; intros H.
  - apply fragment_ok_marker in H as (-> & Hf & Hsi & Hzi).
    exists (jsonToEscapedString (marker_data f si zi)). split.
    + apply marker_data_value; now apply position_nonneg.
    + left. apply placeholder_markup.
  - apply fragment_ok_text in H as (Hok & Hk & Hf & Hsi & Hzi).
    pose proof (text_ok_parts b text Hok) as (_ & _ & _ & Hg & Htext & _).
    exists (jsonToEscapedString (text_data (guid_of b) k f si zi)). split.
    + apply text_data_value; try assumption; now apply position_nonneg.
    + right. exists text. split; [exact Htext|]. now apply fragment_text_block.
Qed.

Lemma collect_marker (fuel : nat) (f si zi counter : Z) (tree : list CanvasSection) :
  is_position f = true -> is_position si = true -> is_position zi = true ->
  collect_control fuel (fragment_html (Marker "1.0" f si zi)) (counter, tree)
  = (merged <- mergeColumnToTree (parsed_column f si zi) tree ;;
     Ok (tt, (counter, merged))).
Proof.
  intros Hf Hsi Hzi. cbn [fragment_html]. unfold collect_control.
  rewrite controlType_of_marker by now apply position_nonneg.
  rewrite (CanvasColumn_fromHtml_marker f si zi _ Hf Hsi Hzi). reflexivity.
Qed.

Lemma collect_text (fuel : nat) (b : CanvasControl) (text : string)
      (k f si zi counter : Z) (tree : list CanvasSection) :
  fragment_ok (TextFragment b text k f si zi) = true ->
  collect_control fuel (fragment_html (TextFragment b text k f si zi)) (counter, tree)
  = (merged <- mergeControlToTree
                 (parsed_text (guid_of b) text (counter + 1) k f si zi) tree ;;
     Ok (tt, (counter + 1, merged))).
Proof.
  intros H. apply fragment_ok_text in H as (Hok & Hk & Hf & Hsi & Hzi).
  pose proof (text_ok_parts b text Hok) as (_ & _ & _ & Hg & Htext & _).
  rewrite (fragment_text_block b text k f si zi Hok). unfold collect_control.
  rewrite controlType_of_text by (try assumption; now apply position_nonneg).
  rewrite (ClientSideText_fromHtml_block (guid_of b) k f si zi text _
             Hg Hk Hf Hsi Hzi Htext).
  reflexivity.
Qed.

(* ===================================================================== *)
(** * Merging the blocks of a page into a tree *)
(* ===================================================================== *)

Lemma existsb_none {A : Type} (p : A -> bool) (l : list A) :
  Forall (fun x => p x = false) l -> existsb p l = false.
Proof. induction 1 as [|x l Hx Hl IH]; [reflexivity|]. cbn. now rewrite Hx. Qed.

Lemma existsb_last {A : Type} (p : A -> bool) (l : list A) (x : A) :
  p x = true -> existsb p (l ++ [x]) = true.
Proof. intros H. rewrite existsb_app. cbn. rewrite H. now rewrite orb_true_r. Qed.

Lemma update_first_last {A : Type} (p : A -> bool) (f : A -> A) (l : list A) (x : A) :
  Forall (fun y => p y = false) l -> p x = true ->
  update_first p f (l ++ [x]) = (l ++ [f x])%list.
Proof.
  intros Hl Hx. induction Hl as [|y l Hy Hl IH]; cbn [List.app update_first].
  - now rewrite Hx.
  - now rewrite Hy, IH.
Qed.

Lemma merged_section_last (zi : Z) (cs : list CanvasColumn) (c : CanvasColumn) :
  merged_section zi (cs ++ [c]) = [{| section_order := zi; columns := cs ++ [c] |}].
Proof. now destruct cs. Qed.

Lemma merged_column_last (si : Z) (ks : list Control) (k : Control) :
  merged_column si (ks ++ [k])
  = [{| column_base := with_order si (new_CanvasControl 0 "1.0" fresh_guid);
        factor := 12; controls := ks ++ [k] |}].
Proof. now destruct ks. Qed.

Section MergeInto.

(** The sections merged before the section [zi], and the columns of the
    section merged before the column [si]. *)
Variables (zi si : Z) (before : list CanvasSection) (columnsBefore : list CanvasColumn).

Hypothesis other_sections : Forall (fun s => (section_order s =? zi) = false) before.
Hypothesis other_columns :
  Forall (fun c => (column_order c =? si) = false) columnsBefore.

(** A placeholder is merged as the next column of its section. *)
Lemma merge_column_next (f : Z) :
  mergeColumnToTree (parsed_column f si zi) (before ++ merged_section zi columnsBefore)
  = Ok (before ++ merged_section zi (columnsBefore ++ [parsed_column f si zi]))%list.
Proof.
  unfold mergeColumnToTree.
  change (position_field "zoneIndex" (column_base (parsed_column f si zi)))
    with (Ok (Some (JNum zi)) : outcome jsval).
  cbn [bind as_number]. rewrite merged_section_last.
  destruct columnsBefore as [|c cs]; cbn [merged_section].
  - rewrite List.app_nil_r, (existsb_none _ _ other_sections). reflexivity.
  - rewrite existsb_last by (cbn; apply Z.eqb_refl).
    rewrite update_first_last; [reflexivity | exact other_sections |].
    cbn. apply Z.eqb_refl.
Qed.

(** A text control is merged as the next control of its column. *)
Lemma merge_control_next (guid text : string) (counter k f : Z) (ks : list Control) :
  mergeControlToTree (parsed_text guid text counter k f si zi)
    (before ++ merged_section zi (columnsBefore ++ merged_column si ks))
  = Ok (before ++ merged_section zi
          (columnsBefore
           ++ merged_column si (ks ++ [parsed_text guid text counter k f si zi])))%list.
Proof.
  unfold mergeControlToTree.
  change (position_field "zoneIndex" (base_of (parsed_text guid text counter k f si zi)))
    with (Ok (Some (JNum zi)) : outcome jsval).
  change (position_field "sectionIndex" (base_of (parsed_text guid text counter k f si zi)))
    with (Ok (Some (JNum si)) : outcome jsval).
  cbn [bind as_number].
  rewrite merged_column_last, merged_section_last.
  set (control := parsed_text guid text counter k f si zi).
  destruct ks as [|k0 ks]; cbn [merged_column].
  - rewrite List.app_nil_r.
    destruct columnsBefore as [|c cs]; cbn [merged_section].
    + rewrite List.app_nil_r, (existsb_none _ _ other_sections).
      cbn [columns existsb with_columns List.app section_order]. reflexivity.
    + rewrite existsb_last by (cbn; apply Z.eqb_refl).
      rewrite update_first_last; [|exact other_sections|cbn; apply Z.eqb_refl].
      cbn [columns]. rewrite (existsb_none _ _ other_columns). reflexivity.
  - rewrite merged_section_last.
    rewrite existsb_last by (cbn; apply Z.eqb_refl).
    rewrite update_first_last; [|exact other_sections|cbn; apply Z.eqb_refl].
    cbn [columns].
    rewrite existsb_last by (cbn; apply Z.eqb_refl).
    rewrite update_first_last; [reflexivity | exact other_columns |].
    cbn. apply Z.eqb_refl.
Qed.

End MergeInto.

Lemma collect_all_app (fuel : nat) (a b : list string) :
  forall st,
    collect_all fuel (a ++ b) st = (st' <- collect_all fuel a st ;; collect_all fuel b st').
Proof.
  induction a as [|x a IH]; intros st; [reflexivity|].
  cbn [List.app collect_all].
  destruct (collect_control fuel x st) as [[[] st']| | |]; cbn [bind]; auto.
Qed.

Lemma collect_all_cons (fuel : nat) (m : string) (ms : list string) (st : parse_state) :
  collect_all fuel (m :: ms) st
  = ('(_, st') <- collect_control fuel m st ;; collect_all fuel ms st').
Proof. reflexivity. Qed.

Lemma collect_all_nil (fuel : nat) (st : parse_state) : collect_all fuel [] st = Ok st.
Proof. reflexivity. Qed.

Lemma bind_Ok {A B : Type} (a : A) (f : A -> outcome B) : bind (Ok a) f = f a.
Proof. reflexivity. Qed.

Lemma is_position_iff (n : Z) : is_position n = true <-> 0 <= n <= Z.of_N max_safe.
Proof.
  unfold is_position. rewrite andb_true_iff, !Z.leb_le. reflexivity.
Qed.

Lemma is_count_bound (n : nat) : is_count n = true -> Z.of_nat n <= Z.of_N max_safe.
Proof. unfold is_count. intros H. apply is_position_iff in H. lia. Qed.

Lemma text_ok_alike (b : CanvasControl) (text : string) (counter k f si zi : Z) :
  text_ok (ClientSideText b text) = true ->
  control_alike (ClientSideText b text)
                (parsed_text (guid_of b) text counter k f si zi).
Proof.
  intros H. apply text_ok_parts in H as (Hct & Hdv & Hid & _ & _ & Hset).
  cbn. now rewrite Hset, Hct, Hdv, Hid.
Qed.

Section FoldColumn.

Variables (fuel : nat) (zi si : Z) (before : list CanvasSection)
          (columnsBefore : list CanvasColumn).

Hypothesis zone_position : is_position zi = true.
Hypothesis column_position : is_position si = true.
Hypothesis other_sections : Forall (fun s => (section_order s =? zi) = false) before.
Hypothesis other_columns :
  Forall (fun c => (column_order c =? si) = false) columnsBefore.

(** The text controls of a column are merged one after the other into the
    column the first of them creates. *)
Lemma collect_controls (cs : list Control) :
  forall i ks counter,
    forallb text_ok cs = true ->
    0 <= i -> i + Z.of_nat (List.length cs) <= Z.of_N max_safe ->
    exists parsed,
      collect_all fuel (map fragment_html (control_fragments i 12 si zi cs))
        (counter, before ++ merged_section zi (columnsBefore ++ merged_column si ks))%list
      = Ok (counter + Z.of_nat (List.length cs),
            before ++ merged_section zi
                        (columnsBefore ++ merged_column si (ks ++ parsed)))%list /\
      Forall2 control_alike cs parsed /\
      Forall is_block (map fragment_html (control_fragments i 12 si zi cs)).
Proof.
  induction cs as [|c cs IH]; intros i ks counter Hok Hi Hbound.
  - exists []. change (control_fragments i 12 si zi []) with (@nil fragment).
    change (map fragment_html []) with (@nil string).
    rewrite collect_all_nil, List.app_nil_r. cbn [List.length Z.of_nat].
    rewrite Z.add_0_r. repeat split; constructor.
  - cbn [forallb] in Hok. apply andb_true_iff in Hok as [Hc Hok].
    destruct c as [b text|b p]; [|discriminate Hc].
    cbn [List.length] in Hbound.
    assert (Hfrag : fragment_ok (TextFragment b text (i + 1) 12 si zi) = true).
    { cbn [fragment_ok]. rewrite Hc, zone_position, column_position.
      replace (is_position (i + 1)) with true
        by (symmetry; apply is_position_iff; lia).
      reflexivity. }
    destruct (IH (i + 1)
                 (ks ++ [parsed_text (guid_of b) text (counter + 1) (i + 1) 12 si zi])%list
                 (counter + 1) Hok ltac:(lia) ltac:(lia))
      as (parsed & Hrest & Halike & Hblocks).
    exists (parsed_text (guid_of b) text (counter + 1) (i + 1) 12 si zi :: parsed).
    change (control_fragments i 12 si zi (ClientSideText b text :: cs))
      with (TextFragment b text (i + 1) 12 si zi
            :: control_fragments (i + 1) 12 si zi cs).
    rewrite map_cons, collect_all_cons.
    rewrite (collect_text fuel b text (i + 1) 12 si zi counter _ Hfrag).
    rewrite (merge_control_next zi si before columnsBefore other_sections other_columns).
    rewrite bind_Ok, bind_Ok, Hrest. repeat split.
    + f_equal. f_equal; [cbn [List.length]; lia|].
      now rewrite <- List.app_assoc.
    + constructor; [now apply text_ok_alike | exact Halike].
    + constructor; [now apply fragment_is_block | exact Hblocks].
Qed.

End FoldColumn.

Lemma Forall2_nonempty {A B : Type} (R : A -> B -> Prop) (x : A) (xs : list A)
      (ys : list B) :
  Forall2 R (x :: xs) ys -> exists y ys', ys = y :: ys'.
Proof. intros H. inversion H; subst. eauto. Qed.

Section FoldSection.

Variables (fuel : nat) (zi : Z) (before : list CanvasSection).

Hypothesis zone_position : is_position zi = true.
Hypothesis other_sections : Forall (fun s => (section_order s =? zi) = false) before.

(** One column: its placeholder, or its text controls. *)
Lemma collect_column (c : CanvasColumn) (j : Z) (columnsBefore : list CanvasColumn)
      (counter : Z) :
  column_order c = j + 1 ->
  column_ok c = true ->
  0 <= j -> j + 1 <= Z.of_N max_safe ->
  Forall (fun c' => column_order c' <= j) columnsBefore ->
  exists counter1 c',
    collect_all fuel (map fragment_html (column_fragments zi c))
      (counter, before ++ merged_section zi columnsBefore)%list
    = Ok (counter1, before ++ merged_section zi (columnsBefore ++ [c']))%list /\
    column_alike c c' /\
    Forall is_block (map fragment_html (column_fragments zi c)).
Proof.
  intros Hc Hcok Hj Hbound Hbefore.
  assert (Hsi : is_position (j + 1) = true) by (apply is_position_iff; lia).
  assert (Hother : Forall (fun c' => (column_order c' =? j + 1) = false) columnsBefore).
  { revert Hbefore. apply Forall_impl. intros c' Hc'. apply Z.eqb_neq. lia. }
  unfold column_ok in Hcok. apply andb_true_iff in Hcok as [Hdv Hcok].
  apply String.eqb_eq in Hdv.
  unfold column_fragments. rewrite Hc, Hdv.
  destruct (controls c) as [|k ks] eqn:Hks.
  - exists counter, (parsed_column (factor c) (j + 1) zi).
    rewrite map_cons, collect_all_cons.
    rewrite (collect_marker fuel (factor c) (j + 1) zi counter _ Hcok Hsi zone_position).
    rewrite (merge_column_next zi (j + 1) before columnsBefore other_sections Hother).
    rewrite bind_Ok, bind_Ok. split; [reflexivity|]. split.
    + unfold column_alike, parsed_column, column_order.
      cbn [factor column_base order dataVersion controls].
      rewrite Hks, Hdv. repeat split; [exact (eq_sym Hc) | constructor].
    + constructor; [|constructor]. apply fragment_is_block. cbn [fragment_ok].
      now rewrite Hcok, Hsi, zone_position.
  - apply andb_true_iff in Hcok as [Hcok Hcount].
    apply andb_true_iff in Hcok as [Hf Htexts]. apply Z.eqb_eq in Hf.
    apply is_count_bound in Hcount. rewrite Hf.
    destruct (collect_controls fuel zi (j + 1) before columnsBefore zone_position Hsi
                other_sections Hother (k :: ks) 0 [] counter Htexts ltac:(lia)
                ltac:(lia))
      as (parsed & Hrun & Halike & Hblocks).
    rewrite List.app_nil_l in Hrun.
    change (merged_column (j + 1) []) with (@nil CanvasColumn) in Hrun.
    rewrite List.app_nil_r in Hrun.
    destruct (Forall2_nonempty _ _ _ _ Halike) as (p & ps & ->).
    exists (counter + Z.of_nat (List.length (k :: ks))).
    exists {| column_base := with_order (j + 1) (new_CanvasControl 0 "1.0" fresh_guid);
              factor := 12; controls := p :: ps |}.
    split; [exact Hrun|]. split; [|exact Hblocks].
    unfold column_alike, column_order.
    cbn [factor column_base order dataVersion controls with_order new_CanvasControl].
    rewrite Hks, Hdv, Hf. repeat split; [exact (eq_sym Hc) | exact Halike].
Qed.

(** The columns of a section are merged one after the other into the
    section the first of them creates. *)
Lemma collect_columns (cols : list CanvasColumn) :
  forall j columnsBefore counter,
    numbered_from column_order j cols ->
    forallb column_ok cols = true ->
    0 <= j -> j + Z.of_nat (List.length cols) <= Z.of_N max_safe ->
    Forall (fun c => column_order c <= j) columnsBefore ->
    exists counter' parsed,
      collect_all fuel (map fragment_html (flat_map (column_fragments zi) cols))
        (counter, before ++ merged_section zi columnsBefore)%list
      = Ok (counter', before ++ merged_section zi (columnsBefore ++ parsed))%list /\
      Forall2 column_alike cols parsed /\
      Forall is_block (map fragment_html (flat_map (column_fragments zi) cols)).
Proof.
  induction cols as [|c cols IH]; intros j columnsBefore counter Hn Hok Hj Hbound Hbefore.
  - exists counter, []. rewrite List.app_nil_r. repeat split; constructor.
  - destruct Hn as [Hc Hn]. cbn [forallb] in Hok.
    apply andb_true_iff in Hok as [Hcok Hok]. cbn [List.length] in Hbound.
    destruct (collect_column c j columnsBefore counter Hc Hcok Hj ltac:(lia) Hbefore)
      as (counter1 & c' & Hrun & Halike & Hblocks).
    destruct (IH (j + 1) (columnsBefore ++ [c'])%list counter1 Hn Hok ltac:(lia) ltac:(lia))
      as (counter2 & parsed & Hrest & Hrestalike & Hrestblocks).
    { apply Forall_app. split.
      - revert Hbefore. apply Forall_impl. intros x Hx. lia.
      - constructor; [|constructor]. destruct Halike as (_ & Ho & _). rewrite Ho, Hc. lia. }
    exists counter2, (c' :: parsed).
    change (flat_map (column_fragments zi) (c :: cols))
      with (column_fragments zi c ++ flat_map (column_fragments zi) cols)%list.
    rewrite map_app, collect_all_app, Hrun, bind_Ok, Hrest.
    repeat split.
    + now rewrite <- List.app_assoc.
    + constructor; assumption.
    + apply Forall_app. now split.
Qed.

End FoldSection.

(** The sections of a page are merged one after the other. *)
Lemma collect_sections (fuel : nat) (ss : list CanvasSection) :
  forall i before counter,
    numbered_from section_order i ss ->
    Forall columns_numbered ss ->
    forallb section_ok ss = true ->
    0 <= i -> i + Z.of_nat (List.length ss) <= Z.of_N max_safe ->
    Forall (fun s => section_order s <= i) before ->
    exists counter' parsed,
      collect_all fuel (map fragment_html (page_fragments ss)) (counter, before)
      = Ok (counter', before ++ parsed)%list /\
      Forall2 section_alike ss parsed /\
      Forall is_block (map fragment_html (page_fragments ss)).
Proof.
  induction ss as [|s ss IH]; intros i before counter Hn Hcols Hok Hi Hbound Hbefore.
  - exists counter, []. rewrite List.app_nil_r. repeat split; constructor.
  - destruct Hn as [Hs Hn]. inversion Hcols as [|? ? Hscols Hcols']; subst.
    cbn [forallb] in Hok. apply andb_true_iff in Hok as [Hsok Hok].
    cbn [List.length] in Hbound.
    assert (Hzi : is_position (i + 1) = true) by (apply is_position_iff; lia).
    assert (Hother : Forall (fun s' => (section_order s' =? i + 1) = false) before).
    { revert Hbefore. apply Forall_impl. intros s' Hs'. apply Z.eqb_neq. lia. }
    unfold section_ok in Hsok. unfold columns_numbered in Hscols.
    destruct (columns s) as [|c cs] eqn:Hcs; [discriminate Hsok|].
    apply andb_true_iff in Hsok as [Hcok Hcount]. apply is_count_bound in Hcount.
    destruct (collect_columns fuel (i + 1) before Hzi Hother (c :: cs) 0 [] counter
                Hscols Hcok ltac:(lia) ltac:(lia) ltac:(constructor))
      as (counter1 & parsedColumns & Hrun & Halike & Hblocks).
    change (merged_section (i + 1) []) with (@nil CanvasSection) in Hrun.
    rewrite List.app_nil_r, List.app_nil_l in Hrun.
    destruct (Forall2_nonempty _ _ _ _ Halike) as (p & ps & ->).
    change (merged_section (i + 1) (p :: ps))
      with [{| section_order := i + 1; columns := p :: ps |}] in Hrun.
    destruct (IH (i + 1)
                 (before ++ [{| section_order := i + 1; columns := p :: ps |}])%list
                 counter1 Hn Hcols' Hok ltac:(lia) ltac:(lia))
      as (counter2 & parsed & Hrest & Hrestalike & Hrestblocks).
    { apply Forall_app. split.
      - revert Hbefore. apply Forall_impl. intros x Hx. lia.
      - constructor; [cbn; lia | constructor]. }
    exists counter2, ({| section_order := i + 1; columns := p :: ps |} :: parsed).
    change (page_fragments (s :: ss))
      with (flat_map (column_fragments (section_order s)) (columns s)
            ++ page_fragments ss)%list.
    rewrite Hs, Hcs, map_app, collect_all_app, Hrun, bind_Ok, Hrest. repeat split.
    + now rewrite <- List.app_assoc.
    + constructor; [|exact Hrestalike]. split; [cbn; now rewrite Hs|].
      cbn [columns]. rewrite Hcs. exact Halike.
    + apply Forall_app. now split.
Qed.

(* ===================================================================== *)
(** * Rendering a parsed page again *)
(* ===================================================================== *)

Lemma length_reindex_from {A : Type} `{Orderable A} (xs : list A) :
  forall i, List.length (reindex_from i xs) = List.length xs.
Proof. induction xs as [|x xs IH]; intros i; [reflexivity|]. cbn. now rewrite IH. Qed.

Lemma forallb_reindex_from {A : Type} `{Orderable A} (p : A -> bool) (xs : list A) :
  (forall o x, p (reindex_children (set_order o x)) = p x) ->
  forall i, forallb p (reindex_from i xs) = forallb p xs.
Proof.
  intros Hp. induction xs as [|x xs IH]; intros i; [reflexivity|].
  cbn [reindex_from forallb]. now rewrite Hp, IH.
Qed.

Lemma text_ok_reindexed (o : Z) (c : Control) :
  text_ok (reindex_children (set_order o c)) = text_ok c.
Proof. destruct c as [b t|b p]; reflexivity. Qed.

Lemma column_ok_reindexed (o : Z) (c : CanvasColumn) :
  column_ok (reindex_children (set_order o c)) = column_ok c.
Proof.
  unfold column_ok.
  cbn [reindex_children set_order Orderable_CanvasColumn with_controls column_base factor
       controls with_order dataVersion].
  f_equal. unfold reindex. destruct (controls c) as [|k ks]; [reflexivity|].
  change (reindex_from 0 (k :: ks))
    with (reindex_children (set_order (0 + 1) k) :: reindex_from (0 + 1) ks).
  cbv iota. cbn [forallb List.length].
  now rewrite length_reindex_from, text_ok_reindexed,
    (forallb_reindex_from text_ok ks text_ok_reindexed).
Qed.

Lemma section_ok_reindexed (o : Z) (s : CanvasSection) :
  section_ok (reindex_children (set_order o s)) = section_ok s.
Proof.
  unfold section_ok.
  cbn [reindex_children set_order Orderable_CanvasSection with_columns columns].
  unfold reindex. destruct (columns s) as [|c cs]; [reflexivity|].
  change (reindex_from 0 (c :: cs))
    with (reindex_children (set_order (0 + 1) c) :: reindex_from (0 + 1) cs).
  cbv iota. cbn [forallb List.length].
  now rewrite length_reindex_from, column_ok_reindexed,
    (forallb_reindex_from column_ok cs column_ok_reindexed).
Qed.

Lemma text_ok_is_text (c : Control) : text_ok c = true -> is_text c = true.
Proof. now destruct c. Qed.

Lemma sections_ok_only_text (ss : list CanvasSection) :
  forallb section_ok ss = true -> only_text ss = true.
Proof.
  unfold only_text. induction ss as [|s ss IH]; [reflexivity|].
  cbn [forallb]. intros H. apply andb_true_iff in H as [Hs H].
  rewrite (IH H), andb_true_r. clear IH H.
  unfold section_ok in Hs. destruct (columns s) as [|c0 cs0] eqn:E; [discriminate Hs|].
  apply andb_true_iff in Hs as [Hs _]. revert Hs. generalize (c0 :: cs0). clear.
  induction l as [|c cs IH]; [reflexivity|].
  cbn [forallb]. intros H. apply andb_true_iff in H as [Hc H].
  rewrite (IH H), andb_true_r. clear IH H.
  unfold column_ok in Hc. apply andb_true_iff in Hc as [_ Hc].
  destruct (controls c) as [|k ks]; [reflexivity|].
  apply andb_true_iff in Hc as [Hc _]. apply andb_true_iff in Hc as [_ Hc].
  revert Hc. generalize (k :: ks). clear.
  induction l as [|k ks IH]; [reflexivity|].
  cbn [forallb]. intros H. apply andb_true_iff in H as [Hk H].
  now rewrite (text_ok_is_text k Hk), (IH H).
Qed.

(** ** Trees that are rendered alike *)

Lemma alike_is_text (cs cs' : list Control) :
  Forall2 control_alike cs cs' -> forallb is_text cs' = true.
Proof.
  induction 1 as [|c c' cs cs' Hc Hcs IH]; [reflexivity|].
  cbn [forallb]. rewrite IH, andb_true_r.
  destruct c, c'; cbn in Hc; try contradiction; reflexivity.
Qed.

Lemma alike_only_text (ss ss' : list CanvasSection) :
  Forall2 section_alike ss ss' -> only_text ss' = true.
Proof.
  unfold only_text. induction 1 as [|s s' ss ss' Hs Hss IH]; [reflexivity|].
  cbn [forallb]. rewrite IH, andb_true_r. destruct Hs as [_ Hcols]. clear - Hcols.
  induction Hcols as [|c c' cs cs' Hc Hcs IH]; [reflexivity|].
  cbn [forallb]. rewrite IH, andb_true_r. destruct Hc as (_ & _ & _ & Hks).
  now apply alike_is_text in Hks.
Qed.

Lemma text_fragment_alike (b b' : CanvasControl) (t : string) (k f si zi : Z) :
  controlType b' = controlType b -> dataVersion b' = dataVersion b -> id b' = id b ->
  fragment_html (TextFragment b' t k f si zi) = fragment_html (TextFragment b t k f si zi).
Proof.
  intros Hct Hdv Hid. cbn [fragment_html].
  unfold ClientSideText_toHtml, ClientSideText_getControlData.
  cbn [snd markup_of with_order controlType dataVersion id order].
  now rewrite Hct, Hdv, Hid.
Qed.

Lemma alike_control_fragments (cs cs' : list Control) (f si zi : Z) :
  Forall2 control_alike cs cs' ->
  forall q k,
    map fragment_html (control_fragments k f si zi (reindex_from q cs'))
    = map fragment_html (control_fragments k f si zi (reindex_from q cs)).
Proof.
  induction 1 as [|c c' cs cs' Hc Hcs IH]; intros q k; [reflexivity|].
  destruct c as [b t|b p], c' as [b' t'|b' p']; cbn in Hc; try contradiction.
  destruct Hc as (-> & Hct & Hdv & Hid).
  change (reindex_from q (ClientSideText b' t :: cs'))
    with (ClientSideText (with_order (q + 1) b') t :: reindex_from (q + 1) cs').
  change (reindex_from q (ClientSideText b t :: cs))
    with (ClientSideText (with_order (q + 1) b) t :: reindex_from (q + 1) cs).
  cbn [control_fragments map]. rewrite IH. f_equal.
  apply text_fragment_alike; assumption.
Qed.

Lemma alike_column_fragments (cols cols' : list CanvasColumn) (zi : Z) :
  Forall2 column_alike cols cols' ->
  forall j,
    map fragment_html (flat_map (column_fragments zi) (reindex_from j cols'))
    = map fragment_html (flat_map (column_fragments zi) (reindex_from j cols)).
Proof.
  induction 1 as [|c c' cols cols' Hc Hcols IH]; intros j; [reflexivity|].
  cbn [reindex_from flat_map]. rewrite !map_app, IH. f_equal.
  destruct Hc as (Hf & _ & Hdv & Hks).
  unfold column_fragments, column_order.
  cbn [reindex_children set_order Orderable_CanvasColumn with_controls column_base factor
       controls with_order dataVersion order].
  rewrite Hf, Hdv. unfold reindex.
  destruct (controls c) as [|k ks], (controls c') as [|k' ks'];
    [reflexivity | inversion Hks | inversion Hks |].
  pose proof (alike_control_fragments _ _ (factor c) (j + 1) zi Hks 0 0) as Hfr.
  change (reindex_from 0 (k' :: ks'))
    with (reindex_children (set_order (0 + 1) k') :: reindex_from (0 + 1) ks') in *.
  change (reindex_from 0 (k :: ks))
    with (reindex_children (set_order (0 + 1) k) :: reindex_from (0 + 1) ks) in *.
  cbv iota. exact Hfr.
Qed.

Lemma alike_page_fragments (ss ss' : list CanvasSection) :
  Forall2 section_alike ss ss' ->
  forall i,
    map fragment_html (page_fragments (reindex_from i ss'))
    = map fragment_html (page_fragments (reindex_from i ss)).
Proof.
  induction 1 as [|s s' ss ss' Hs Hss IH]; intros i; [reflexivity|].
  unfold page_fragments in *. cbn [reindex_from flat_map]. rewrite !map_app, IH. f_equal.
  destruct Hs as [_ Hcols]. unfold section_fragments.
  cbn [reindex_children set_order Orderable_CanvasSection with_columns columns
       section_order].
  apply alike_column_fragments. exact Hcols.
Qed.

(** ** The round trip *)

Lemma fragments_html_join (xs : list fragment) :
  fragments_html xs = join (map fragment_html xs).
Proof. reflexivity. Qed.

(** A page of the class is parsed back from its markup into a tree that is
    rendered alike. *)
Lemma parse_rendered (page : ClientSidePage) (fuel : nat) :
  page_ok page = true ->
  (List.length (page_fragments (reindex (sections page))) + 2 <= fuel)%nat ->
  exists parsed,
    fromHtml fuel
      (Some ("<div>" ++ fragments_html (page_fragments (reindex (sections page)))
             ++ "</div>")) page
    = Ok {| sections := parsed; commentsDisabled := commentsDisabled page |} /\
    Forall2 section_alike (reindex (sections page)) parsed.
Proof.
  intros Hok Hfuel. unfold page_ok in Hok. apply andb_true_iff in Hok as [Hok Hcount].
  apply is_count_bound in Hcount.
  destruct (reindex_sections_reindexed (sections page)) as [Hn Hall].
  assert (Hcols : Forall columns_numbered (reindex (sections page))).
  { revert Hall. apply Forall_impl. intros s [H _]. exact H. }
  assert (Hok' : forallb section_ok (reindex (sections page)) = true).
  { unfold reindex. now rewrite (forallb_reindex_from section_ok _ section_ok_reindexed). }
  destruct (collect_sections fuel (reindex (sections page)) 0 [] 0 Hn Hcols Hok'
              ltac:(lia))
    as (counter & parsed & Hrun & Halike & Hblocks).
  { unfold reindex. rewrite length_reindex_from. lia. }
  { constructor. }
  exists parsed. split; [|exact Halike].
  rewrite (fromHtml_collect_all fuel _ page
             (map fragment_html (page_fragments (reindex (sections page))))).
  - rewrite Hrun. reflexivity.
  - rewrite fragments_html_join. apply fragments_of_blocks; [exact Hblocks|].
    now rewrite length_map.
Qed.

(** X21: for a page of the class (every section has a column; the columns
    have data version 1.0 and are empty, or have factor 12 and hold text
    controls with control type 4, data version 1.0, an id of hexadecimal
    digits and dashes and a text that starts with the paragraph tag and
    holds no tab, carriage return, line feed or div tag), toHtml returns the
    markup, fromHtml parses it, and toHtml of the parsed page returns the
    same markup, whatever the orders in the page were. *)
Theorem X21_render_parse_render (page : ClientSidePage) (fuel : nat) :
  page_ok page = true ->
  (block_count page + 2 <= fuel)%nat ->
  exists html,
    snd (toHtml page) = Ok html /\ render_parse_render fuel page = Ok html.
Proof.
  intros Hok Hfuel. unfold block_count in Hfuel.
  pose proof Hok as Hsections. unfold page_ok in Hsections.
  apply andb_true_iff in Hsections as [Hsections _].
  pose proof (toHtml_fragments page (sections_ok_only_text _ Hsections)) as Hfirst.
  destruct (parse_rendered page fuel Hok Hfuel) as (parsed & Hparse & Halike).
  eexists. split; [exact Hfirst|].
  unfold render_parse_render. rewrite Hfirst, bind_Ok, Hparse, bind_Ok.
  rewrite (toHtml_fragments
             {| sections := parsed; commentsDisabled := commentsDisabled page |}
             (alike_only_text _ _ Halike)).
  cbn [sections].
  rewrite !fragments_html_join.
  unfold reindex at 1. rewrite (alike_page_fragments _ _ Halike 0).
  fold (reindex (reindex (sections page))). now rewrite reindex_sections_twice.
Qed.

Lemma X21_witness :
  exists html,
    snd (toHtml sample_page) = Ok html /\ render_parse_render 6 sample_page = Ok html.
Proof.
  apply (X21_render_parse_render sample_page 6); [reflexivity|].
  vm_compute. lia.
Defined.

(** X15: when the text name= followed by a double quote starts, in any
    letter case, at no position before its occurrence in pre name="value"
    post, and the value holds no double quote, getAttrValueFromString
    returns the value. *)
Theorem X15_getAttrValueFromString_value (pre attrName value post : string) :
  no_start (attrName ++ "=" ++ DQ) pre ((attrName ++ "=" ++ DQ) ++ value ++ DQ ++ post) ->
  all_chars (in_class (NotChar dquote)) value = true ->
  getAttrValueFromString (pre ++ (attrName ++ "=" ++ DQ) ++ value ++ DQ ++ post) attrName
  = Ok value.
Proof. apply attr_value. Qed.

Lemma X15_witness :
  getAttrValueFromString
    ("<div data-sp-a=" ++ DQ ++ "1" ++ DQ ++ " "
     ++ ("DATA-sp-b" ++ "=" ++ DQ) ++ "x y" ++ DQ ++ ("></div>")) "DATA-sp-b"
  = Ok "x y".
Proof.
  apply (X15_getAttrValueFromString_value
           ("<div data-sp-a=" ++ DQ ++ "1" ++ DQ ++ " ") "DATA-sp-b" "x y" "></div>");
    [|reflexivity].
  vm_compute. repeat split.
Defined.

(** X16: in markup that consists of the opening tag of the page, blocks as
    the rendering writes them (placeholders of columns and text controls,
    around encoded metadata without angle brackets, quotes or white space
    the scanner removes, and texts without such white space or div tags)
    and the closing tag of the page, the scanner finds exactly these blocks,
    in order, given fuel for two turns more than there are blocks. *)
Theorem X16_scanner_finds_the_blocks (xs : list string) (fuel : nat) :
  Forall is_block xs ->
  (List.length xs + 2 <= fuel)%nat ->
  fragments fuel (Some ("<div>" ++ join xs ++ "</div>")) = Ok xs.
Proof. apply fragments_of_blocks. Qed.

Lemma X16_witness :
  fragments 4 (Some ("<div>"
                     ++ join [marker_block "&#123;&#125;";
                              text_block "&#123;&#125;" "<p>a <b>b</b></p>"]
                     ++ "</div>"))
  = Ok [marker_block "&#123;&#125;"; text_block "&#123;&#125;" "<p>a <b>b</b></p>"].
Proof.
  apply (X16_scanner_finds_the_blocks
           [marker_block "&#123;&#125;"; text_block "&#123;&#125;" "<p>a <b>b</b></p>"] 4).
  - repeat constructor.
    + exists "&#123;&#125;". split; [reflexivity|]. now left.
    + exists "&#123;&#125;". split; [reflexivity|]. right.
      exists "<p>a <b>b</b></p>". split; reflexivity.
  - simpl. lia.
Defined.

(** X17: a text control of the class (control type 4, data version 1.0, an
    id of hexadecimal digits and dashes, a text without tab, carriage
    return, line feed or div tag) that toHtml renders at a position is read
    back by ClientSideText.fromHtml with the same id, control type and data
    version, with the decoded metadata of that position, and with the text
    as the setter stores it; the order of the receiving control is kept. *)
Theorem X17_text_control_round_trip (b fresh : CanvasControl) (guid text : string)
        (k f si zi : Z) :
  controlType b = Some 4 -> dataVersion b = "1.0" -> id b = Some guid ->
  all_chars is_guid_char guid = true -> plain_text text = true ->
  is_position k = true -> is_position f = true ->
  is_position si = true -> is_position zi = true ->
  ClientSideText_fromHtml (text_markup_at b text k f si zi) fresh
  = Ok (ClientSideText
          {| controlType := Some 4; dataVersion := "1.0"; order := order fresh;
             id := Some guid; controlData := Some (text_data guid k f si zi) |}
          (set_text text)).
Proof.
  intros Hct Hdv Hid Hg Htext Hk Hf Hsi Hzi. unfold text_markup_at.
  rewrite (text_markup b guid text k _ Hct Hdv Hid). cbn [owner_factor owner_sectionIndex
                                                          owner_zoneIndex].
  now apply ClientSideText_fromHtml_block.
Qed.

Lemma X17_witness :
  ClientSideText_fromHtml
    (text_markup_at (new_CanvasControl 4 "1.0" "0f-3A") "two words" 2 12 1 3)
    (new_CanvasControl 4 "1.0" fresh_guid)
  = Ok (ClientSideText
          {| controlType := Some 4; dataVersion := "1.0";
             order := order (new_CanvasControl 4 "1.0" fresh_guid);
             id := Some "0f-3A"; controlData := Some (text_data "0f-3A" 2 12 1 3) |}
          (set_text "two words")).
Proof.
  apply (X17_text_control_round_trip (new_CanvasControl 4 "1.0" "0f-3A")
           (new_CanvasControl 4 "1.0" fresh_guid) "0f-3A" "two words" 2 12 1 3);
    reflexivity.
Defined.

(** X18: the placeholder CanvasColumn.toHtml writes for a column without
    controls (data version 1.0, any factor and orders that are exact number
    values) is read back by CanvasColumn.fromHtml as a column with the same
    factor and order, the data version 1.0, no control type and no id; the
    controls of the receiving column are kept. *)
Theorem X18_column_round_trip (c fresh : CanvasColumn) (zone : Z) :
  controls c = [] -> dataVersion (column_base c) = "1.0" ->
  is_position (factor c) = true -> is_position (column_order c) = true ->
  is_position zone = true ->
  exists html,
    snd (CanvasColumn_toHtml zone c) = Ok html /\
    CanvasColumn_fromHtml html fresh
    = Ok {| column_base :=
              {| controlType := None; dataVersion := "1.0"; order := column_order c;
                 id := None;
                 controlData := Some (marker_data (factor c) (column_order c) zone) |};
            factor := factor c; controls := controls fresh |}.
Proof.
  intros Hks Hdv Hf Hsi Hzi. unfold CanvasColumn_toHtml. rewrite Hks, Hdv.
  eexists. split; [reflexivity|].
  change (control_open "1.0"
            (jsonToEscapedString (CanvasColumn_getControlData zone c)) "></div>")
    with (column_placeholder "1.0" (factor c) (column_order c) zone).
  now apply CanvasColumn_fromHtml_marker.
Qed.

Lemma X18_witness :
  exists html,
    snd (CanvasColumn_toHtml 2 (new_CanvasColumn "c" 3 8)) = Ok html /\
    CanvasColumn_fromHtml html (new_CanvasColumn fresh_guid 0 12)
    = Ok {| column_base :=
              {| controlType := None; dataVersion := "1.0";
                 order := column_order (new_CanvasColumn "c" 3 8); id := None;
                 controlData :=
                   Some (marker_data (factor (new_CanvasColumn "c" 3 8))
                                     (column_order (new_CanvasColumn "c" 3 8)) 2) |};
            factor := factor (new_CanvasColumn "c" 3 8);
            controls := controls (new_CanvasColumn fresh_guid 0 12) |}.
Proof.
  apply (X18_column_round_trip (new_CanvasColumn "c" 3 8) (new_CanvasColumn fresh_guid 0 12) 2);
    reflexivity.
Defined.

(* ===================================================================== *)
(** * What a merge does to a tree *)
(* ===================================================================== *)

Lemma update_first_split {A : Type} (p : A -> bool) (f : A -> A) (l : list A) :
  existsb p l = true ->
  exists a x b,
    l = (a ++ x :: b)%list /\ p x = true /\ update_first p f l = (a ++ f x :: b)%list.
Proof.
  induction l as [|y l IH]; [discriminate|].
  cbn [existsb update_first]. destruct (p y) eqn:E.
  - intros _. exists [], y, l. now repeat split.
  - intros H. destruct (IH H) as (a & x & b & -> & Hx & Hu).
    exists (y :: a), x, b. cbn [List.app]. now rewrite Hu.
Qed.

Lemma flat_map_middle {A B : Type} (g : A -> list B) (a : list A) (x : A) (b : list A) :
  flat_map g (a ++ x :: b) = (flat_map g a ++ g x ++ flat_map g b)%list.
Proof. rewrite flat_map_app. reflexivity. Qed.

(** X19: mergeControlToTree, for a control whose metadata names the zone
    zi and the section si, returns; it keeps the sections and their order
    and appends a section of order zi when there is none; every control of
    the tree is kept, in the same document order, and the control is added
    as the last control of a column of order si in a section of order zi. *)
Theorem X19_mergeControlToTree_inserts (control : Control) (ss : list CanvasSection)
        (zi si : Z) :
  control_at zi si control ->
  exists merged,
    mergeControlToTree control ss = Ok merged /\
    map section_order merged
    = (map section_order ss
       ++ if existsb (fun s => section_order s =? zi) ss then [] else [zi])%list /\
    (exists before after,
        tree_controls ss = (before ++ after)%list /\
        tree_controls merged = (before ++ control :: after)%list) /\
    (exists s c earlier,
        In s merged /\ section_order s = zi /\ In c (columns s) /\
        column_order c = si /\ controls c = (earlier ++ [control])%list).
Proof.
  intros [Hz Hs]. unfold mergeControlToTree. rewrite Hz, Hs. cbn [bind as_number].
  match goal with
  | |- context [update_first _ ?f ss] => set (into := f)
  end.
  assert (Hinto : forall s,
             section_order (into s) = section_order s /\
             (exists before after,
                 section_controls s = (before ++ after)%list /\
                 section_controls (into s) = (before ++ control :: after)%list) /\
             (exists c earlier,
                 In c (columns (into s)) /\ column_order c = si /\
                 controls c = (earlier ++ [control])%list)).
  { intros s. unfold into. clear into.
    destruct (existsb (fun c => column_order c =? si) (columns s)) eqn:E.
    - destruct (update_first_split _ (CanvasColumn_addControl control) _ E)
        as (a & x & b & Hcols & Hx & Hu).
      rewrite Hu. cbn [with_columns section_order columns]. split; [reflexivity|]. split.
      + exists (flat_map controls a ++ controls x)%list, (flat_map controls b).
        unfold section_controls. cbn [columns with_columns].
        rewrite Hcols, !flat_map_middle.
        cbn [CanvasColumn_addControl with_controls controls].
        rewrite <- !List.app_assoc. split; reflexivity.
      + exists (CanvasColumn_addControl control x), (controls x).
        split; [apply in_elt|]. split; [|reflexivity].
        apply Z.eqb_eq in Hx. exact Hx.
    - cbn [with_columns section_order columns]. split; [reflexivity|]. split.
      + exists (section_controls s), []. unfold section_controls.
        cbn [columns with_columns].
        rewrite flat_map_app, List.app_nil_r. split; reflexivity.
      + eexists. exists []. split; [apply in_elt|]. split; reflexivity. }
  destruct (existsb (fun s => section_order s =? zi) ss) eqn:E.
  - destruct (update_first_split _ into _ E) as (a & x & b & Hss & Hx & Hu).
    destruct (Hinto x) as (Ho & (before & after & Hb & Ha) & (c & earlier & Hc)).
    eexists. split; [reflexivity|]. rewrite Hu. split; [|split].
    + rewrite Hss, !map_app, List.app_nil_r. cbn [map]. now rewrite Ho.
    + exists (tree_controls a ++ before)%list, (after ++ tree_controls b)%list.
      unfold tree_controls. rewrite Hss, !flat_map_middle, Hb, Ha.
      rewrite <- !List.app_assoc. split; reflexivity.
    + exists (into x), c, earlier. split; [apply in_elt|]. split; [|exact Hc].
      rewrite Ho. now apply Z.eqb_eq in Hx.
  - match goal with
    | |- context [(ss ++ [?t])%list] =>
        change t with (into {| section_order := zi; columns := [] |})
    end.
    destruct (Hinto {| section_order := zi; columns := [] |})
      as (Ho & (before & after & Hb & Ha) & (c & earlier & Hc)).
    eexists. split; [reflexivity|]. split; [|split].
    + rewrite map_app. cbn [map]. now rewrite Ho.
    + exists (tree_controls ss), []. unfold tree_controls.
      rewrite flat_map_app, List.app_nil_r. cbn [flat_map]. rewrite Ha, List.app_nil_r.
      destruct before; [|discriminate Hb]. destruct after; [|discriminate Hb].
      split; reflexivity.
    + exists (into {| section_order := zi; columns := [] |}), c, earlier.
      split; [apply in_elt|]. split; [exact Ho | exact Hc].
Qed.

Lemma X19_witness :
  exists merged,
    mergeControlToTree (discovered "a" 2 1) [] = Ok merged /\
    map section_order merged
    = (map section_order []
       ++ if existsb (fun s => section_order s =? 2) [] then [] else [2])%list /\
    (exists before after,
        tree_controls [] = (before ++ after)%list /\
        tree_controls merged = (before ++ discovered "a" 2 1 :: after)%list) /\
    (exists s c earlier,
        In s merged /\ section_order s = 2 /\ In c (columns s) /\
        column_order c = 1 /\ controls c = (earlier ++ [discovered "a" 2 1])%list).
Proof.
  apply (X19_mergeControlToTree_inserts (discovered "a" 2 1) [] 2 1).
  split; reflexivity.
Defined.

(** X20: mergeColumnToTree, for a column whose metadata names the zone zi,
    returns; it keeps the sections and their order and appends a section of
    order zi when there is none; every column of the tree is kept, in the
    same document order, and the column is added as the last column of a
    section of order zi. *)
Theorem X20_mergeColumnToTree_inserts (column : CanvasColumn) (ss : list CanvasSection)
        (zi : Z) :
  position_field "zoneIndex" (column_base column) = Ok (Some (JNum zi)) ->
  exists merged,
    mergeColumnToTree column ss = Ok merged /\
    map section_order merged
    = (map section_order ss
       ++ if existsb (fun s => section_order s =? zi) ss then [] else [zi])%list /\
    (exists before after,
        tree_columns ss = (before ++ after)%list /\
        tree_columns merged = (before ++ column :: after)%list) /\
    (exists s earlier,
        In s merged /\ section_order s = zi /\
        columns s = (earlier ++ [column])%list).
Proof.
  intros Hz. unfold mergeColumnToTree. rewrite Hz. cbn [bind as_number].
  destruct (existsb (fun s => section_order s =? zi) ss) eqn:E.
  - destruct (update_first_split _
                (fun section => with_columns (columns section ++ [column]) section) _ E)
      as (a & x & b & Hss & Hx & Hu).
    eexists. split; [reflexivity|]. rewrite Hu. split; [|split].
    + rewrite Hss, !map_app, List.app_nil_r. reflexivity.
    + exists (tree_columns a ++ columns x)%list, (tree_columns b).
      unfold tree_columns. rewrite Hss, !flat_map_middle. cbn [with_columns columns].
      rewrite <- !List.app_assoc. split; reflexivity.
    + eexists. exists (columns x). split; [apply in_elt|]. split; [|reflexivity].
      cbn. now apply Z.eqb_eq in Hx.
  - eexists. split; [reflexivity|]. split; [|split].
    + rewrite map_app. reflexivity.
    + exists (tree_columns ss), []. unfold tree_columns.
      rewrite flat_map_app, List.app_nil_r. split; reflexivity.
    + eexists. exists []. split; [apply in_elt|]. split; reflexivity.
Qed.

Lemma X20_witness :
  exists merged,
    mergeColumnToTree (parsed_column 6 1 2) [] = Ok merged /\
    map section_order merged
    = (map section_order []
       ++ if existsb (fun s => section_order s =? 2) [] then [] else [2])%list /\
    (exists before after,
        tree_columns [] = (before ++ after)%list /\
        tree_columns merged = (before ++ parsed_column 6 1 2 :: after)%list) /\
    (exists s earlier,
        In s merged /\ section_order s = 2 /\
        columns s = (earlier ++ [parsed_column 6 1 2])%list).
Proof.
  apply (X20_mergeColumnToTree_inserts (parsed_column 6 1 2) [] 2). reflexivity.
Defined.

(* ===================================================================== *)
(** * What the scanner hands to the collector *)
(* ===================================================================== *)

Lemma strip_line (s : string) : all_chars is_line_char (strip_tab_cr_lf s) = true.
Proof.
  induction s as [|c s IH]; [reflexivity|]. cbn [strip_tab_cr_lf].
  destruct ((code c =? 9)%N || (code c =? 13)%N || (code c =? 10)%N) eqn:E; [exact IH|].
  cbn [all_chars]. rewrite IH, andb_true_r. unfold is_line_char. now rewrite E.
Qed.

Lemma all_chars_skipn (P : ascii -> bool) (n : nat) :
  forall s, all_chars P s = true -> all_chars P (skipn_str n s) = true.
Proof.
  induction n as [|n IH]; intros s H; [exact H|].
  destruct s as [|c s]; [reflexivity|]. cbn [skipn_str]. apply IH.
  cbn [all_chars] in H. now apply andb_true_iff in H as [_ H].
Qed.

Lemma all_chars_firstn (P : ascii -> bool) (n : nat) :
  forall s, all_chars P s = true -> all_chars P (firstn_str n s) = true.
Proof.
  induction n as [|n IH]; intros s H; [reflexivity|].
  destruct s as [|c s]; [reflexivity|]. cbn [firstn_str all_chars] in *.
  apply andb_true_iff in H as [Hc H]. now rewrite Hc, IH.
Qed.

Lemma all_chars_trim_start (P : ascii -> bool) (s : string) :
  all_chars P s = true -> all_chars P (trim_start s) = true.
Proof.
  induction s as [|c s IH]; [reflexivity|]. cbn [trim_start]. intros H.
  destruct (is_space c); [|exact H]. apply IH.
  cbn [all_chars] in H. now apply andb_true_iff in H as [_ H].
Qed.

Lemma all_chars_trim_end (P : ascii -> bool) (s : string) :
  all_chars P s = true -> all_chars P (trim_end s) = true.
Proof.
  induction s as [|c s IH]; [reflexivity|]. cbn [trim_end all_chars]. intros H.
  apply andb_true_iff in H as [Hc H]. specialize (IH H).
  destruct (trim_end s) as [|d t].
  - destruct (is_space c); [reflexivity|]. cbn [all_chars]. now rewrite Hc.
  - cbn [all_chars] in *. now rewrite Hc, IH.
Qed.

Lemma all_chars_block (P : ascii -> bool) (s : string) (a b : Z) :
  all_chars P s = true -> all_chars P (trim (substring s a b)) = true.
Proof.
  intros H. unfold trim, substring.
  now apply all_chars_trim_end, all_chars_trim_start, all_chars_firstn, all_chars_skipn.
Qed.

Lemma scan_blocks_line (boundary : regex) (cleaned : string) (fuel : nat) :
  all_chars is_line_char cleaned = true ->
  forall start acc blocks,
    Forall (fun b => all_chars is_line_char b = true) acc ->
    scan_blocks boundary (fun markup (st : unit) => Ok (markup, st)) fuel cleaned start
                acc tt = Ok (blocks, tt) ->
    Forall (fun b => all_chars is_line_char b = true) blocks.
Proof.
  intros Hclean. induction fuel as [|fuel IH]; intros start acc blocks Hacc H.
  - cbn [scan_blocks] in H. destruct (-1 <? start); [discriminate H|].
    inversion H; now subst.
  - cbn [scan_blocks] in H. destruct (-1 <? start); [|inversion H; now subst].
    destruct (find_close (S fuel) cleaned 1 (start + 1)) as [close| | |];
      cbn [bind] in H; try discriminate H.
    apply IH in H; [exact H|].
    apply Forall_app. split; [exact Hacc|]. constructor; [|constructor].
    now apply all_chars_block.
Qed.

(** X23: no block the scanner hands to its collector holds a tab, a
    carriage return or a line feed, whatever the markup and the boundary
    pattern: the line breaks of the content of a control are lost when the
    control is parsed. *)
Theorem X23_blocks_hold_no_line_breaks (boundary : regex) (html : option string)
        (fuel : nat) (blocks : list string) :
  getBoundedDivMarkup boundary (fun markup (st : unit) => Ok (markup, st)) fuel html tt
  = Ok (blocks, tt) ->
  Forall (fun b => all_chars is_line_char b = true) blocks.
Proof.
  unfold getBoundedDivMarkup. destruct html as [html|]; [|intros H; inversion H; constructor].
  destruct (regexIndexOf (strip_tab_cr_lf html) boundary 0 <? 0);
    [intros H; inversion H; constructor|].
  apply scan_blocks_line; [apply strip_line | constructor].
Qed.

Lemma X23_witness :
  Forall (fun b => all_chars is_line_char b = true)
         ["<div data-sp-canvascontrol>ab</div>"].
Proof.
  apply (X23_blocks_hold_no_line_breaks re_canvascontrol
           (Some ("<div>" ++ String "010" "<div data-sp-canvascontrol>a"
                  ++ String "009" "b</div></div>")) 3
           ["<div data-sp-canvascontrol>ab</div>"]).
  vm_compute. reflexivity.
Defined.

(** X22: a page of the class is read back from its markup: toHtml
    returns, fromHtml parses what it returned, and the parsed page has the
    sections, columns and controls of the page in their order, with the
    orders toHtml gave to sections and columns, the same factors and data
    versions, and text controls with the same text, control type, data
    version and id; the comments flag is the one of the receiving page. *)
Theorem X22_rendered_page_is_read_back (page : ClientSidePage) (fuel : nat) :
  page_ok page = true ->
  (block_count page + 2 <= fuel)%nat ->
  exists html parsed,
    snd (toHtml page) = Ok html /\
    fromHtml fuel (Some html) page
    = Ok {| sections := parsed; commentsDisabled := commentsDisabled page |} /\
    Forall2 section_alike (sections (fst (toHtml page))) parsed.
Proof.
  intros Hok Hfuel. unfold block_count in Hfuel.
  pose proof Hok as Hsections. unfold page_ok in Hsections.
  apply andb_true_iff in Hsections as [Hsections _].
  pose proof (toHtml_fragments page (sections_ok_only_text _ Hsections)) as Hfirst.
  destruct (parse_rendered page fuel Hok Hfuel) as (parsed & Hparse & Halike).
  eexists. exists parsed. split; [exact Hfirst|]. split; [exact Hparse|].
  now rewrite toHtml_reindexes.
Qed.

Lemma X22_witness :
  exists html parsed,
    snd (toHtml sample_page) = Ok html /\
    fromHtml 6 (Some html) sample_page
    = Ok {| sections := parsed; commentsDisabled := commentsDisabled sample_page |} /\
    Forall2 section_alike (sections (fst (toHtml sample_page))) parsed.
Proof.
  apply (X22_rendered_page_is_read_back sample_page 6); [reflexivity|].
  vm_compute. lia.
Defined.
(* ===================================================================== *)
(** * The control type the page parser reads from a fragment *)
(* ===================================================================== *)

Lemma comma_is_no_digit (c : ascii) :
  in_class DigitChar c = true -> char_eq true "," c = false.
Proof.
  intros H. apply negb_true_iff. revert c H.
  apply (ascii_implies (in_class DigitChar) (fun c => negb (char_eq true "," c))).
  vm_compute. reflexivity.
Qed.

(** Where the key of the control type first occurs and a run of digits and
    a comma follow it, the digits are what the parser reads. *)
Lemma controlType_read (u digits v : string) :
  no_start "controlType&quot;&#58;" u ("controlType&quot;&#58;" ++ digits ++ "," ++ v) ->
  all_chars (in_class DigitChar) digits = true ->
  fragment_controlType (u ++ "controlType&quot;&#58;" ++ digits ++ "," ++ v)
  = parseInt digits.
Proof.
  intros Hno Hd. unfold fragment_controlType, exec.
  rewrite (exec_from_skip "controlType&quot;&#58;" re_controlType _ _
             lit_first_controlType Hno).
  assert (Hm : match_nodes true (re_nodes re_controlType) None
                 ("controlType&quot;&#58;" ++ digits ++ "," ++ v)
               = Some ((22 + (String.length digits + 1))%nat, digits)).
  { unfold re_controlType, re_nodes. rewrite match_lit_self.
    rewrite (match_lazy_star DigitChar [Lit ","] digits _ ("," ++ v) 1%nat "" Hd).
    - reflexivity.
    - intros a1 a2 p Ha Ha2. subst digits.
      rewrite all_chars_append in Hd. apply andb_true_iff in Hd as [_ Hd].
      destruct a2 as [|c a2]; [congruence|].
      cbn [all_chars] in Hd. apply andb_true_iff in Hd as [Hc _].
      cbn [append match_nodes strip_lit]. now rewrite (comma_is_no_digit c Hc).
    - intros p. rewrite match_lit_self. reflexivity. }
  rewrite (exec_from_here re_controlType None _ _ _ Hm). reflexivity.
Qed.

(** A fragment in which the key of the control type occurs nowhere is read
    as a column marker. *)
Lemma controlType_absent (markup : string) :
  no_start "controlType&quot;&#58;" markup "" -> fragment_controlType markup = Some 0.
Proof.
  intros Hno. unfold fragment_controlType.
  now rewrite (exec_nowhere "controlType&quot;&#58;" re_controlType markup
                 lit_first_controlType Hno).
Qed.

(** C9: the control type of a fragment is the one fromHtml reads from the
    text of the fragment.  Where the text controlType&quot;&#58; first
    occurs (in any letter case) and a run of digits and a comma follow it,
    the control type is the number the digits spell, and not a number at all
    when the run is empty; a fragment in which that text occurs nowhere has
    the control type 0.  A fragment whose control type, read this way, is
    not 0, 3 or 4 is skipped by the collector without an error and leaves
    the counter and the tree as they were; the tree a parse builds is
    therefore the one built from the fragments of type 0, 3 and 4 alone. *)
Theorem C9_unknown_discriminants_dropped :
  (forall u digits v,
      no_start "controlType&quot;&#58;" u
               ("controlType&quot;&#58;" ++ digits ++ "," ++ v) ->
      all_chars (in_class DigitChar) digits = true ->
      fragment_controlType (u ++ "controlType&quot;&#58;" ++ digits ++ "," ++ v)
      = parseInt digits) /\
  (forall markup,
      no_start "controlType&quot;&#58;" markup "" ->
      fragment_controlType markup = Some 0) /\
  (forall fuel markup st,
      known_controlType markup = false ->
      collect_control fuel markup st = Ok (tt, st)) /\
  (forall fuel html page fs,
      fragments fuel html = Ok fs ->
      fromHtml fuel html page
      = (st <- collect_all fuel (filter known_controlType fs) (0, []) ;;
         Ok {| sections := snd st; commentsDisabled := commentsDisabled page |})).
Proof.
  split; [exact controlType_read|]. split; [exact controlType_absent|]. split.
  - apply collect_unknown.
  - intros fuel html page fs H.
    rewrite collect_all_filter. now apply fromHtml_collect_all.
Qed.

Lemma C9_witness :
  unknown_fragment
  = firstn_str 95 unknown_fragment ++ "controlType&quot;&#58;" ++ "5" ++ "," ++
    skipn_str 119 unknown_fragment /\
  fragment_controlType
    (firstn_str 95 unknown_fragment ++ "controlType&quot;&#58;" ++ "5" ++ "," ++
     skipn_str 119 unknown_fragment) = Some 5 /\
  fragment_controlType bare_fragment = Some 0 /\
  collect_control 5 unknown_fragment (0, []) = Ok (tt, (0, [])) /\
  fromHtml 5 (Some markup_with_unknown) blank_page
  = (st <- collect_all 5 [marker_fragment] (0, []) ;;
     Ok {| sections := snd st; commentsDisabled := false |}).
Proof.
  split; [vm_compute; reflexivity|]. split; [|split; [|split]].
  - apply (proj1 C9_unknown_discriminants_dropped
             (firstn_str 95 unknown_fragment) "5" (skipn_str 119 unknown_fragment)).
    + apply clear_no_start. vm_compute. reflexivity.
    + reflexivity.
  - apply (proj1 (proj2 C9_unknown_discriminants_dropped) bare_fragment).
    apply clear_no_start. vm_compute. reflexivity.
  - apply (proj1 (proj2 (proj2 C9_unknown_discriminants_dropped))). reflexivity.
  - apply (proj2 (proj2 (proj2 C9_unknown_discriminants_dropped)) 5%nat
             (Some markup_with_unknown) blank_page [marker_fragment; unknown_fragment]).
    vm_compute. reflexivity.
Defined.

(** C9 as stated fails: the control type fromHtml switches on is not the one
    of the decoded control data.  In a fragment whose control data hold the
    control type 5 as their last key no comma follows the digit, fromHtml
    reads the control type 0, and the fragment adds a section and a column
    to the tree. *)
Lemma C9_counterexample :
  decoded_controlType last_key_fragment = Ok (Some 5) /\
  fragment_controlType last_key_fragment = Some 0 /\
  exists page,
    fromHtml 5 (Some ("<div>" ++ last_key_fragment ++ "</div>")) blank_page = Ok page /\
    map (fun s => (section_order s,
                   map (fun c => (column_order c, factor c)) (columns s)))
        (sections page)
    = [(1, [(1, 12)])].
Proof.
  split; [vm_compute; reflexivity|]. split; [vm_compute; reflexivity|].
  eexists. split; vm_compute; reflexivity.
Defined.
